(** * PhD-insights dashboard: the data pipeline of [js/app.js]

    A shallow embedding of the spreadsheet-row normalizer, the filter
    engine, the aggregator and the view-model code of [js/app.js],
    together with the fragment of the JavaScript run-time the code relies
    on (strings, numbers, plain objects, the [<select>] element).

    Conventions.
    - A JavaScript string is a sequence of code units; it is embedded as a
      Rocq [string], one character per code unit, which covers the code
      units [0..255].
    - A JavaScript number is an IEEE 754 binary64 value, embedded as
      [spec_float] with precision 53 and maximal exponent 1024. *)

From Stdlib Require Import Bool List ZArith Lia Ascii String.
From Stdlib Require Import Permutation Sorted RelationClasses.
From Stdlib Require Import Floats.SpecFloat.
From Stdlib Require Import OrdersEx.
Import ListNotations.

Local Open Scope string_scope.
Local Open Scope Z_scope.

(* ================================================================== *)
(** * JavaScript strings *)
(* ================================================================== *)

Module JsString.

Definition chars (s : string) : list ascii := list_ascii_of_string s.
Definition of_chars (l : list ascii) : string := string_of_list_ascii l.

(** WhiteSpace and LineTerminator code units below 256:
    TAB, LF, VT, FF, CR, SP and NBSP. *)
Definition isWhiteSpace (c : ascii) : bool :=
  let n := N_of_ascii c in
  ((9 <=? n) && (n <=? 13) || (n =? 32) || (n =? 160))%N.

Fixpoint dropWhile {A} (p : A -> bool) (l : list A) : list A :=
  match l with
  | [] => []
  | x :: l' => if p x then dropWhile p l' else l
  end.

Definition trimStart (l : list ascii) : list ascii := dropWhile isWhiteSpace l.
Definition trimEnd (l : list ascii) : list ascii :=
  rev (dropWhile isWhiteSpace (rev l)).

(** [String.prototype.trim] *)
Definition trim (s : string) : string :=
  of_chars (trimEnd (trimStart (chars s))).

(** [s.replace(/,/g, "")] *)
Definition removeCommas (s : string) : string :=
  of_chars (filter (fun c => negb (Ascii.eqb c ",")) (chars s)).

(** Truthiness of a string: every string but the empty one. *)
Definition truthy (s : string) : bool :=
  match s with EmptyString => false | String _ _ => true end.

(** [a || b] on strings. *)
Definition orElse (a b : string) : string := if truthy a then a else b.

(** [Array.prototype.join] on strings. *)
Fixpoint join (sep : string) (l : list string) : string :=
  match l with
  | [] => ""
  | [x] => x
  | x :: l' => x ++ sep ++ join sep l'
  end.

Definition isDigit (c : ascii) : bool :=
  let n := N_of_ascii c in ((48 <=? n) && (n <=? 57))%N.

Definition digitValue (c : ascii) : Z := Z.of_N (N_of_ascii c) - 48.

Definition digitChar (d : Z) : ascii := ascii_of_N (Z.to_N (48 + d)).

(** Decimal digits of a non-negative integer, most significant first;
    the empty list for [0]. *)
Fixpoint digitsFuel (fuel : nat) (n : Z) (acc : list ascii) : list ascii :=
  match fuel with
  | O => acc
  | S fuel' =>
      if n <=? 0 then acc
      else digitsFuel fuel' (n / 10) (digitChar (n mod 10) :: acc)
  end.

Definition decimalDigits (n : Z) : list ascii :=
  digitsFuel (S (Z.to_nat (Z.log2 n))) n [].

(** The decimal representation of a non-negative integer. *)
Definition ofInteger (n : Z) : list ascii :=
  match decimalDigits n with
  | [] => ["0"%char]
  | ds => ds
  end.

(** Value of a run of decimal digits. *)
Definition digitsValue (ds : list ascii) : Z :=
  fold_left (fun acc c => 10 * acc + digitValue c) ds 0.

(** Split off the longest prefix whose elements satisfy [p]. *)
Fixpoint span {A} (p : A -> bool) (l : list A) : list A * list A :=
  match l with
  | [] => ([], [])
  | x :: l' =>
      if p x then let '(a, b) := span p l' in (x :: a, b) else ([], l)
  end.

Fixpoint isPrefix (p l : list ascii) : bool :=
  match p, l with
  | [], _ => true
  | _ :: _, [] => false
  | a :: p', b :: l' => Ascii.eqb a b && isPrefix p' l'
  end.

Definition zeros (n : Z) : list ascii := repeat "0"%char (Z.to_nat n).

End JsString.

(* ================================================================== *)
(** * JavaScript numbers *)
(* ================================================================== *)

Module JsNumber.
Import JsString.
Local Open Scope list_scope.

Definition prec : Z := 53.
Definition emax : Z := 1024.

Definition number := spec_float.

Definition zero : number := S754_zero false.
Definition NaN : number := S754_nan.
Definition Infinity : number := S754_infinity false.

(** Number value of the non-negative integer literal [n]. *)
Definition ofZ (n : Z) : number := binary_normalize prec emax n 0 false.

Definition one : number := ofZ 1.

(** [x + y] on numbers. *)
Definition add (x y : number) : number := SFadd prec emax x y.

Definition isNaN (x : number) : bool :=
  match x with S754_nan => true | _ => false end.

(** [Number.isFinite] *)
Definition isFinite (x : number) : bool :=
  match x with
  | S754_zero _ | S754_finite _ _ _ => true
  | S754_infinity _ | S754_nan => false
  end.

(** ToBoolean on a number: false for [+0], [-0] and [NaN]. *)
Definition truthy (x : number) : bool :=
  match x with
  | S754_zero _ | S754_nan => false
  | S754_infinity _ | S754_finite _ _ _ => true
  end.

(** [x || y] on numbers. *)
Definition orElse (x y : number) : number := if truthy x then x else y.

(** [x === y] on numbers. *)
Definition strictEq (x y : number) : bool := SFeqb x y.

(** The Number value of the decimal [(-1)^neg * m * 10^e]: the nearest
    binary64 value, ties to even, overflowing to an infinity. *)
Definition ofDecimal (neg : bool) (m e : Z) : number :=
  match m with
  | Zpos p =>
      if 0 <=? e
      then binary_round prec emax neg (p * Z.to_pos (10 ^ e)) 0
      else SFdiv prec emax (S754_finite neg p 0)
                           (S754_finite false (Z.to_pos (10 ^ (- e))) 0)
  | _ => S754_zero neg
  end.

(** ** [parseFloat] *)

(** A [StrDecimalLiteral] without its sign. *)
Inductive literal :=
| LInfinity
| LDecimal (mantissa : Z) (exponent : Z).

(** [ExponentPart]: [e] or [E], an optional sign and at least one digit;
    [0] when the input does not start with one. *)
Definition scanExponent (l : list ascii) : Z :=
  match l with
  | c :: l' =>
      if Ascii.eqb c "e" || Ascii.eqb c "E" then
        let '(neg, l'') :=
          match l' with
          | s :: r => if Ascii.eqb s "-" then (true, r)
                      else if Ascii.eqb s "+" then (false, r)
                      else (false, l')
          | [] => (false, l')
          end in
        let ds := fst (span isDigit l'') in
        match ds with
        | [] => 0
        | _ => if neg then - digitsValue ds else digitsValue ds
        end
      else 0
  | [] => 0
  end.

(** The longest prefix that is a [StrUnsignedDecimalLiteral], if any. *)
Definition scanUnsigned (l : list ascii) : option literal :=
  if isPrefix (chars "Infinity") l then Some LInfinity
  else
    let '(ip, r) := span isDigit l in
    let '(fp, r') :=
      match r with
      | c :: r1 => if Ascii.eqb c "." then span isDigit r1 else ([], r)
      | [] => ([], r)
      end in
    match ip, fp with
    | [], [] => None
    | _, _ =>
        Some (LDecimal (digitsValue (ip ++ fp))
                       (scanExponent r' - Z.of_nat (List.length fp)))
    end.

Definition literalValue (neg : bool) (t : literal) : number :=
  match t with
  | LInfinity => S754_infinity neg
  | LDecimal m e => ofDecimal neg m e
  end.

Definition parseFloatChars (l : list ascii) : number :=
  let t := trimStart l in
  let '(neg, u) :=
    match t with
    | c :: r => if Ascii.eqb c "-" then (true, r)
                else if Ascii.eqb c "+" then (false, r)
                else (false, t)
    | [] => (false, t)
    end in
  match scanUnsigned u with
  | Some lit => literalValue neg lit
  | None => NaN
  end.

Definition parseFloat (s : string) : number := parseFloatChars (chars s).

(** ** [Number::toString] (radix 10) *)

(** The positive rational [p / q]. *)
Record ratio := { num : Z; den : Z }.

Definition ratioOf (m : positive) (e : Z) : ratio :=
  if 0 <=? e then {| num := Zpos m * 2 ^ e; den := 1 |}
  else {| num := Zpos m; den := 2 ^ (- e) |}.

(** [r * 10^k] *)
Definition scale10 (r : ratio) (k : Z) : ratio :=
  if 0 <=? k then {| num := num r * 10 ^ k; den := den r |}
  else {| num := num r; den := den r * 10 ^ (- k) |}.

Definition floorRatio (r : ratio) : Z := num r / den r.

(** The least [n] in [lo, lo + fuel) with [10^(n-1) <= r < 10^n],
    searching upwards. *)
Fixpoint magnitudeFrom (fuel : nat) (r : ratio) (n : Z) : Z :=
  match fuel with
  | O => n
  | S fuel' =>
      if floorRatio (scale10 r (- n)) =? 0 then n
      else magnitudeFrom fuel' r (n + 1)
  end.

(** The integer [n] with [10^(n-1) <= r < 10^n], for the positive
    binary64 values. *)
Definition magnitude10 (r : ratio) : Z := magnitudeFrom 640 r (-324).

(** The digits [s] of length [k] and the exponent [n] such that
    [s * 10^(n-k)] is the decimal with the fewest digits that rounds to
    the positive value [m * 2^e], the nearest one when several do. *)
Fixpoint shortestFrom (fuel : nat) (m : positive) (e : Z) (n0 k : Z)
  : Z * Z * Z :=
  let r := scale10 (ratioOf m e) (k - n0) in
  let lo := floorRatio r in
  let hi := lo + 1 in
  let okLo := SFeqb (ofDecimal false lo (n0 - k)) (S754_finite false m e) in
  let okHi := SFeqb (ofDecimal false hi (n0 - k)) (S754_finite false m e) in
  let pick (s : Z) :=
    if s =? 10 ^ k then (10 ^ (k - 1), k, n0 + 1) else (s, k, n0) in
  let nearest :=
    match 2 * (num r - lo * den r) ?= den r with
    | Lt => lo
    | Gt => hi
    | Eq => if Z.even lo then lo else hi
    end in
  match fuel with
  | O => pick lo
  | S fuel' =>
      if okLo && okHi then pick nearest
      else if okLo then pick lo
      else if okHi then pick hi
      else shortestFrom fuel' m e n0 (k + 1)
  end.

Definition shortest (m : positive) (e : Z) : Z * Z * Z :=
  shortestFrom 17 m e (magnitude10 (ratioOf m e)) 1.

(** Steps 6 to 10 of [Number::toString]: lay out the digit string. *)
Definition layout (s k n : Z) : list ascii :=
  let ds := ofInteger s in
  if (k <=? n) && (n <=? 21) then ds ++ zeros (n - k)
  else if (0 <? n) && (n <=? 21) then
    firstn (Z.to_nat n) ds ++ "."%char :: skipn (Z.to_nat n) ds
  else if (-6 <? n) && (n <=? 0) then
    "0"%char :: "."%char :: zeros (- n) ++ ds
  else
    let ex := (if n - 1 <? 0 then "-"%char else "+"%char)
                :: ofInteger (Z.abs (n - 1)) in
    match ds with
    | [d] => d :: "e"%char :: ex
    | d :: rest => d :: "."%char :: rest ++ "e"%char :: ex
    | [] => []
    end.

Definition toStringChars (x : number) : list ascii :=
  match x with
  | S754_nan => chars "NaN"
  | S754_zero _ => chars "0"
  | S754_infinity s =>
      (if s then ["-"%char] else []) ++ chars "Infinity"
  | S754_finite s m e =>
      let '(d, k, n) := shortest m e in
      (if s then ["-"%char] else []) ++ layout d k n
  end.

Definition toString (x : number) : string := of_chars (toStringChars x).

(** ** [Number.prototype.toFixed] with two fraction digits *)

(** The integer [n] for which [n / 100 - m * 2^e] is closest to zero,
    the larger one on a tie. *)
Definition nearestHundredth (m : positive) (e : Z) : Z :=
  let r := scale10 (ratioOf m e) 2 in
  (2 * num r + den r) / (2 * den r).

Definition fixed2Digits (n : Z) : list ascii :=
  let ds := ofInteger n in
  let ds := zeros (3 - Z.of_nat (List.length ds)) ++ ds in
  let k := (List.length ds - 2)%nat in
  firstn k ds ++ "."%char :: skipn k ds.

Definition toFixed2 (x : number) : string :=
  match x with
  | S754_zero _ => "0.00"
  | S754_finite s m e =>
      if 10 ^ 21 <=? floorRatio (ratioOf m e) then toString x
      else of_chars ((if s then ["-"%char] else [])
                       ++ fixed2Digits (nearestHundredth m e))
  | _ => toString x
  end.

End JsNumber.

(* ================================================================== *)
(** * JavaScript values and plain objects *)
(* ================================================================== *)

Module JsValue.
Import JsString.

(** The primitive values a worksheet cell can hold. *)
Inductive primitive :=
| PUndefined
| PNull
| PBool (b : bool)
| PNumber (x : JsNumber.number)
| PString (s : string).

(** What the [+] of the accumulators yields: a number or a string. *)
Inductive scalar :=
| SNumber (x : JsNumber.number)
| SString (s : string).

(** What reading a property of an accumulator object yields: a scalar
    stored by the program, nothing, or one of the members every plain
    object inherits from [Object.prototype]. *)
Inductive value :=
| VUndefined
| VScalar (v : scalar)
| VFunction (name : string)
| VObjectPrototype.

(** ToBoolean *)
Definition truthyPrimitive (p : primitive) : bool :=
  match p with
  | PUndefined | PNull => false
  | PBool b => b
  | PNumber x => JsNumber.truthy x
  | PString s => truthy s
  end.

Definition truthyScalar (v : scalar) : bool :=
  match v with
  | SNumber x => JsNumber.truthy x
  | SString s => truthy s
  end.

Definition truthyValue (v : value) : bool :=
  match v with
  | VUndefined => false
  | VScalar s => truthyScalar s
  | VFunction _ | VObjectPrototype => true
  end.

(** [String(p)] *)
Definition primitiveToString (p : primitive) : string :=
  match p with
  | PUndefined => "undefined"
  | PNull => "null"
  | PBool true => "true"
  | PBool false => "false"
  | PNumber x => JsNumber.toString x
  | PString s => s
  end.

Definition scalarToString (v : scalar) : string :=
  match v with
  | SNumber x => JsNumber.toString x
  | SString s => s
  end.

(** ToPrimitive followed by ToString, for the inherited members: the
    source text of a built-in function, and [Object.prototype.toString]
    applied to [Object.prototype]. *)
Definition valueToString (v : value) : string :=
  match v with
  | VUndefined => "undefined"
  | VScalar s => scalarToString s
  | VFunction name => "function " ++ name ++ "() { [native code] }"
  | VObjectPrototype => "[object Object]"
  end.

(** [p || q] on primitives. *)
Definition orElsePrimitive (p q : primitive) : primitive :=
  if truthyPrimitive p then p else q.

(** [v || 0] *)
Definition orZero (v : value) : value :=
  if truthyValue v then v else VScalar (SNumber JsNumber.zero).

(** [v ?? 0] *)
Definition coalesceZero (v : value) : value :=
  match v with
  | VUndefined => VScalar (SNumber JsNumber.zero)
  | _ => v
  end.

(** [v + x] for a number [x]: numeric addition when [v] is a number
    ([undefined] converts to [NaN]), string concatenation when [v] is a
    string or converts to one. *)
Definition plusNumber (v : value) (x : JsNumber.number) : scalar :=
  match v with
  | VUndefined => SNumber (JsNumber.add JsNumber.NaN x)
  | VScalar (SNumber y) => SNumber (JsNumber.add y x)
  | _ => SString (valueToString v ++ JsNumber.toString x)
  end.

End JsValue.

Module JsObject.
Import JsString JsValue.
Local Open Scope list_scope.

(** The own properties of an object created by [{}] and only written
    by assignment, in creation order. *)
Definition object := list (string * scalar).

Definition empty : object := [].

Fixpoint getOwn (o : object) (k : string) : option scalar :=
  match o with
  | [] => None
  | (k', v) :: o' => if String.eqb k' k then Some v else getOwn o' k
  end.

(** The function-valued data properties of [Object.prototype]. *)
Definition prototypeMethods : list string :=
  [ "constructor"; "__defineGetter__"; "__defineSetter__";
    "hasOwnProperty"; "__lookupGetter__"; "__lookupSetter__";
    "isPrototypeOf"; "propertyIsEnumerable"; "toString"; "valueOf";
    "toLocaleString" ].

Definition isPrototypeMethod (k : string) : bool :=
  existsb (String.eqb k) prototypeMethods.

(** Names that resolve on [Object.prototype]. *)
Definition isInherited (k : string) : bool :=
  String.eqb k "__proto__" || isPrototypeMethod k.

(** [o[k]]: the own property, else the one of [Object.prototype]. *)
Definition get (o : object) (k : string) : value :=
  match getOwn o k with
  | Some v => VScalar v
  | None =>
      if String.eqb k "__proto__" then VObjectPrototype
      else if String.eqb k "constructor" then VFunction "Object"
      else if isPrototypeMethod k then VFunction k
      else VUndefined
  end.

Fixpoint setOwn (o : object) (k : string) (v : scalar) : object :=
  match o with
  | [] => [(k, v)]
  | (k', v') :: o' =>
      if String.eqb k' k then (k', v) :: o' else (k', v') :: setOwn o' k v
  end.

(** [o[k] = v] for a number or string [v]: the [__proto__] setter of
    [Object.prototype] ignores it; any other name becomes or stays an
    own property. *)
Definition set (o : object) (k : string) (v : scalar) : object :=
  if String.eqb k "__proto__" then o else setOwn o k v.

(** The array index a property name denotes: a canonical decimal
    numeral below [2^32 - 1]. *)
Definition arrayIndex (k : string) : option Z :=
  let cs := chars k in
  match cs with
  | [] => None
  | c :: rest =>
      if forallb isDigit cs
         && (negb (Ascii.eqb c "0") || match rest with [] => true | _ => false end)
         && (digitsValue cs <? 2 ^ 32 - 1)%Z
      then Some (digitsValue cs) else None
  end.

Definition isArrayIndex (k : string) : bool :=
  match arrayIndex k with Some _ => true | None => false end.

Definition indexOf (k : string) : Z :=
  match arrayIndex k with Some i => i | None => 0 end.

Fixpoint insertIndex (k : string) (l : list string) : list string :=
  match l with
  | [] => [k]
  | k' :: l' =>
      if (indexOf k <=? indexOf k')%Z then k :: l else k' :: insertIndex k l'
  end.

Definition sortIndices (l : list string) : list string :=
  fold_right insertIndex [] l.

(** OrdinaryOwnPropertyKeys: array indices in ascending numeric order,
    then the other names in creation order. *)
Definition ownKeys (o : object) : list string :=
  let ks := map fst o in
  sortIndices (filter isArrayIndex ks)
    ++ filter (fun k => negb (isArrayIndex k)) ks.

(** [Object.keys(o)] *)
Definition keys (o : object) : list string := ownKeys o.

(** [Object.entries(o)] *)
Definition entries (o : object) : list (string * value) :=
  map (fun k => (k, get o k)) (ownKeys o).

(** [Object.values(o)] *)
Definition values (o : object) : list value :=
  map (fun k => get o k) (ownKeys o).

End JsObject.

(* ================================================================== *)
(** * The [<select>] element *)
(* ================================================================== *)

Module Dom.
Local Open Scope list_scope.

Record OptionElement := { optValue : string; optText : string }.

(** A drop-down [<select>]: its options in tree order and the index of
    the selected one, if any. *)
Record SelectElement := {
  options : list OptionElement;
  selectedIndex : option nat
}.

(** [selectEl.value]: the value of the selected option, else [""]. *)
Definition value (s : SelectElement) : string :=
  match selectedIndex s with
  | Some i =>
      match nth_error (options s) i with
      | Some o => optValue o
      | None => ""
      end
  | None => ""
  end.

Fixpoint findValue (v : string) (l : list OptionElement) : option nat :=
  match l with
  | [] => None
  | o :: l' =>
      if String.eqb (optValue o) v then Some O
      else option_map S (findValue v l')
  end.

(** [selectEl.value = v]: select the first option whose value is [v];
    leave nothing selected when there is none. *)
Definition setValue (s : SelectElement) (v : string) : SelectElement :=
  {| options := options s; selectedIndex := findValue v (options s) |}.

(** [selectEl.innerHTML = ""] *)
Definition clear (s : SelectElement) : SelectElement :=
  {| options := []; selectedIndex := None |}.

(** [selectEl.appendChild(opt)] for a fresh option: when nothing is
    selected, a drop-down selects its first option. *)
Definition appendChild (s : SelectElement) (o : OptionElement) : SelectElement :=
  {| options := options s ++ [o];
     selectedIndex :=
       match selectedIndex s with
       | Some i => Some i
       | None => Some O
       end |}.

Definition optionValues (s : SelectElement) : list string :=
  map optValue (options s).

End Dom.

(* ================================================================== *)
(** * [js/app.js] *)
(* ================================================================== *)

Import JsString JsValue.
Local Open Scope list_scope.

(** A normalized project record, as [normalizeRow] builds it. *)
Record Project := {
  Domain : string;
  ProjectType : string;
  Title : string;
  FundingAgency : string;
  Amount : JsNumber.number;
  Status : string;
  FacultyName : string
}.

(** A row of [XLSX.utils.sheet_to_json]: column header to cell value. *)
Definition RawRow := list (string * primitive).

(** [row[col]] *)
Fixpoint cell (row : RawRow) (col : string) : primitive :=
  match row with
  | [] => PUndefined
  | (k, v) :: row' => if String.eqb k col then v else cell row' col
  end.

(** [String(row[col] || "").trim()] *)
Definition textField (row : RawRow) (col : string) : string :=
  trim (primitiveToString (orElsePrimitive (cell row col) (PString ""))).

(** [parseFloat(String(row[col] || "0").toString().replace(/,/g, "")) || 0] *)
Definition amountField (row : RawRow) (col : string) : JsNumber.number :=
  JsNumber.orElse
    (JsNumber.parseFloat
       (removeCommas
          (primitiveToString (orElsePrimitive (cell row col) (PString "0")))))
    JsNumber.zero.

Definition normalizeRow (row : RawRow) : Project :=
  {| Domain := textField row "Domain";
     ProjectType := textField row "Project Type";
     Title := textField row "Title";
     FundingAgency := textField row "Funding Agency";
     Amount := amountField row "Amount(in lakhs)";
     Status := textField row "Status";
     FacultyName := textField row "Faculty Name" |}.

(** ** Chart instances *)

Record Chart := {
  chartType : string;
  labels : list string;
  datasetLabel : option string;
  data : list value;
  backgroundColor : list string
}.

Record Charts := {
  projectsByDomain : option Chart;
  fundingByDomain : option Chart;
  projectsByStatus : option Chart
}.

(** ** The page state: [allRows], [charts] and the elements written to *)

Record State := {
  allRows : list Project;
  charts : Charts;
  domainFilter : Dom.SelectElement;
  statusFilter : Dom.SelectElement;
  facultyFilter : Dom.SelectElement;
  totalProjectsEl : string;
  totalFundingEl : string;
  uniqueDomainsEl : string;
  statusBreakdownEl : string;
  tableBody : list (list string)
}.

(** ** [applyFilters] *)

(** [!sel || field === sel] *)
Definition fieldOk (sel field : string) : bool :=
  negb (truthy sel) || String.eqb field sel.

Definition applyFilters (st : State) (rows : list Project) : list Project :=
  let domain := Dom.value (domainFilter st) in
  let status := Dom.value (statusFilter st) in
  let faculty := Dom.value (facultyFilter st) in
  filter (fun r =>
            let domainOk := fieldOk domain (Domain r) in
            let statusOk := fieldOk status (Status r) in
            let facultyOk := fieldOk faculty (FacultyName r) in
            domainOk && statusOk && facultyOk) rows.

(** ** [aggregateBy] *)

Definition aggregateStep (keyFn : Project -> string)
    (valueFn : option (Project -> JsNumber.number))
    (acc : JsObject.object) (r : Project) : JsObject.object :=
  let key := orElse (keyFn r) "Unknown" in
  let value := match valueFn with Some f => f r | None => JsNumber.one end in
  JsObject.set acc key (plusNumber (orZero (JsObject.get acc key)) value).

Definition aggregateBy (rows : list Project) (keyFn : Project -> string)
    (valueFn : option (Project -> JsNumber.number)) : JsObject.object :=
  fold_left (aggregateStep keyFn valueFn) rows JsObject.empty.

(** ** Summary *)

Definition clearSummary (st : State) : State :=
  {| allRows := allRows st; charts := charts st;
     domainFilter := domainFilter st; statusFilter := statusFilter st;
     facultyFilter := facultyFilter st;
     totalProjectsEl := "-"; totalFundingEl := "-";
     uniqueDomainsEl := "-"; statusBreakdownEl := "-";
     tableBody := tableBody st |}.

(** [set.add(v)] on a [Set] of strings kept in insertion order. *)
Definition setAdd (s : list string) (v : string) : list string :=
  if existsb (String.eqb v) s then s else s ++ [v].

(** [new Set(values)] *)
Definition setOf (l : list string) : list string := fold_left setAdd l [].

(** [rows.reduce((sum, r) => sum + (r.Amount || 0), 0)] *)
Definition totalFunding (rows : list Project) : JsNumber.number :=
  fold_left (fun sum r => JsNumber.add sum (JsNumber.orElse (Amount r) JsNumber.zero))
            rows JsNumber.zero.

(** The [statusCounts] object of [updateSummary]. *)
Definition statusCounts (rows : list Project) : JsObject.object :=
  fold_left (fun acc r =>
               let key := orElse (Status r) "Unknown" in
               JsObject.set acc key
                 (plusNumber (orZero (JsObject.get acc key)) JsNumber.one))
            rows JsObject.empty.

(** The text written to the status-breakdown element. *)
Definition statusBreakdown (rows : list Project) : string :=
  join " | "
       (map (fun e => (fst e ++ ": " ++ valueToString (snd e))%string)
            (JsObject.entries (statusCounts rows))).

Definition lengthNumber {A} (l : list A) : JsNumber.number :=
  JsNumber.ofZ (Z.of_nat (List.length l)).

Definition updateSummary (rows : list Project) (st : State) : State :=
  let totalProjects := lengthNumber rows in
  let uniqueDomains :=
    lengthNumber (setOf (filter truthy (map Domain rows))) in
  {| allRows := allRows st; charts := charts st;
     domainFilter := domainFilter st; statusFilter := statusFilter st;
     facultyFilter := facultyFilter st;
     totalProjectsEl := JsNumber.toString totalProjects;
     totalFundingEl := JsNumber.toFixed2 (totalFunding rows);
     uniqueDomainsEl := JsNumber.toString uniqueDomains;
     statusBreakdownEl := statusBreakdown rows;
     tableBody := tableBody st |}.

(** ** Table *)

Definition withTable (t : list (list string)) (st : State) : State :=
  {| allRows := allRows st; charts := charts st;
     domainFilter := domainFilter st; statusFilter := statusFilter st;
     facultyFilter := facultyFilter st;
     totalProjectsEl := totalProjectsEl st; totalFundingEl := totalFundingEl st;
     uniqueDomainsEl := uniqueDomainsEl st;
     statusBreakdownEl := statusBreakdownEl st;
     tableBody := t |}.

Definition clearTable (st : State) : State := withTable [] st.

Definition tableCells (r : Project) : list string :=
  [ Domain r; ProjectType r; Title r; FundingAgency r;
    JsNumber.toFixed2 (Amount r); Status r; FacultyName r ].

Definition renderTable (rows : list Project) (st : State) : State :=
  withTable (tableBody (clearTable st) ++ map tableCells rows) st.

(** ** Charts *)

Definition withCharts (c : Charts) (st : State) : State :=
  {| allRows := allRows st; charts := c;
     domainFilter := domainFilter st; statusFilter := statusFilter st;
     facultyFilter := facultyFilter st;
     totalProjectsEl := totalProjectsEl st; totalFundingEl := totalFundingEl st;
     uniqueDomainsEl := uniqueDomainsEl st;
     statusBreakdownEl := statusBreakdownEl st;
     tableBody := tableBody st |}.

Definition clearCharts (st : State) : State :=
  withCharts {| projectsByDomain := None; fundingByDomain := None;
                projectsByStatus := None |} st.

Definition palette : list string :=
  [ "#f97316"; "#22c55e"; "#3b82f6"; "#eab308";
    "#a855f7"; "#ec4899"; "#06b6d4"; "#f97373" ].

(** [labels.map((_, i) => palette[(i + shift) % palette.length])] *)
Definition colours (shift : nat) (labels : list string) : list string :=
  map (fun i => nth ((i + shift) mod List.length palette) palette "")
      (seq 0 (List.length labels)).

Definition domainKey (r : Project) : string := orElse (Domain r) "Unknown".
Definition statusKey (r : Project) : string := orElse (Status r) "Unknown".
Definition amountValue (r : Project) : JsNumber.number :=
  JsNumber.orElse (Amount r) JsNumber.zero.

Definition renderCharts (rows : list Project) (st : State) : State :=
  let st := clearCharts st in
  let byDomain := aggregateBy rows domainKey None in
  let fundingByDomain := aggregateBy rows domainKey (Some amountValue) in
  let byStatus := aggregateBy rows statusKey None in
  let domainLabels := JsObject.keys byDomain in
  let domainCounts := map (fun d => JsObject.get byDomain d) domainLabels in
  let domainFunding :=
    map (fun d => coalesceZero (JsObject.get fundingByDomain d)) domainLabels in
  let statusLabels := JsObject.keys byStatus in
  let statusCounts := map (fun s => JsObject.get byStatus s) statusLabels in
  withCharts
    {| projectsByDomain :=
         Some {| chartType := "bar"; labels := domainLabels;
                 datasetLabel := Some "Projects"; data := domainCounts;
                 backgroundColor := colours 0 domainLabels |};
       fundingByDomain :=
         Some {| chartType := "bar"; labels := domainLabels;
                 datasetLabel := Some "Funding (Lakhs)"; data := domainFunding;
                 backgroundColor := colours 2 domainLabels |};
       projectsByStatus :=
         Some {| chartType := "pie"; labels := statusLabels;
                 datasetLabel := None; data := statusCounts;
                 backgroundColor := colours 0 statusLabels |} |}
    st.

(** ** [render] *)

Definition render (rows : list Project) (st : State) : State :=
  match rows with
  | [] => clearCharts (clearTable (clearSummary st))
  | _ =>
      let filtered := applyFilters st rows in
      renderCharts filtered (renderTable filtered (updateSummary filtered st))
  end.

(** ** The host: collation and the spreadsheet library

    [String.prototype.localeCompare] is defined by the host's locale, and
    [XLSX.read] / [XLSX.utils.sheet_to_json] come from the SheetJS library
    loaded by the page; the code is modelled over them. *)

(** The outcome of a call that may throw. *)
Inductive completion (A : Type) :=
| Normal (a : A)
| Throw (error : string).
Arguments Normal {A} a.
Arguments Throw {A} error.

Section Host.

(** [a.localeCompare(b)]: negative, zero or positive. *)
Variable localeCompare : string -> string -> Z.

Variable Worksheet : Type.

Record Workbook := {
  SheetNames : list string;
  Sheets : list (string * Worksheet)
}.

(** [XLSX.read(data, { type: "array" })] *)
Variable XLSX_read : list Byte.byte -> completion Workbook.

(** [XLSX.utils.sheet_to_json(worksheet, { defval: "" })]; the
    worksheet is [undefined] when the workbook has no such sheet. *)
Variable sheet_to_json : option Worksheet -> list RawRow.

(** *** [Array.prototype.sort] with [(a, b) => a.localeCompare(b)] *)

Fixpoint sortInsert (x : string) (l : list string) : list string :=
  match l with
  | [] => [x]
  | y :: l' =>
      if (0 <? localeCompare x y)%Z then y :: sortInsert x l' else x :: l
  end.

(** A stable sort: equal elements keep their order. *)
Definition sortByLocale (l : list string) : list string :=
  fold_right sortInsert [] l.

(** *** [fillSelect] *)

Definition optionFor (v : string) : Dom.OptionElement :=
  {| Dom.optValue := v; Dom.optText := v |}.

Definition allOpt : Dom.OptionElement :=
  {| Dom.optValue := ""; Dom.optText := "All" |}.

Definition fillSelect (selectEl : Dom.SelectElement) (values : list string)
  : Dom.SelectElement :=
  let current := Dom.value selectEl in
  let selectEl := Dom.clear selectEl in
  let selectEl := Dom.appendChild selectEl allOpt in
  let selectEl :=
    fold_left (fun el value => Dom.appendChild el (optionFor value))
              (sortByLocale values) selectEl in
  if truthy current && existsb (String.eqb current) values
  then Dom.setValue selectEl current
  else selectEl.

(** *** [populateFilterOptions] *)

Definition collectStep (sets : list string * list string * list string)
    (r : Project) : list string * list string * list string :=
  let '(domains, statuses, faculties) := sets in
  ( if truthy (Domain r) then setAdd domains (Domain r) else domains,
    if truthy (Status r) then setAdd statuses (Status r) else statuses,
    if truthy (FacultyName r) then setAdd faculties (FacultyName r)
    else faculties ).

Definition collectOptions (rows : list Project)
  : list string * list string * list string :=
  fold_left collectStep rows ([], [], []).

Definition populateFilterOptions (rows : list Project) (st : State) : State :=
  let '(domains, statuses, faculties) := collectOptions rows in
  {| allRows := allRows st; charts := charts st;
     domainFilter := fillSelect (domainFilter st) domains;
     statusFilter := fillSelect (statusFilter st) statuses;
     facultyFilter := fillSelect (facultyFilter st) faculties;
     totalProjectsEl := totalProjectsEl st;
     totalFundingEl := totalFundingEl st;
     uniqueDomainsEl := uniqueDomainsEl st;
     statusBreakdownEl := statusBreakdownEl st;
     tableBody := tableBody st |}.

(** *** [handleFileUpload] *)

Definition withRows (rows : list Project) (st : State) : State :=
  {| allRows := rows; charts := charts st;
     domainFilter := domainFilter st; statusFilter := statusFilter st;
     facultyFilter := facultyFilter st;
     totalProjectsEl := totalProjectsEl st;
     totalFundingEl := totalFundingEl st;
     uniqueDomainsEl := uniqueDomainsEl st;
     statusBreakdownEl := statusBreakdownEl st;
     tableBody := tableBody st |}.

(** [workbook.Sheets[workbook.SheetNames[0]]] *)
Definition firstSheet (wb : Workbook) : option Worksheet :=
  match SheetNames wb with
  | [] => None
  | name :: _ =>
      option_map snd
        (find (fun e => String.eqb (fst e) name) (Sheets wb))
  end.

(** The [reader.onload] callback: the state it leaves behind and how
    it completes. *)
Definition onload (data : list Byte.byte) (st : State)
  : State * completion unit :=
  match XLSX_read data with
  | Throw e => (st, Throw e)
  | Normal workbook =>
      let json := sheet_to_json (firstSheet workbook) in
      let st := withRows (map normalizeRow json) st in
      let st := populateFilterOptions (allRows st) st in
      (render (allRows st) st, Normal tt)
  end.

(** What [reader.readAsArrayBuffer(file)] leads to: the [load] event
    with the bytes of the file, or an [error] event, for which no
    handler is registered. *)
Inductive File :=
| Readable (data : list Byte.byte)
| Unreadable.

(** [handleFileUpload], as the listener of the file input sees it;
    [files] is [event.target.files]. It returns [undefined] at once and
    leaves the state as it found it; when a file was chosen it has set
    [onload] on a new reader and asked it for the first file, which is
    read later. The result is the state, how the call completes, and
    the read it started. *)
Definition handleFileUpload (files : list File) (st : State)
  : State * completion unit * option File :=
  match files with
  | [] => (st, Normal tt, None)
  | file :: _ => (st, Normal tt, Some file)
  end.

(** The event the reader fires once the read is over, run on the state
    it finds: [load] calls [onload]; nothing listens to [error]. The
    completion is that of the callback: what it throws is caught by
    nothing in the program and goes to the host. *)
Definition readerEvent (file : File) (st : State) : State * completion unit :=
  match file with
  | Readable data => onload data st
  | Unreadable => (st, Normal tt)
  end.

(** A change of the file input together with the reader event that
    follows it. *)
Definition loadFile (files : list File) (st : State)
  : State * completion unit :=
  let '(st, returned, reading) := handleFileUpload files st in
  match reading with
  | Some file => readerEvent file st
  | None => (st, returned)
  end.

(** A change of one of the three filters: [render(allRows)]. *)
Definition onFilterChange (st : State) : State := render (allRows st) st.

End Host.

Arguments Build_Workbook {Worksheet} SheetNames Sheets.
Arguments SheetNames {Worksheet} w.
Arguments Sheets {Worksheet} w.
Arguments firstSheet {Worksheet} wb.
Arguments onload localeCompare {Worksheet} XLSX_read sheet_to_json data st.
Arguments readerEvent localeCompare {Worksheet} XLSX_read sheet_to_json file st.
Arguments loadFile localeCompare {Worksheet} XLSX_read sheet_to_json files st.

(* ================================================================== *)
(** * Statements read off the specification *)
(* ================================================================== *)

(** ** Filter engine *)

(** The filter selection in force: the values of the three drop-downs. *)
Definition selection (st : State) : string * string * string :=
  (Dom.value (domainFilter st), Dom.value (statusFilter st),
   Dom.value (facultyFilter st)).

(** A field passes when its selection is empty or equals it exactly. *)
Definition fieldPasses (sel field : string) : Prop :=
  sel = "" \/ field = sel.

(** A record passes when its three fields pass at once. *)
Definition recordPasses (sel : string * string * string) (r : Project) : Prop :=
  let '(domain, status, faculty) := sel in
  fieldPasses domain (Domain r) /\ fieldPasses status (Status r)
  /\ fieldPasses faculty (FacultyName r).

(** [Selects P l l']: [l'] is the subsequence of [l], in the order of
    [l], made of exactly the elements that satisfy [P]. *)
Inductive Selects {A} (P : A -> Prop) : list A -> list A -> Prop :=
| Selects_nil : Selects P [] []
| Selects_keep x l l' : P x -> Selects P l l' -> Selects P (x :: l) (x :: l')
| Selects_drop x l l' : ~ P x -> Selects P l l' -> Selects P (x :: l) l'.

(** ** Filter options *)

(** The distinct elements of a list in order of first occurrence. *)
Fixpoint firstOccurrences (l : list string) : list string :=
  match l with
  | [] => []
  | x :: l' => x :: filter (fun y => negb (String.eqb y x)) (firstOccurrences l')
  end.

(** The distinct non-empty values of a field, in order of first
    occurrence. *)
Definition distinctValues (field : Project -> string) (rows : list Project)
  : list string :=
  firstOccurrences (filter truthy (map field rows)).

(** Code-unit order on strings. *)
Definition ordinalLe (a b : string) : Prop := String.leb a b = true.

(** A comparator orders [a] before or level with [b]. *)
Definition notAfter (cmp : string -> string -> Z) (a b : string) : Prop :=
  (cmp a b <= 0)%Z.

(** What [populateFilterOptions] leaves in a drop-down for a field: the
    ["All"] choice with the empty value, then one option per distinct
    non-empty value of the field, sorted by the host's [localeCompare]. *)
Definition OptionsFor (cmp : string -> string -> Z) (field : Project -> string)
    (rows : list Project) (el : Dom.SelectElement) : Prop :=
  exists vs,
    Dom.options el
    = {| Dom.optValue := ""; Dom.optText := "All" |}
        :: map (fun v => {| Dom.optValue := v; Dom.optText := v |}) vs
    /\ vs = sortByLocale cmp (distinctValues field rows)
    /\ NoDup vs
    /\ (forall v, In v vs <-> v <> "" /\ exists r, In r rows /\ field r = v)
    /\ StronglySorted (notAfter cmp) vs.

(** The selection a drop-down carries after its options were recomputed
    from [rows]: the previous one when it is still among the distinct
    values of the field, the no-constraint value [""] otherwise. *)
Definition SelectionRefreshed (field : Project -> string) (rows : list Project)
    (old new : Dom.SelectElement) : Prop :=
  Dom.value new
  = (if existsb (String.eqb (Dom.value old)) (distinctValues field rows)
     then Dom.value old else "")
  /\ (Dom.value new = "" \/ In (Dom.value new) (distinctValues field rows))
  /\ In (Dom.value new) (Dom.optionValues new).

(** ** Aggregator *)

(** The key under which [aggregateBy] files a record. *)
Definition groupKey (keyFn : Project -> string) (r : Project) : string :=
  orElse (keyFn r) "Unknown".

(** What a record adds to its group. *)
Definition contribution (valueFn : option (Project -> JsNumber.number))
    (r : Project) : JsNumber.number :=
  match valueFn with Some f => f r | None => JsNumber.one end.

(** Every name but [__proto__], which assignment never creates. *)
Definition notProto (k : string) : bool := negb (String.eqb k "__proto__").

(** Order of two array-index names by the index they denote. *)
Definition indexLe (a b : string) : Prop :=
  (JsObject.indexOf a <= JsObject.indexOf b)%Z.

(** What [(acc[key] || 0) + value] makes of the value [x] of a key. *)
Definition accumulate (valueFn : option (Project -> JsNumber.number))
    (x : value) (r : Project) : value :=
  VScalar (plusNumber (orZero x) (contribution valueFn r)).

(** The records filed under [key]. *)
Definition groupOf (keyFn : Project -> string) (key : string)
    (rows : list Project) : list Project :=
  filter (fun r => String.eqb (groupKey keyFn r) key) rows.

(** ToNumber on what an accumulator holds. *)
Definition toNumber (v : value) : JsNumber.number :=
  match v with
  | VScalar (SNumber x) => x
  | _ => JsNumber.NaN
  end.

(** [list.reduce((s, x) => s + x, 0)] on numbers. *)
Definition sumNumbers (l : list JsNumber.number) : JsNumber.number :=
  fold_left JsNumber.add l JsNumber.zero.

(** The sum of all values of an aggregation result. *)
Definition sumValues (o : JsObject.object) : JsNumber.number :=
  sumNumbers (map toNumber (JsObject.values o)).

(** The records whose key function yields the empty string or the
    string ["Unknown"]. *)
Definition unknownGroup (keyFn : Project -> string) (rows : list Project)
  : list Project :=
  filter (fun r => String.eqb (keyFn r) "" || String.eqb (keyFn r) "Unknown")
         rows.

(** Two grouping values that differ at most by the empty one being
    spelled ["Unknown"], in either direction. *)
Definition sameUpToUnknown (k k' : string) : Prop :=
  k = k' \/ (k = "" /\ k' = "Unknown") \/ (k = "Unknown" /\ k' = "").

(** ** Integer-valued accumulators *)

(** The sum of a list of integers. *)
Definition sumZ (l : list Z) : Z := fold_right Z.add 0%Z l.

(** An accumulator each of whose values is the number of an integer. *)
Definition ofCounts (f : list (string * Z)) : JsObject.object :=
  map (fun e => (fst e, SNumber (JsNumber.ofZ (snd e)))) f.

(** The integer filed under [k], [0] when there is none. *)
Fixpoint countOf (f : list (string * Z)) (k : string) : Z :=
  match f with
  | [] => 0%Z
  | (k', c) :: f' => if String.eqb k' k then c else countOf f' k
  end.

(** File the integer [c] under [k]. *)
Fixpoint setCount (f : list (string * Z)) (k : string) (c : Z)
  : list (string * Z) :=
  match f with
  | [] => [(k, c)]
  | (k', c') :: f' =>
      if String.eqb k' k then (k', c) :: f' else (k', c') :: setCount f' k c
  end.

(** [p * 2^n] on positive mantissas, for [n >= 0]. *)
Definition shl (p : positive) (n : Z) : positive :=
  match n with Zpos d => Pos.iter xO p d | _ => p end.

(** The number of bits of a mantissa. *)
Definition digits (p : positive) : Z := Zpos (digits2_pos p).
Arguments digits p : simpl never.

(** A shift record with nothing shifted out yet. *)
Definition exactRecord (p : positive) : shr_record :=
  {| shr_m := Zpos p; shr_r := false; shr_s := false |}.

(** ** Row normalizer *)

(** The amount as the specification words it: the parsed cell, replaced
    by [0] when it is not a finite number. *)
Definition amountSpec (c : primitive) : JsNumber.number :=
  let p := JsNumber.parseFloat (removeCommas (primitiveToString c)) in
  if JsNumber.isFinite p then p else JsNumber.zero.

(** The parse yields an infinity. *)
Definition isInfinite (x : JsNumber.number) : bool :=
  match x with S754_infinity _ => true | _ => false end.

(** A text field as the specification words it: the trimmed string form
    of a cell that is present, the empty string for an absent one. *)
Definition textSpec (c : primitive) : string :=
  match c with
  | PUndefined => ""
  | _ => trim (primitiveToString c)
  end.

(** No white space at either end. *)
Definition Trimmed (s : string) : Prop :=
  match chars s with
  | [] => True
  | c :: _ => isWhiteSpace c = false /\ isWhiteSpace (last (chars s) c) = false
  end.

(** What [normalizeRow] makes of the text column [col]: the trimmed
    string form of a truthy cell, the empty string for any other; it
    carries no white space at either end, and it is what the
    specification words whenever the cell is absent, a string, or
    truthy. *)
Definition TextNormalized (row : RawRow) (col : string) (field : string) : Prop :=
  field = (if truthyPrimitive (cell row col)
           then trim (primitiveToString (cell row col)) else "")
  /\ Trimmed field
  /\ (cell row col = PUndefined -> field = "")
  /\ (truthyPrimitive (cell row col) = true
      \/ cell row col = PUndefined
      \/ (exists s, cell row col = PString s) ->
      field = textSpec (cell row col)).

(** ** Sample data and a sample host *)

(** A record with the given domain, status and amount. *)
Definition sampleProject (domain status : string) (amount : JsNumber.number)
  : Project :=
  {| Domain := domain; ProjectType := ""; Title := ""; FundingAgency := "";
     Amount := amount; Status := status; FacultyName := "" |}.

(** A drop-down as the page declares it: the ["All"] option, selected. *)
Definition initialSelect : Dom.SelectElement :=
  {| Dom.options := [{| Dom.optValue := ""; Dom.optText := "All" |}];
     Dom.selectedIndex := Some O |}.

(** The page before any file is loaded. *)
Definition initialState : State :=
  {| allRows := [];
     charts := {| projectsByDomain := None; fundingByDomain := None;
                  projectsByStatus := None |};
     domainFilter := initialSelect; statusFilter := initialSelect;
     facultyFilter := initialSelect;
     totalProjectsEl := "-"; totalFundingEl := "-";
     uniqueDomainsEl := "-"; statusBreakdownEl := "-";
     tableBody := [] |}.

(** A sample host collation in the style of the CLDR root order on
    letters: alphabetical regardless of case, a lower-case letter before
    its upper-case form on a tie. *)
Definition toLower (c : ascii) : ascii :=
  let n := N_of_ascii c in
  if ((65 <=? n) && (n <=? 90))%N then ascii_of_N (n + 32) else c.

(** The collation key of a string: its letters in lower case. *)
Definition lowerCase (s : string) : string :=
  of_chars (map toLower (chars s)).

(** The sample [localeCompare]. *)
Definition sampleLocaleCompare (a b : string) : Z :=
  match String_as_OT.compare (lowerCase a) (lowerCase b) with
  | Lt => (-1)%Z
  | Gt => 1%Z
  | Eq =>
      match String_as_OT.compare b a with
      | Lt => (-1)%Z
      | Gt => 1%Z
      | Eq => 0%Z
      end
  end.

(** The order the sample collation induces. *)
Definition sampleBefore (a b : string) : Prop :=
  String_as_OT.lt (lowerCase a) (lowerCase b)
  \/ (lowerCase a = lowerCase b /\ (String_as_OT.lt b a \/ a = b)).

(** A sample spreadsheet library: a worksheet is its list of rows.
    Data that starts with the bytes PK is a workbook of one sheet with
    one row; data that starts with the signature of a PNG image is
    refused, as SheetJS refuses it; anything else is taken for text, a
    sheet with no data row. *)
Definition sampleRead (data : list Byte.byte) : completion (Workbook (list RawRow)) :=
  match data with
  | Byte.x50 :: Byte.x4b :: _ =>
      Normal {| SheetNames := ["Sheet1"];
                Sheets := [("Sheet1", [[("Domain", PString "AI")]])] |}
  | Byte.x89 :: Byte.x50 :: Byte.x4e :: Byte.x47 :: _ =>
      Throw "PNG Image File is not a spreadsheet"
  | _ => Normal {| SheetNames := ["Sheet1"]; Sheets := [("Sheet1", [])] |}
  end.

(** The first bytes of a PNG image. *)
Definition pngSignature : list Byte.byte :=
  [Byte.x89; Byte.x50; Byte.x4e; Byte.x47].

(** Its [sheet_to_json]: the rows of the sheet, none for no sheet. *)
Definition sampleSheetToJson (sheet : option (list RawRow)) : list RawRow :=
  match sheet with
  | Some rows => rows
  | None => []
  end.

(** ** Page events and the states they lead to *)

Inductive FilterId := DomainFilter | StatusFilter | FacultyFilter.

(** The user picks the [i]-th option of a drop-down; nothing changes
    when there is no such option. *)
Definition chooseOption (el : Dom.SelectElement) (i : nat) : Dom.SelectElement :=
  if (i <? List.length (Dom.options el))%nat
  then {| Dom.options := Dom.options el; Dom.selectedIndex := Some i |}
  else el.

(** The state with one of its drop-downs changed by the user. *)
Definition chooseFilter (which : FilterId) (i : nat) (st : State) : State :=
  {| allRows := allRows st; charts := charts st;
     domainFilter :=
       match which with
       | DomainFilter => chooseOption (domainFilter st) i
       | _ => domainFilter st
       end;
     statusFilter :=
       match which with
       | StatusFilter => chooseOption (statusFilter st) i
       | _ => statusFilter st
       end;
     facultyFilter :=
       match which with
       | FacultyFilter => chooseOption (facultyFilter st) i
       | _ => facultyFilter st
       end;
     totalProjectsEl := totalProjectsEl st;
     totalFundingEl := totalFundingEl st;
     uniqueDomainsEl := uniqueDomainsEl st;
     statusBreakdownEl := statusBreakdownEl st;
     tableBody := tableBody st |}.

(** The two events the page listens to: a change of the file input, and
    a change of one of the three filters. *)
Inductive Event :=
| FileChange (files : list File)
| FilterChange (which : FilterId) (index : nat).

(** The listener of an event, run on the state the event finds; for a
    change of the file input, the listener and the reader event after
    it, between which [handleFileUpload] has left the state alone. *)
Definition handleEvent (localeCompare : string -> string -> Z)
    {Worksheet : Type}
    (XLSX_read : list Byte.byte -> completion (Workbook Worksheet))
    (sheet_to_json : option Worksheet -> list RawRow)
    (st : State) (ev : Event) : State :=
  match ev with
  | FileChange files =>
      fst (loadFile localeCompare XLSX_read sheet_to_json files st)
  | FilterChange which i => onFilterChange (chooseFilter which i st)
  end.

(** The state after a sequence of events on the freshly opened page. *)
Definition runEvents (localeCompare : string -> string -> Z)
    {Worksheet : Type}
    (XLSX_read : list Byte.byte -> completion (Workbook Worksheet))
    (sheet_to_json : option Worksheet -> list RawRow)
    (events : list Event) : State :=
  fold_left (handleEvent localeCompare XLSX_read sheet_to_json)
            events initialState.

(** A record as [normalizeRow] leaves it: no white space around its
    text fields, an amount that is not [NaN] and that [|| 0] leaves
    alone. *)
Definition Normalized (r : Project) : Prop :=
  Trimmed (Domain r) /\ Trimmed (ProjectType r) /\ Trimmed (Title r)
  /\ Trimmed (FundingAgency r) /\ Trimmed (Status r)
  /\ Trimmed (FacultyName r)
  /\ JsNumber.isNaN (Amount r) = false
  /\ amountValue r = Amount r.

(** A drop-down in step with the record set: its options are ["All"]
    and the sorted distinct values of its field, and one of them is
    selected. *)
Definition FilterInSync (cmp : string -> string -> Z)
    (field : Project -> string) (rows : list Project)
    (el : Dom.SelectElement) : Prop :=
  Dom.options el
  = allOpt :: map optionFor (sortByLocale cmp (distinctValues field rows))
  /\ exists i o, Dom.selectedIndex el = Some i
                 /\ nth_error (Dom.options el) i = Some o.

(** A page whose view shows its record set under its filters. *)
Definition Consistent (cmp : string -> string -> Z) (st : State) : Prop :=
  st = render (allRows st) st
  /\ Forall Normalized (allRows st)
  /\ FilterInSync cmp Domain (allRows st) (domainFilter st)
  /\ FilterInSync cmp Status (allRows st) (statusFilter st)
  /\ FilterInSync cmp FacultyName (allRows st) (facultyFilter st).

(** The seven column headers [normalizeRow] reads. *)
Definition expectedColumns : list string :=
  [ "Domain"; "Project Type"; "Title"; "Funding Agency";
    "Amount(in lakhs)"; "Status"; "Faculty Name" ].

(** The number of records filed under [key], as a number. *)
Definition groupCount (keyFn : Project -> string) (key : string)
    (rows : list Project) : JsNumber.number :=
  JsNumber.ofZ (Z.of_nat (List.length (groupOf keyFn key rows))).

(* ================================================================== *)
(** * Filter engine: [applyFilters] *)
(* ================================================================== *)

Lemma truthy_false_iff (s : string) : truthy s = false <-> s = "".
Proof. destruct s; simpl; split; congruence. Qed.

Lemma fieldOk_spec (sel field : string) :
  fieldOk sel field = true <-> fieldPasses sel field.
Proof.
  unfold fieldOk, fieldPasses.
  rewrite orb_true_iff, negb_true_iff, truthy_false_iff, String.eqb_eq.
  reflexivity.
Qed.

Lemma recordOk_spec (st : State) (r : Project) :
  fieldOk (Dom.value (domainFilter st)) (Domain r)
  && fieldOk (Dom.value (statusFilter st)) (Status r)
  && fieldOk (Dom.value (facultyFilter st)) (FacultyName r) = true
  <-> recordPasses (selection st) r.
Proof.
  unfold recordPasses, selection.
  rewrite !andb_true_iff, !fieldOk_spec. tauto.
Qed.

Lemma Selects_filter {A} (P : A -> Prop) (f : A -> bool) (l : list A) :
  (forall x, f x = true <-> P x) -> Selects P l (filter f l).
Proof.
  intros Hf. induction l as [|x l IH]; simpl.
  - constructor.
  - destruct (f x) eqn:E.
    + apply Selects_keep; [apply Hf, E | exact IH].
    + apply Selects_drop; [| exact IH].
      intros HP. apply Hf in HP. congruence.
Qed.

Lemma Selects_unique {A} (P : A -> Prop) (l l1 l2 : list A) :
  Selects P l l1 -> Selects P l l2 -> l1 = l2.
Proof.
  intros H1. revert l2.
  induction H1; intros l2 H2; inversion H2; subst;
    try reflexivity; try contradiction.
  - f_equal. auto.
  - auto.
Qed.

(** C1. [applyFilters] returns the subsequence of the records, in input
    order, made of exactly the records whose domain, status and faculty
    each pass the selection (selection empty, or field equal to it by
    exact string equality), all three at once; it is the only such list,
    and a record is in it iff it is in the input and passes. *)
Theorem applyFilters_selects_passing :
  forall (st : State) (rows : list Project),
    Selects (recordPasses (selection st)) rows (applyFilters st rows)
    /\ (forall l, Selects (recordPasses (selection st)) rows l ->
                  l = applyFilters st rows)
    /\ (forall r, In r (applyFilters st rows) <->
                  In r rows /\ recordPasses (selection st) r).
Proof.
  intros st rows.
  assert (HS : Selects (recordPasses (selection st)) rows (applyFilters st rows)).
  { unfold applyFilters. apply Selects_filter. intros r. apply recordOk_spec. }
  split; [exact HS|]. split.
  - intros l Hl. eapply Selects_unique; eassumption.
  - intros r. unfold applyFilters. rewrite filter_In.
    cbv zeta. rewrite recordOk_spec. reflexivity.
Qed.

(* ================================================================== *)
(** * Plain objects: own keys and their enumeration order *)
(* ================================================================== *)

Lemma existsb_eqb_In (x : string) (l : list string) :
  existsb (String.eqb x) l = true <-> In x l.
Proof.
  rewrite existsb_exists. split.
  - intros [y [Hy E]]. apply String.eqb_eq in E. congruence.
  - intros H. exists x. split; [exact H | apply String.eqb_refl].
Qed.

Lemma setAdd_In (x v : string) (s : list string) :
  In x (setAdd s v) <-> In x s \/ x = v.
Proof.
  unfold setAdd. destruct (existsb (String.eqb v) s) eqn:E.
  - apply existsb_eqb_In in E. split; [tauto|].
    intros [H | ->]; assumption.
  - rewrite in_app_iff. simpl. intuition congruence.
Qed.

Lemma fold_setAdd_In (x : string) (l s : list string) :
  In x (fold_left setAdd l s) <-> In x s \/ In x l.
Proof.
  revert s. induction l as [|y l IH]; intros s; simpl.
  - tauto.
  - rewrite IH, setAdd_In. intuition congruence.
Qed.

Lemma setAdd_NoDup (v : string) (s : list string) :
  NoDup s -> NoDup (setAdd s v).
Proof.
  intros H. unfold setAdd. destruct (existsb (String.eqb v) s) eqn:E; [exact H|].
  assert (Hn : ~ In v s).
  { intros Hin. apply existsb_eqb_In in Hin. congruence. }
  apply NoDup_rev in H. rewrite <- (rev_involutive (s ++ [v])).
  apply NoDup_rev. rewrite rev_app_distr. simpl. constructor; [|exact H].
  rewrite <- in_rev. exact Hn.
Qed.

Lemma fold_setAdd_NoDup (l s : list string) :
  NoDup s -> NoDup (fold_left setAdd l s).
Proof.
  revert s. induction l as [|y l IH]; intros s H; simpl; [exact H|].
  apply IH, setAdd_NoDup, H.
Qed.

Lemma filter_filter_comm {A} (p q : A -> bool) (l : list A) :
  filter p (filter q l) = filter q (filter p l).
Proof.
  induction l as [|x l IH]; simpl; [reflexivity|].
  destruct (p x) eqn:Ep, (q x) eqn:Eq; simpl; rewrite ?Ep, ?Eq, IH; reflexivity.
Qed.

Lemma filter_absorb (p : string -> bool) (y : string) (l : list string) :
  p y = false ->
  filter p (filter (fun z => negb (String.eqb z y)) l) = filter p l.
Proof.
  intros Hy. induction l as [|x l IH]; simpl; [reflexivity|].
  destruct (String.eqb_spec x y) as [->|Hne]; simpl.
  - rewrite Hy. exact IH.
  - rewrite IH. reflexivity.
Qed.

Lemma firstOccurrences_filter (p : string -> bool) (l : list string) :
  firstOccurrences (filter p l) = filter p (firstOccurrences l).
Proof.
  induction l as [|y l IH]; simpl; [reflexivity|].
  destruct (p y) eqn:E; simpl.
  - rewrite IH, filter_filter_comm. reflexivity.
  - rewrite IH. symmetry. apply filter_absorb, E.
Qed.

Lemma fold_setAdd_firstOccurrences (l s : list string) :
  fold_left setAdd l s
  = s ++ firstOccurrences (filter (fun y => negb (existsb (String.eqb y) s)) l).
Proof.
  revert s. induction l as [|x l IH]; intros s; simpl.
  - rewrite app_nil_r. reflexivity.
  - rewrite IH. unfold setAdd.
    destruct (existsb (String.eqb x) s) eqn:E; simpl; [reflexivity|].
    rewrite <- app_assoc. simpl. do 2 f_equal.
    rewrite <- firstOccurrences_filter, filter_filter_comm. f_equal.
    rewrite (filter_ext (fun y => negb (existsb (String.eqb y) (s ++ [x])))
               (fun y => negb (String.eqb y x) && negb (existsb (String.eqb y) s))).
    + clear. induction l as [|z l IH]; simpl; [reflexivity|].
      destruct (String.eqb z x); simpl; [exact IH|].
      destruct (existsb (String.eqb z) s); simpl; rewrite IH; reflexivity.
    + intros y. rewrite existsb_app. simpl. rewrite orb_false_r.
      destruct (existsb (String.eqb y) s), (String.eqb y x); reflexivity.
Qed.

(** The [Set] of the elements of a list lists them in order of first
    occurrence. *)
Lemma setOf_firstOccurrences (l : list string) :
  setOf l = firstOccurrences l.
Proof.
  unfold setOf. rewrite fold_setAdd_firstOccurrences. simpl.
  f_equal. induction l as [|x l IH]; simpl; congruence.
Qed.

Lemma firstOccurrences_In (x : string) (l : list string) :
  In x (firstOccurrences l) <-> In x l.
Proof.
  rewrite <- setOf_firstOccurrences. unfold setOf.
  rewrite fold_setAdd_In. simpl. tauto.
Qed.

Lemma firstOccurrences_NoDup (l : list string) : NoDup (firstOccurrences l).
Proof.
  rewrite <- setOf_firstOccurrences. apply fold_setAdd_NoDup. constructor.
Qed.

Lemma setOwn_keys (o : JsObject.object) (k : string) (v : scalar) :
  map fst (JsObject.setOwn o k v) = setAdd (map fst o) k.
Proof.
  unfold setAdd. induction o as [|[k' v'] o IH]; simpl; [reflexivity|].
  rewrite (String.eqb_sym k k').
  destruct (String.eqb k' k); simpl; [reflexivity|].
  rewrite IH. destruct (existsb (String.eqb k) (map fst o)); reflexivity.
Qed.

Lemma set_keys (o : JsObject.object) (k : string) (v : scalar) :
  map fst (JsObject.set o k v)
  = fold_left setAdd (filter notProto [k]) (map fst o).
Proof.
  unfold JsObject.set, notProto. simpl.
  destruct (String.eqb k "__proto__"); simpl; [reflexivity|apply setOwn_keys].
Qed.

Lemma aggregate_keys_from (keyFn : Project -> string)
    (valueFn : option (Project -> JsNumber.number))
    (rows : list Project) (acc : JsObject.object) :
  map fst (fold_left (aggregateStep keyFn valueFn) rows acc)
  = fold_left setAdd (filter notProto (map (groupKey keyFn) rows)) (map fst acc).
Proof.
  revert acc. induction rows as [|r rows IH]; intros acc; simpl; [reflexivity|].
  rewrite IH. unfold aggregateStep. rewrite set_keys. simpl.
  fold (groupKey keyFn r). destruct (notProto (groupKey keyFn r)); reflexivity.
Qed.

(** The own property names of an aggregation result, in creation order. *)
Lemma aggregateBy_own_names (rows : list Project) (keyFn : Project -> string)
    (valueFn : option (Project -> JsNumber.number)) :
  map fst (aggregateBy rows keyFn valueFn)
  = firstOccurrences (filter notProto (map (groupKey keyFn) rows)).
Proof.
  unfold aggregateBy. rewrite aggregate_keys_from. simpl.
  apply setOf_firstOccurrences.
Qed.

Lemma insertIndex_Permutation (k : string) (l : list string) :
  Permutation (JsObject.insertIndex k l) (k :: l).
Proof.
  induction l as [|y l IH]; simpl; [reflexivity|].
  destruct (JsObject.indexOf k <=? JsObject.indexOf y)%Z; [reflexivity|].
  rewrite IH. apply perm_swap.
Qed.

Lemma sortIndices_Permutation (l : list string) :
  Permutation (JsObject.sortIndices l) l.
Proof.
  induction l as [|x l IH]; simpl; [reflexivity|].
  rewrite insertIndex_Permutation. constructor. exact IH.
Qed.

Lemma insertIndex_sorted (k : string) (l : list string) :
  StronglySorted indexLe l -> StronglySorted indexLe (JsObject.insertIndex k l).
Proof.
  induction 1 as [|y l Hs IH Hall]; simpl.
  - repeat constructor.
  - destruct (Z.leb_spec (JsObject.indexOf k) (JsObject.indexOf y)) as [Hle|Hgt].
    + constructor; [constructor; assumption|].
      constructor; [exact Hle|].
      rewrite Forall_forall in *. intros z Hz. specialize (Hall z Hz).
      unfold indexLe in *. lia.
    + constructor; [exact IH|].
      rewrite Forall_forall in *. intros z Hz.
      apply (Permutation_in _ (insertIndex_Permutation k l)) in Hz.
      destruct Hz as [<-|Hz]; [unfold indexLe; lia | auto].
Qed.

Lemma sortIndices_sorted (l : list string) :
  StronglySorted indexLe (JsObject.sortIndices l).
Proof.
  induction l as [|x l IH]; simpl; [constructor | apply insertIndex_sorted, IH].
Qed.

Lemma ownKeys_Permutation (o : JsObject.object) :
  Permutation (JsObject.ownKeys o) (map fst o).
Proof.
  unfold JsObject.ownKeys. rewrite sortIndices_Permutation.
  induction (map fst o) as [|k ks IH]; simpl; [reflexivity|].
  destruct (JsObject.isArrayIndex k); simpl.
  - constructor. exact IH.
  - rewrite <- Permutation_middle. constructor. exact IH.
Qed.

Lemma keys_In (o : JsObject.object) (k : string) :
  In k (JsObject.keys o) <-> In k (map fst o).
Proof.
  unfold JsObject.keys. split; apply Permutation_in.
  - apply ownKeys_Permutation.
  - symmetry. apply ownKeys_Permutation.
Qed.

Lemma groupKey_nonempty (keyFn : Project -> string) (r : Project) :
  groupKey keyFn r <> "".
Proof.
  unfold groupKey, orElse. destruct (keyFn r); simpl; discriminate.
Qed.

Lemma aggregateBy_key_In (rows : list Project) (keyFn : Project -> string)
    (valueFn : option (Project -> JsNumber.number)) (k : string) :
  In k (JsObject.keys (aggregateBy rows keyFn valueFn))
  <-> k <> "__proto__" /\ exists r, In r rows /\ groupKey keyFn r = k.
Proof.
  rewrite keys_In, aggregateBy_own_names, firstOccurrences_In, filter_In, in_map_iff.
  unfold notProto. rewrite negb_true_iff, String.eqb_neq.
  split.
  - intros [[r [E H]] Hk]. split; [exact Hk|]. exists r. tauto.
  - intros [Hk [r [H E]]]. split; [|exact Hk]. exists r. tauto.
Qed.

(* ================================================================== *)
(** * Aggregator: [aggregateBy] *)
(* ================================================================== *)

Lemma aggregateStep_eq (keyFn : Project -> string)
    (valueFn : option (Project -> JsNumber.number))
    (acc : JsObject.object) (r : Project) :
  aggregateStep keyFn valueFn acc r
  = JsObject.set acc (groupKey keyFn r)
      (plusNumber (orZero (JsObject.get acc (groupKey keyFn r)))
                  (contribution valueFn r)).
Proof. reflexivity. Qed.

Lemma aggregateBy_app (rows1 rows2 : list Project) (keyFn : Project -> string)
    (valueFn : option (Project -> JsNumber.number)) :
  aggregateBy (rows1 ++ rows2) keyFn valueFn
  = fold_left (aggregateStep keyFn valueFn) rows2 (aggregateBy rows1 keyFn valueFn).
Proof. unfold aggregateBy. apply fold_left_app. Qed.

(** Aggregation sees a record only through its group key and its
    contribution. *)
Lemma aggregate_from_ext (keyFn keyFn' : Project -> string)
    (valueFn valueFn' : option (Project -> JsNumber.number))
    (rows rows' : list Project) :
  Forall2 (fun r r' => groupKey keyFn r = groupKey keyFn' r'
                       /\ contribution valueFn r = contribution valueFn' r')
          rows rows' ->
  forall acc,
    fold_left (aggregateStep keyFn valueFn) rows acc
    = fold_left (aggregateStep keyFn' valueFn') rows' acc.
Proof.
  induction 1 as [|r r' rows rows' [Hk Hv] _ IH]; intros acc; simpl.
  - reflexivity.
  - rewrite !aggregateStep_eq, Hk, Hv. apply IH.
Qed.

Lemma aggregateBy_ext (keyFn keyFn' : Project -> string)
    (valueFn valueFn' : option (Project -> JsNumber.number))
    (rows rows' : list Project) :
  Forall2 (fun r r' => groupKey keyFn r = groupKey keyFn' r'
                       /\ contribution valueFn r = contribution valueFn' r')
          rows rows' ->
  aggregateBy rows keyFn valueFn = aggregateBy rows' keyFn' valueFn'.
Proof. intros H. unfold aggregateBy. apply aggregate_from_ext, H. Qed.

Lemma orElse_idempotent (s d : string) : orElse (orElse s d) d = orElse s d.
Proof. unfold orElse. destruct s; simpl; [destruct d|]; reflexivity. Qed.

Lemma statusCounts_aggregateBy (rows : list Project) :
  statusCounts rows = aggregateBy rows Status None.
Proof. reflexivity. Qed.

Lemma filter_all {A} (p : A -> bool) (l : list A) :
  (forall x, In x l -> p x = true) -> filter p l = l.
Proof.
  induction l as [|x l IH]; intros H; simpl; [reflexivity|].
  rewrite (H x (or_introl eq_refl)), IH; [reflexivity|].
  intros y Hy. apply H. right. exact Hy.
Qed.

Lemma filter_none {A} (p : A -> bool) (l : list A) :
  (forall x, In x l -> p x = false) -> filter p l = [].
Proof.
  induction l as [|x l IH]; intros H; simpl; [reflexivity|].
  rewrite (H x (or_introl eq_refl)). apply IH.
  intros y Hy. apply H. right. exact Hy.
Qed.

(** C4, as stated, fails: for the domains ["10"] then ["9"] the keys are
    enumerated ["9"] before ["10"], not in order of first occurrence. *)
Lemma aggregateBy_key_order_counterexample :
  let rows := [sampleProject "10" "" JsNumber.one;
               sampleProject "9" "" JsNumber.one] in
  firstOccurrences (map (groupKey Domain) rows) = ["10"; "9"]
  /\ JsObject.keys (aggregateBy rows Domain None) = ["9"; "10"]
  /\ JsObject.keys (aggregateBy rows Domain None)
     <> firstOccurrences (map (groupKey Domain) rows).
Proof.
  cbv zeta. split; [reflexivity|]. split; [reflexivity|].
  vm_compute. discriminate.
Qed.

(** C4, amended. When no record's key is ["__proto__"], the keys of an
    aggregation result are enumerated as follows: first the keys that
    are array indices (canonical decimal numerals below [2^32 - 1]), in
    ascending numeric order, then every other key in the order in which
    it was first met while scanning the records; when no key is an array
    index this is exactly the order of first occurrence. *)
Theorem aggregateBy_key_order :
  forall (rows : list Project) (keyFn : Project -> string)
         (valueFn : option (Project -> JsNumber.number)),
    (forall r, In r rows -> groupKey keyFn r <> "__proto__") ->
    let seen := firstOccurrences (map (groupKey keyFn) rows) in
    let indices := JsObject.sortIndices (filter JsObject.isArrayIndex seen) in
    JsObject.keys (aggregateBy rows keyFn valueFn)
    = indices ++ filter (fun k => negb (JsObject.isArrayIndex k)) seen
    /\ Permutation indices (filter JsObject.isArrayIndex seen)
    /\ StronglySorted indexLe indices
    /\ ((forall r, In r rows -> JsObject.isArrayIndex (groupKey keyFn r) = false) ->
        JsObject.keys (aggregateBy rows keyFn valueFn) = seen).
Proof.
  intros rows keyFn valueFn Hproto seen indices.
  assert (Hnames : map fst (aggregateBy rows keyFn valueFn) = seen).
  { rewrite aggregateBy_own_names. unfold seen. f_equal.
    apply filter_all. intros k Hk. apply in_map_iff in Hk.
    destruct Hk as [r [<- Hr]]. unfold notProto.
    apply negb_true_iff, String.eqb_neq, Hproto, Hr. }
  assert (Hkeys : JsObject.keys (aggregateBy rows keyFn valueFn)
                  = indices ++ filter (fun k => negb (JsObject.isArrayIndex k)) seen).
  { unfold JsObject.keys, JsObject.ownKeys. rewrite Hnames. reflexivity. }
  split; [exact Hkeys|].
  split; [apply sortIndices_Permutation|].
  split; [apply sortIndices_sorted|].
  intros Hidx. rewrite Hkeys. unfold indices.
  assert (Hseen : forall k, In k seen -> JsObject.isArrayIndex k = false).
  { intros k Hk. apply firstOccurrences_In, in_map_iff in Hk.
    destruct Hk as [r [<- Hr]]. apply Hidx, Hr. }
  rewrite (filter_none _ _ Hseen). simpl.
  apply filter_all. intros k Hk. rewrite (Hseen k Hk). reflexivity.
Qed.

(** The statement at the domains Bio, AI, Bio. *)
Lemma aggregateBy_key_order_witness :
  JsObject.keys
    (aggregateBy [sampleProject "Bio" "" JsNumber.one;
                  sampleProject "AI" "" JsNumber.one;
                  sampleProject "Bio" "" JsNumber.one] Domain None)
  = ["Bio"; "AI"].
Proof.
  apply (aggregateBy_key_order
           [sampleProject "Bio" "" JsNumber.one;
            sampleProject "AI" "" JsNumber.one;
            sampleProject "Bio" "" JsNumber.one] Domain None).
  - intros r Hr. simpl in Hr.
    destruct Hr as [<-|[<-|[<-|[]]]]; vm_compute; discriminate.
  - intros r Hr. simpl in Hr.
    destruct Hr as [<-|[<-|[<-|[]]]]; reflexivity.
Defined.

(* ================================================================== *)
(** * Binary64: integers below [2^53] add exactly *)
(* ================================================================== *)

Section Binary64.
Local Open Scope Z_scope.

Lemma shl_spec (p : positive) (n : Z) :
  0 <= n -> Zpos (shl p n) = Zpos p * 2 ^ n.
Proof.
  intros Hn. destruct n as [|d|d]; simpl shl; [lia| |lia].
  induction d as [|d IH] using Pos.peano_ind.
  - simpl. lia.
  - rewrite Pos.iter_succ, Pos2Z.inj_succ, Z.pow_succ_r by lia.
    rewrite Pos2Z.inj_xO, IH by lia. lia.
Qed.

Lemma shl_shl (p : positive) (a b : Z) :
  0 <= a -> 0 <= b -> shl (shl p a) b = shl p (a + b).
Proof.
  intros Ha Hb. apply Pos2Z.inj.
  rewrite !shl_spec, Z.pow_add_r by lia. lia.
Qed.

Lemma shl_add (p q : positive) (n : Z) :
  0 <= n -> Zpos (shl p n) + Zpos (shl q n) = Zpos (shl (p + q) n).
Proof. intros Hn. rewrite !shl_spec by lia. lia. Qed.

Lemma digits_shl (p : positive) (n : Z) :
  0 <= n -> digits (shl p n) = digits p + n.
Proof.
  intros Hn. unfold digits. destruct n as [|d|d]; simpl shl; [lia| |lia].
  induction d as [|d IH] using Pos.peano_ind.
  - simpl. lia.
  - rewrite Pos.iter_succ. simpl digits2_pos. rewrite Pos2Z.inj_succ, IH by lia. lia.
Qed.

Lemma digits_lower (p : positive) : 2 ^ (digits p - 1) <= Zpos p.
Proof.
  unfold digits. induction p as [p IH|p IH|]; simpl digits2_pos.
  - rewrite Pos2Z.inj_succ. replace (Z.succ (Zpos (digits2_pos p)) - 1)
      with (Z.succ (Zpos (digits2_pos p) - 1)) by lia.
    rewrite Z.pow_succ_r by lia. lia.
  - rewrite Pos2Z.inj_succ. replace (Z.succ (Zpos (digits2_pos p)) - 1)
      with (Z.succ (Zpos (digits2_pos p) - 1)) by lia.
    rewrite Z.pow_succ_r by lia. lia.
  - simpl. lia.
Qed.

Lemma digits_le_prec (p : positive) :
  Zpos p < 2 ^ 53 -> 1 <= digits p <= 53.
Proof.
  intros H. split; [unfold digits; lia|].
  destruct (Z_le_gt_dec (digits p) 53) as [Hle|Hgt]; [exact Hle|exfalso].
  pose proof (digits_lower p) as Hl.
  assert (2 ^ 53 <= 2 ^ (digits p - 1)) by (apply Z.pow_le_mono_r; lia).
  lia.
Qed.

Ltac stdZ :=
  change IntDef.Z.add with Z.add in *;
  change IntDef.Z.sub with Z.sub in *;
  change IntDef.Z.opp with Z.opp in *;
  change IntDef.Z.max with Z.max in *;
  change IntDef.Z.min with Z.min in *;
  change IntDef.Z.leb with Z.leb in *.

Lemma fexp64 (e : Z) :
  fexp JsNumber.prec JsNumber.emax e = Z.max (e - 53) (-1074).
Proof. reflexivity. Qed.

Lemma iter_pos_iter {A} (f : A -> A) (n : positive) (x : A) :
  iter_pos f n x = Pos.iter f x n.
Proof.
  revert x. induction n as [n IH|n IH|]; intros x; simpl.
  - rewrite !IH. rewrite <- !Pos.iter_swap. reflexivity.
  - rewrite !IH. reflexivity.
  - reflexivity.
Qed.

Lemma shr_exact (n p : positive) :
  iter_pos shr_1 n (exactRecord (Pos.iter xO p n)) = exactRecord p.
Proof.
  rewrite iter_pos_iter.
  induction n as [|n IH] using Pos.peano_ind.
  - reflexivity.
  - rewrite Pos.iter_succ_r, Pos.iter_succ. simpl. exact IH.
Qed.

Lemma round_aux_exact (p : positive) (t : Z) :
  digits p <= 53 -> 0 <= t -> 53 - digits p <= t ->
  binary_round_aux JsNumber.prec JsNumber.emax false (Zpos (shl p t)) (- t) loc_Exact
  = S754_finite false (shl p (53 - digits p)) (digits p - 53).
Proof.
  intros Hd Ht Hlow.
  assert (Hd1 : 1 <= digits p) by (unfold digits; lia).
  set (q := shl p (53 - digits p)).
  assert (Hq : shl p t = shl q (t - (53 - digits p))).
  { unfold q. rewrite shl_shl by lia. f_equal. lia. }
  assert (Hdq : digits q = 53).
  { unfold q. rewrite digits_shl by lia. lia. }
  unfold binary_round_aux.
  assert (H1 : shr_fexp JsNumber.prec JsNumber.emax (Zpos (shl p t)) (- t) loc_Exact
               = (exactRecord q, digits p - 53)).
  { unfold shr_fexp. simpl Zdigits2. fold (digits (shl p t)).
    rewrite digits_shl, fexp64 by lia. stdZ.
    replace (Z.max (digits p + t + - t - 53) (-1074) - - t)
      with (t - (53 - digits p)) by lia.
    rewrite Hq. remember (t - (53 - digits p)) as n eqn:En.
    destruct n as [|k|k]; [| |lia].
    - unfold shr, shl, shr_record_of_loc, exactRecord. f_equal. lia.
    - unfold shr, shl.
      change (shr_record_of_loc (Zpos (Pos.iter xO q k)) loc_Exact)
        with (exactRecord (Pos.iter xO q k)).
      rewrite shr_exact. f_equal. lia. }
  rewrite H1. unfold exactRecord at 1 2. cbn [shr_m loc_of_shr_record round_nearest_even].
  assert (H2 : shr_fexp JsNumber.prec JsNumber.emax (Zpos q) (digits p - 53) loc_Exact
               = (exactRecord q, digits p - 53)).
  { unfold shr_fexp. simpl Zdigits2. fold (digits q). rewrite Hdq.
    rewrite fexp64. stdZ.
    replace (Z.max (53 + (digits p - 53) - 53) (-1074) - (digits p - 53))
      with 0 by lia.
    reflexivity. }
  rewrite H2. simpl shr_m.
  unfold JsNumber.prec, JsNumber.emax. stdZ.
  destruct (Z.leb_spec (digits p - 53) (1024 - 53)); [reflexivity|lia].
Qed.

Lemma binary_round_exact (p : positive) (j : Z) :
  digits p <= 53 -> 0 <= j ->
  binary_round JsNumber.prec JsNumber.emax false (shl p j) (- j)
  = S754_finite false (shl p (53 - digits p)) (digits p - 53).
Proof.
  intros Hd Hj.
  assert (Hd1 : 1 <= digits p) by (unfold digits; lia).
  unfold binary_round. fold (digits (shl p j)). rewrite digits_shl by lia.
  rewrite fexp64. unfold shl_align. stdZ.
  replace (Z.max (digits p + j + - j - 53) (-1074) - - j)
    with (digits p - 53 + j) by lia.
  replace (Z.max (digits p + j + - j - 53) (-1074))
    with (digits p - 53) by lia.
  destruct (digits p - 53 + j) as [|k|k] eqn:Ek.
  - apply round_aux_exact; lia.
  - apply round_aux_exact; lia.
  - replace (Pos.iter xO (shl p j) k) with (shl p (53 - digits p)).
    + replace (digits p - 53) with (- (53 - digits p)) at 1 by lia.
      apply round_aux_exact; lia.
    + replace (53 - digits p) with (j + Zpos k) by lia.
      rewrite <- shl_shl by lia. reflexivity.
Qed.

Lemma ofZ_pos (p : positive) :
  Zpos p < 2 ^ 53 ->
  JsNumber.ofZ (Zpos p) = S754_finite false (shl p (53 - digits p)) (digits p - 53).
Proof.
  intros H. apply digits_le_prec in H.
  unfold JsNumber.ofZ. simpl binary_normalize.
  apply (binary_round_exact p 0); lia.
Qed.

Lemma shl_align_fst (m : positive) (e e' : Z) :
  e' <= e -> fst (shl_align m e e') = shl m (e - e').
Proof.
  intros H. unfold shl_align. stdZ.
  destruct (e' - e) as [|k|k] eqn:Ek; simpl.
  - replace (e - e') with 0 by lia. reflexivity.
  - lia.
  - replace (e - e') with (Zpos k) by lia. reflexivity.
Qed.

Lemma add_ofZ (a b : Z) :
  0 <= a -> 0 <= b -> a + b < 2 ^ 53 ->
  JsNumber.add (JsNumber.ofZ a) (JsNumber.ofZ b) = JsNumber.ofZ (a + b).
Proof.
  intros Ha Hb Hab.
  destruct a as [|a|a]; [|destruct b as [|b|b]|]; try lia.
  - destruct b as [|b|b]; [reflexivity| |lia].
    rewrite Z.add_0_l, ofZ_pos by lia. reflexivity.
  - rewrite Z.add_0_r. rewrite ofZ_pos by lia. reflexivity.
  - assert (Hda : 1 <= digits a <= 53) by (apply digits_le_prec; lia).
    assert (Hdb : 1 <= digits b <= 53) by (apply digits_le_prec; lia).
    assert (Hds : 1 <= digits (a + b) <= 53) by (apply digits_le_prec; lia).
    rewrite (ofZ_pos a), (ofZ_pos b) by lia.
    replace (Zpos a + Zpos b) with (Zpos (a + b)) by lia.
    rewrite (ofZ_pos (a + b)) by lia.
    unfold JsNumber.add, SFadd. cbv zeta.
    stdZ.
    set (ez := Z.min (digits a - 53) (digits b - 53)).
    rewrite !shl_align_fst by (unfold ez; lia).
    rewrite !shl_shl by (unfold ez; lia).
    replace (53 - digits a + (digits a - 53 - ez)) with (- ez) by lia.
    replace (53 - digits b + (digits b - 53 - ez)) with (- ez) by lia.
    unfold cond_Zopp. rewrite shl_add by (unfold ez; lia).
    unfold binary_normalize.
    replace ez with (- - ez) at 2 by lia.
    apply binary_round_exact; unfold ez; lia.
Qed.

Lemma ofZ_truthy (n : Z) :
  0 <= n < 2 ^ 53 -> JsNumber.orElse (JsNumber.ofZ n) JsNumber.zero = JsNumber.ofZ n.
Proof.
  intros [H0 H1]. destruct n as [|p|p]; [reflexivity| |lia].
  rewrite ofZ_pos by lia. reflexivity.
Qed.

Lemma sumNumbers_ofZ_from (zs : list Z) (s : Z) :
  0 <= s -> Forall (fun z => 0 <= z) zs -> s + sumZ zs < 2 ^ 53 ->
  fold_left JsNumber.add (map JsNumber.ofZ zs) (JsNumber.ofZ s)
  = JsNumber.ofZ (s + sumZ zs).
Proof.
  revert s. induction zs as [|z zs IH]; intros s Hs Hall Hlt; simpl in *.
  - f_equal. lia.
  - inversion Hall as [|? ? Hz Hzs]; subst.
    assert (Hnn : 0 <= sumZ zs).
    { clear -Hzs. induction Hzs; simpl; lia. }
    rewrite add_ofZ by lia. rewrite IH by (auto; lia). f_equal. lia.
Qed.

End Binary64.

(* ================================================================== *)
(** * Aggregator: what is accumulated under each key *)
(* ================================================================== *)

Lemma getOwn_setOwn (o : JsObject.object) (k k' : string) (v : scalar) :
  JsObject.getOwn (JsObject.setOwn o k v) k'
  = if String.eqb k' k then Some v else JsObject.getOwn o k'.
Proof.
  induction o as [|[k0 v0] o IH]; simpl.
  - rewrite (String.eqb_sym k k'). reflexivity.
  - destruct (String.eqb_spec k0 k) as [->|Hne]; simpl.
    + rewrite (String.eqb_sym k k'). destruct (String.eqb k' k); reflexivity.
    + rewrite IH. destruct (String.eqb_spec k0 k') as [->|Hne'].
      * destruct (String.eqb_spec k' k); [congruence|reflexivity].
      * reflexivity.
Qed.

Lemma get_set_same (o : JsObject.object) (k : string) (v : scalar) :
  k <> "__proto__" -> JsObject.get (JsObject.set o k v) k = VScalar v.
Proof.
  intros Hk. unfold JsObject.get, JsObject.set.
  apply String.eqb_neq in Hk. rewrite Hk, getOwn_setOwn, String.eqb_refl.
  reflexivity.
Qed.

Lemma get_set_other (o : JsObject.object) (k k' : string) (v : scalar) :
  k' <> k -> JsObject.get (JsObject.set o k v) k' = JsObject.get o k'.
Proof.
  intros Hk. unfold JsObject.get, JsObject.set.
  destruct (String.eqb k "__proto__"); [reflexivity|].
  rewrite getOwn_setOwn. apply String.eqb_neq in Hk. rewrite Hk. reflexivity.
Qed.

(** Under every key but [__proto__], the value is the accumulation, in
    input order, of the contributions of the records filed under it. *)
Lemma aggregate_from_get (keyFn : Project -> string)
    (valueFn : option (Project -> JsNumber.number))
    (key : string) (rows : list Project) (acc : JsObject.object) :
  key <> "__proto__" ->
  JsObject.get (fold_left (aggregateStep keyFn valueFn) rows acc) key
  = fold_left (accumulate valueFn) (groupOf keyFn key rows) (JsObject.get acc key).
Proof.
  intros Hkey. revert acc. induction rows as [|r rows IH]; intros acc; simpl.
  - reflexivity.
  - rewrite IH, aggregateStep_eq.
    destruct (String.eqb_spec (groupKey keyFn r) key) as [E|Hne]; simpl.
    + rewrite E, get_set_same by exact Hkey. reflexivity.
    + rewrite get_set_other by congruence. reflexivity.
Qed.

(** Assignment never changes what [__proto__] reads as. *)
Lemma aggregate_from_get_proto (keyFn : Project -> string)
    (valueFn : option (Project -> JsNumber.number))
    (rows : list Project) (acc : JsObject.object) :
  JsObject.get (fold_left (aggregateStep keyFn valueFn) rows acc) "__proto__"
  = JsObject.get acc "__proto__".
Proof.
  revert acc. induction rows as [|r rows IH]; intros acc; simpl; [reflexivity|].
  rewrite IH, aggregateStep_eq.
  destruct (String.eqb_spec (groupKey keyFn r) "__proto__") as [E|Hne].
  - rewrite E. reflexivity.
  - apply get_set_other. congruence.
Qed.

Lemma groupOf_app (keyFn : Project -> string) (key : string)
    (rows1 rows2 : list Project) :
  groupOf keyFn key (rows1 ++ rows2)
  = groupOf keyFn key rows1 ++ groupOf keyFn key rows2.
Proof. apply filter_app. Qed.

(** No record is filed under the empty string. *)
Lemma groupOf_empty_key (keyFn : Project -> string) (rows : list Project) :
  groupOf keyFn "" rows = [].
Proof.
  induction rows as [|r rows IH]; simpl; [reflexivity|].
  destruct (String.eqb_spec (groupKey keyFn r) "") as [E|_]; [|exact IH].
  destruct (groupKey_nonempty keyFn r E).
Qed.

(** The records filed under ["Unknown"] are those whose key function
    yields the empty string or ["Unknown"]. *)
Lemma groupOf_Unknown (keyFn : Project -> string) (rows : list Project) :
  groupOf keyFn "Unknown" rows = unknownGroup keyFn rows.
Proof.
  unfold groupOf, unknownGroup. apply filter_ext. intros r.
  unfold groupKey, orElse. destruct (keyFn r); reflexivity.
Qed.

(** C5. Whatever the key function, the value function and the records:
    no aggregation result has the empty string as a key, and reading it
    gives [undefined]; the value under ["Unknown"] is the accumulation,
    in input order, of the contributions of exactly the records whose
    key function yields the empty string or ["Unknown"]; and a record
    whose key function yields the empty string makes ["Unknown"] a key,
    is added to the value found under ["Unknown"] when its turn comes,
    and leaves the value under every other key as it would be without
    that record. *)
Theorem aggregateBy_empty_key_is_Unknown :
  forall (keyFn : Project -> string)
         (valueFn : option (Project -> JsNumber.number))
         (rows : list Project),
    ~ In "" (JsObject.keys (aggregateBy rows keyFn valueFn))
    /\ JsObject.get (aggregateBy rows keyFn valueFn) "" = VUndefined
    /\ JsObject.get (aggregateBy rows keyFn valueFn) "Unknown"
       = fold_left (accumulate valueFn) (unknownGroup keyFn rows) VUndefined
    /\ (forall (before after : list Project) (r : Project),
          rows = before ++ r :: after ->
          keyFn r = "" ->
          In "Unknown" (JsObject.keys (aggregateBy rows keyFn valueFn))
          /\ aggregateBy (before ++ [r]) keyFn valueFn
             = JsObject.set (aggregateBy before keyFn valueFn) "Unknown"
                 (plusNumber
                    (orZero (JsObject.get (aggregateBy before keyFn valueFn)
                                          "Unknown"))
                    (contribution valueFn r))
          /\ JsObject.get (aggregateBy (before ++ [r]) keyFn valueFn) "Unknown"
             = accumulate valueFn
                 (JsObject.get (aggregateBy before keyFn valueFn) "Unknown") r
          /\ (forall key,
                key <> "Unknown" ->
                JsObject.get (aggregateBy rows keyFn valueFn) key
                = JsObject.get (aggregateBy (before ++ after) keyFn valueFn)
                               key)).
Proof.
  intros keyFn valueFn rows.
  split; [|split; [|split]].
  - intros H. apply aggregateBy_key_In in H.
    destruct H as [_ [r' [_ E]]]. exact (groupKey_nonempty keyFn r' E).
  - unfold aggregateBy. rewrite aggregate_from_get by discriminate.
    rewrite groupOf_empty_key. reflexivity.
  - unfold aggregateBy. rewrite aggregate_from_get by discriminate.
    rewrite groupOf_Unknown. reflexivity.
  - intros before after r -> Hr.
    assert (Hk : groupKey keyFn r = "Unknown").
    { unfold groupKey. rewrite Hr. reflexivity. }
    assert (Hstep : aggregateBy (before ++ [r]) keyFn valueFn
                    = JsObject.set (aggregateBy before keyFn valueFn) "Unknown"
                        (plusNumber
                           (orZero (JsObject.get (aggregateBy before keyFn valueFn)
                                                 "Unknown"))
                           (contribution valueFn r))).
    { rewrite aggregateBy_app. simpl. rewrite aggregateStep_eq, Hk. reflexivity. }
    split; [|split; [exact Hstep|split]].
    + apply aggregateBy_key_In. split; [discriminate|].
      exists r. split; [|exact Hk].
      apply in_or_app. right. left. reflexivity.
    + rewrite Hstep, get_set_same by discriminate. reflexivity.
    + intros key Hkey.
      destruct (String.eqb_spec key "__proto__") as [->|Hp].
      * unfold aggregateBy. rewrite !aggregate_from_get_proto. reflexivity.
      * unfold aggregateBy. rewrite !aggregate_from_get by exact Hp.
        rewrite !groupOf_app. simpl.
        rewrite Hk. destruct (String.eqb_spec "Unknown" key) as [E|_];
          [congruence|reflexivity].
Qed.

(** The statement at an AI record followed by two records with no
    domain: the two are counted under ["Unknown"]. *)
Lemma aggregateBy_empty_key_is_Unknown_witness :
  let rows := [sampleProject "AI" "" JsNumber.one;
               sampleProject "" "" JsNumber.one;
               sampleProject "" "" JsNumber.one] in
  JsObject.get (aggregateBy rows Domain None) "Unknown"
  = VScalar (SNumber (JsNumber.ofZ 2))
  /\ In "Unknown" (JsObject.keys (aggregateBy rows Domain None))
  /\ ~ In "" (JsObject.keys (aggregateBy rows Domain None)).
Proof.
  intros rows.
  destruct (aggregateBy_empty_key_is_Unknown Domain None rows)
    as [Hno [_ [Hval Hrec]]].
  split; [|split].
  - rewrite Hval. vm_compute. reflexivity.
  - apply (Hrec [sampleProject "AI" "" JsNumber.one]
                [sampleProject "" "" JsNumber.one]
                (sampleProject "" "" JsNumber.one)); reflexivity.
  - exact Hno.
Defined.

Lemma sameUpToUnknown_orElse (k k' : string) :
  sameUpToUnknown k k' <-> orElse k "Unknown" = orElse k' "Unknown".
Proof.
  unfold sameUpToUnknown, orElse. split.
  - intros [->|[[-> ->]|[-> ->]]]; reflexivity.
  - destruct k as [|c k], k' as [|c' k']; simpl; intros E; auto.
Qed.

(** C10. Aggregation cannot tell an empty grouping value from the
    string ["Unknown"]. For every key function and value function: a
    record whose key is empty and one whose key is ["Unknown"] are both
    filed under the single key ["Unknown"]; two record lists whose
    records correspond one to one, with keys that differ at most by an
    empty one being spelled ["Unknown"] (in either direction) and with
    equal contributions, give the same aggregation result; so does a
    replacement applied to the records of a list. The same holds of the
    status breakdown of the summary, which reads the status only, and
    of the three charts, which read the domain, the status and the
    amount only. *)
Theorem aggregateBy_Unknown_indistinguishable :
  forall (rows rows' : list Project),
    (forall (keyFn : Project -> string)
            (valueFn : option (Project -> JsNumber.number)) (r : Project),
        keyFn r = "" \/ keyFn r = "Unknown" ->
        JsObject.keys (aggregateBy [r] keyFn valueFn) = ["Unknown"])
    /\ (forall (keyFn keyFn' : Project -> string)
               (valueFn valueFn' : option (Project -> JsNumber.number)),
          Forall2 (fun r r' =>
                     sameUpToUnknown (keyFn r) (keyFn' r')
                     /\ contribution valueFn r = contribution valueFn' r')
                  rows rows' ->
          aggregateBy rows keyFn valueFn = aggregateBy rows' keyFn' valueFn')
    /\ (forall (keyFn : Project -> string)
               (valueFn : option (Project -> JsNumber.number))
               (replace : Project -> Project),
          (forall r, In r rows ->
                     sameUpToUnknown (keyFn r) (keyFn (replace r))
                     /\ contribution valueFn (replace r) = contribution valueFn r) ->
          aggregateBy (map replace rows) keyFn valueFn
          = aggregateBy rows keyFn valueFn)
    /\ (Forall2 (fun r r' => sameUpToUnknown (Status r) (Status r')) rows rows' ->
        statusCounts rows = statusCounts rows'
        /\ statusBreakdown rows = statusBreakdown rows')
    /\ (Forall2 (fun r r' =>
                   sameUpToUnknown (Domain r) (Domain r')
                   /\ sameUpToUnknown (Status r) (Status r')
                   /\ amountValue r = amountValue r')
                rows rows' ->
        forall st st',
          charts (renderCharts rows st) = charts (renderCharts rows' st')).
Proof.
  intros rows rows'.
  assert (HD : forall keyFn keyFn' valueFn valueFn' l l',
             Forall2 (fun r r' =>
                        sameUpToUnknown (keyFn r) (keyFn' r')
                        /\ contribution valueFn r = contribution valueFn' r')
                     l l' ->
             aggregateBy l keyFn valueFn = aggregateBy l' keyFn' valueFn').
  { intros keyFn keyFn' valueFn valueFn' l l' H. apply aggregateBy_ext.
    eapply Forall2_impl; [|exact H]. intros r r' [Hk Hv].
    split; [|exact Hv]. unfold groupKey. apply sameUpToUnknown_orElse, Hk. }
  assert (Hwrap : forall k k', sameUpToUnknown k k' ->
                               sameUpToUnknown (orElse k "Unknown")
                                               (orElse k' "Unknown")).
  { intros k k' H. left. apply sameUpToUnknown_orElse, H. }
  split; [|split; [|split; [|split]]].
  - intros keyFn valueFn r Hr.
    assert (Hk : groupKey keyFn r = "Unknown").
    { unfold groupKey. destruct Hr as [->| ->]; reflexivity. }
    unfold aggregateBy. simpl. rewrite aggregateStep_eq, Hk. reflexivity.
  - intros keyFn keyFn' valueFn valueFn' H. apply HD, H.
  - intros keyFn valueFn replace H. apply HD.
    induction rows as [|r l IH]; simpl; constructor.
    + destruct (H r (or_introl eq_refl)) as [Hk Hv]. split; [|exact Hv].
      apply sameUpToUnknown_orElse. symmetry.
      apply sameUpToUnknown_orElse, Hk.
    + apply IH. intros x Hx. apply H. right. exact Hx.
  - intros H.
    assert (E : statusCounts rows = statusCounts rows').
    { rewrite !statusCounts_aggregateBy. apply HD.
      eapply Forall2_impl; [|exact H]. intros r r' Hs. split; [exact Hs|reflexivity]. }
    split; [exact E|]. unfold statusBreakdown. rewrite E. reflexivity.
  - intros H st st'. unfold renderCharts. simpl.
    rewrite (HD domainKey domainKey None None rows rows').
    + rewrite (HD statusKey statusKey None None rows rows').
      * rewrite (HD domainKey domainKey (Some amountValue) (Some amountValue)
                    rows rows').
        -- reflexivity.
        -- eapply Forall2_impl; [|exact H]. intros r r' [Hd [_ Ha]].
           split; [apply Hwrap, Hd|exact Ha].
      * eapply Forall2_impl; [|exact H]. intros r r' [_ [Hs _]].
        split; [apply Hwrap, Hs|reflexivity].
    + eapply Forall2_impl; [|exact H]. intros r r' [Hd _].
      split; [apply Hwrap, Hd|reflexivity].
Qed.

(** The statement at one record grouped by faculty name, the name empty
    or spelled out. *)
Lemma aggregateBy_Unknown_indistinguishable_witness :
  let r := {| Domain := "AI"; ProjectType := ""; Title := "";
              FundingAgency := ""; Amount := JsNumber.one;
              Status := "Ongoing"; FacultyName := "" |} in
  let r' := {| Domain := "AI"; ProjectType := ""; Title := "";
               FundingAgency := ""; Amount := JsNumber.one;
               Status := "Ongoing"; FacultyName := "Unknown" |} in
  aggregateBy [r] FacultyName None = aggregateBy [r'] FacultyName None
  /\ JsObject.keys (aggregateBy [r] FacultyName None) = ["Unknown"].
Proof.
  intros r r'.
  destruct (aggregateBy_Unknown_indistinguishable [r] [r'])
    as [Hkey [Hsame _]].
  split.
  - apply Hsame. constructor; [|constructor].
    split; [right; left; split; reflexivity|reflexivity].
  - apply Hkey. left. reflexivity.
Defined.

Lemma ofCounts_names (f : list (string * Z)) : map fst (ofCounts f) = map fst f.
Proof. unfold ofCounts. rewrite map_map. reflexivity. Qed.

Lemma get_ofCounts (f : list (string * Z)) (k : string) :
  JsObject.isInherited k = false ->
  orZero (JsObject.get (ofCounts f) k) = orZero (VScalar (SNumber (JsNumber.ofZ (countOf f k)))).
Proof.
  intros Hk. unfold JsObject.isInherited in Hk.
  apply orb_false_iff in Hk. destruct Hk as [Hp Hm].
  unfold JsObject.get.
  induction f as [|[k' c] f IH]; simpl.
  - rewrite Hp, Hm.
    destruct (String.eqb_spec k "constructor") as [->|_]; [discriminate|reflexivity].
  - destruct (String.eqb k' k); [reflexivity|exact IH].
Qed.

Lemma setOwn_ofCounts (f : list (string * Z)) (k : string) (c : Z) :
  JsObject.setOwn (ofCounts f) k (SNumber (JsNumber.ofZ c)) = ofCounts (setCount f k c).
Proof.
  induction f as [|[k' c'] f IH]; simpl; [reflexivity|].
  destruct (String.eqb k' k); simpl; [reflexivity|]. rewrite IH. reflexivity.
Qed.

Lemma countOf_bounds (f : list (string * Z)) (k : string) :
  Forall (fun z => 0 <= z)%Z (map snd f) ->
  (0 <= countOf f k <= sumZ (map snd f))%Z.
Proof.
  induction f as [|[k' c] f IH]; simpl; intros H; [lia|].
  inversion H as [|? ? Hc Hf]; subst. specialize (IH Hf).
  destruct (String.eqb k' k); lia.
Qed.

Lemma setCount_sum (f : list (string * Z)) (k : string) (w : Z) :
  sumZ (map snd (setCount f k (countOf f k + w))) = (sumZ (map snd f) + w)%Z.
Proof.
  induction f as [|[k' c] f IH]; simpl; [lia|].
  destruct (String.eqb k' k); simpl; lia.
Qed.

Lemma setCount_nonneg (f : list (string * Z)) (k : string) (c : Z) :
  (0 <= c)%Z -> Forall (fun z => 0 <= z)%Z (map snd f) ->
  Forall (fun z => 0 <= z)%Z (map snd (setCount f k c)).
Proof.
  intros Hc. induction f as [|[k' c'] f IH]; simpl; intros H.
  - repeat constructor. exact Hc.
  - inversion H; subst. destruct (String.eqb k' k); simpl; constructor; auto.
Qed.

(** One accumulation step on integer counts is exact. *)
Lemma aggregateStep_ofCounts (keyFn : Project -> string)
    (valueFn : option (Project -> JsNumber.number))
    (f : list (string * Z)) (r : Project) (w : Z) :
  JsObject.isInherited (groupKey keyFn r) = false ->
  contribution valueFn r = JsNumber.ofZ w ->
  (0 <= w)%Z ->
  Forall (fun z => 0 <= z)%Z (map snd f) ->
  (sumZ (map snd f) + w < 2 ^ 53)%Z ->
  aggregateStep keyFn valueFn (ofCounts f) r
  = ofCounts (setCount f (groupKey keyFn r)
                       (countOf f (groupKey keyFn r) + w)).
Proof.
  intros Hk Hv Hw Hf Hlt.
  pose proof (countOf_bounds f (groupKey keyFn r) Hf) as Hc.
  rewrite aggregateStep_eq, get_ofCounts, Hv by exact Hk.
  unfold orZero. simpl truthyValue.
  replace (if JsNumber.truthy (JsNumber.ofZ (countOf f (groupKey keyFn r)))
           then VScalar (SNumber (JsNumber.ofZ (countOf f (groupKey keyFn r))))
           else VScalar (SNumber JsNumber.zero))
    with (VScalar (SNumber (JsNumber.ofZ (countOf f (groupKey keyFn r))))).
  - simpl plusNumber. rewrite add_ofZ by lia.
    unfold JsObject.set. unfold JsObject.isInherited in Hk.
    apply orb_false_iff in Hk. destruct Hk as [-> _].
    apply setOwn_ofCounts.
  - pose proof (ofZ_truthy (countOf f (groupKey keyFn r))) as Ht.
    unfold JsNumber.orElse in Ht.
    destruct (JsNumber.truthy (JsNumber.ofZ (countOf f (groupKey keyFn r))));
      [reflexivity|].
    rewrite Ht by lia. reflexivity.
Qed.

Lemma sumZ_nonneg (zs : list Z) :
  Forall (fun z => 0 <= z)%Z zs -> (0 <= sumZ zs)%Z.
Proof. induction 1; simpl; lia. Qed.

Lemma aggregate_from_ofCounts (keyFn : Project -> string)
    (valueFn : option (Project -> JsNumber.number)) (w : Project -> Z)
    (rows : list Project) :
  (forall r, In r rows ->
             JsObject.isInherited (groupKey keyFn r) = false
             /\ (0 <= w r)%Z /\ contribution valueFn r = JsNumber.ofZ (w r)) ->
  forall f,
    Forall (fun z => 0 <= z)%Z (map snd f) ->
    (sumZ (map snd f) + sumZ (map w rows) < 2 ^ 53)%Z ->
    exists f',
      fold_left (aggregateStep keyFn valueFn) rows (ofCounts f) = ofCounts f'
      /\ Forall (fun z => 0 <= z)%Z (map snd f')
      /\ sumZ (map snd f') = (sumZ (map snd f) + sumZ (map w rows))%Z.
Proof.
  induction rows as [|r rows IH]; intros Hrows f Hf Hlt; simpl in *.
  - exists f. repeat split; [exact Hf | lia].
  - destruct (Hrows r (or_introl eq_refl)) as [Hk [Hw Hv]].
    assert (Hrest : (0 <= sumZ (map w rows))%Z).
    { apply sumZ_nonneg, Forall_forall. intros z Hz.
      apply in_map_iff in Hz. destruct Hz as [r' [<- Hr']].
      apply (Hrows r' (or_intror Hr')). }
    pose proof (countOf_bounds f (groupKey keyFn r) Hf) as Hc.
    rewrite (aggregateStep_ofCounts keyFn valueFn f r (w r)) by (auto; lia).
    destruct (IH (fun r' Hr' => Hrows r' (or_intror Hr'))
                 (setCount f (groupKey keyFn r) (countOf f (groupKey keyFn r) + w r)))
      as [f' [E [Hnn Hsum]]].
    + apply setCount_nonneg; [lia|exact Hf].
    + rewrite setCount_sum. lia.
    + exists f'. split; [exact E|]. split; [exact Hnn|].
      rewrite Hsum, setCount_sum. lia.
Qed.

Lemma sumZ_Permutation (g : string -> Z) (l l' : list string) :
  Permutation l l' -> sumZ (map g l) = sumZ (map g l').
Proof. induction 1; simpl; lia. Qed.

Lemma countOf_absent (f : list (string * Z)) (k : string) :
  ~ In k (map fst f) -> countOf f k = 0%Z.
Proof.
  induction f as [|[k' c] f IH]; simpl; intros H; [reflexivity|].
  destruct (String.eqb_spec k' k) as [->|Hne]; [tauto|].
  apply IH. tauto.
Qed.

Lemma sumZ_countOf (f : list (string * Z)) :
  NoDup (map fst f) -> sumZ (map (countOf f) (map fst f)) = sumZ (map snd f).
Proof.
  induction f as [|[k c] f IH]; simpl; intros H; [reflexivity|].
  inversion H as [|? ? Hk Hf]; subst.
  rewrite String.eqb_refl. f_equal. rewrite <- (IH Hf).
  f_equal. apply map_ext_in. intros k' Hk'.
  destruct (String.eqb_spec k k') as [->|_]; [contradiction|reflexivity].
Qed.

Lemma toNumber_get_ofCounts (f : list (string * Z)) (k : string) :
  In k (map fst f) ->
  toNumber (JsObject.get (ofCounts f) k) = JsNumber.ofZ (countOf f k).
Proof.
  unfold JsObject.get.
  induction f as [|[k' c] f IH]; simpl; intros H; [contradiction|].
  destruct (String.eqb_spec k' k) as [->|Hne]; [reflexivity|].
  apply IH. destruct H; [contradiction|assumption].
Qed.

(** The values of an accumulator of integer counts sum exactly. *)
Lemma sumValues_ofCounts (f : list (string * Z)) :
  NoDup (map fst f) ->
  Forall (fun z => 0 <= z)%Z (map snd f) ->
  (sumZ (map snd f) < 2 ^ 53)%Z ->
  sumValues (ofCounts f) = JsNumber.ofZ (sumZ (map snd f)).
Proof.
  intros Hnd Hnn Hlt.
  pose proof (ownKeys_Permutation (ofCounts f)) as Hperm.
  rewrite ofCounts_names in Hperm.
  unfold sumValues, JsObject.values, sumNumbers. rewrite map_map.
  rewrite (map_ext_in _ (fun k => JsNumber.ofZ (countOf f k))).
  - rewrite <- (map_map (countOf f) JsNumber.ofZ).
    assert (Hs : sumZ (map (countOf f) (JsObject.ownKeys (ofCounts f)))
                 = sumZ (map snd f)).
    { rewrite (sumZ_Permutation _ _ _ Hperm). apply sumZ_countOf, Hnd. }
    change JsNumber.zero with (JsNumber.ofZ 0).
    rewrite sumNumbers_ofZ_from; rewrite ?Hs; try lia.
    + f_equal.
    + apply Forall_forall. intros z Hz. apply in_map_iff in Hz.
      destruct Hz as [k [<- _]]. apply countOf_bounds, Hnn.
  - intros k Hk. apply toNumber_get_ofCounts.
    eapply Permutation_in; eassumption.
Qed.

Lemma sumNumbers_contributions (valueFn : option (Project -> JsNumber.number))
    (w : Project -> Z) (rows : list Project) :
  (forall r, In r rows ->
             (0 <= w r)%Z /\ contribution valueFn r = JsNumber.ofZ (w r)) ->
  (sumZ (map w rows) < 2 ^ 53)%Z ->
  sumNumbers (map (contribution valueFn) rows) = JsNumber.ofZ (sumZ (map w rows)).
Proof.
  intros Hrows Hlt. unfold sumNumbers.
  rewrite (map_ext_in _ (fun r => JsNumber.ofZ (w r)))
    by (intros r Hr; apply (Hrows r Hr)).
  rewrite <- (map_map w JsNumber.ofZ).
  change JsNumber.zero with (JsNumber.ofZ 0).
  rewrite sumNumbers_ofZ_from; try lia; [reflexivity|].
  apply Forall_forall. intros z Hz. apply in_map_iff in Hz.
  destruct Hz as [r [<- Hr]]. apply (Hrows r Hr).
Qed.

Lemma sumValues_aggregateBy_integers (keyFn : Project -> string)
    (valueFn : option (Project -> JsNumber.number)) (w : Project -> Z)
    (rows : list Project) :
  (forall r, In r rows -> JsObject.isInherited (groupKey keyFn r) = false) ->
  (forall r, In r rows ->
             (0 <= w r)%Z /\ contribution valueFn r = JsNumber.ofZ (w r)) ->
  (sumZ (map w rows) < 2 ^ 53)%Z ->
  sumValues (aggregateBy rows keyFn valueFn) = JsNumber.ofZ (sumZ (map w rows)).
Proof.
  intros Hkeys Hrows Hlt.
  destruct (aggregate_from_ofCounts keyFn valueFn w rows) with (f := @nil (string * Z))
    as [f' [E [Hnn Hsum]]].
  - intros r Hr. split; [apply Hkeys, Hr | apply Hrows, Hr].
  - constructor.
  - simpl. lia.
  - change (ofCounts []) with JsObject.empty in E.
    fold (aggregateBy rows keyFn valueFn) in E.
    assert (Hsum' : sumZ (map snd f') = sumZ (map w rows)).
    { rewrite Hsum. change (sumZ (map snd [])) with 0%Z. lia. }
    rewrite E, <- Hsum'.
    apply sumValues_ofCounts; [| exact Hnn | lia].
    rewrite <- ofCounts_names, <- E, aggregateBy_own_names.
    apply firstOccurrences_NoDup.
Qed.

Lemma sumZ_ones {A} (l : list A) :
  sumZ (map (fun _ => 1%Z) l) = Z.of_nat (List.length l).
Proof.
  induction l as [|x l IH]; [reflexivity|].
  change (sumZ (map (fun _ => 1%Z) (x :: l)))
    with (1 + sumZ (map (fun _ : A => 1%Z) l))%Z.
  rewrite IH. simpl List.length. lia.
Qed.

(** C3, as stated, fails: with the amounts [1.1], [2.2] and [3.3] for
    the domains AI, Bio and AI, the values of the funding aggregation sum
    to [6.6000000000000005] while the amounts sum to [6.6]. *)
Lemma aggregateBy_additivity_counterexample :
  let rows := [sampleProject "AI" "" (JsNumber.parseFloat "1.1");
               sampleProject "Bio" "" (JsNumber.parseFloat "2.2");
               sampleProject "AI" "" (JsNumber.parseFloat "3.3")] in
  JsNumber.toString (sumValues (aggregateBy rows Domain (Some Amount)))
  = "6.6000000000000005"
  /\ JsNumber.toString (sumNumbers (map Amount rows)) = "6.6"
  /\ sumValues (aggregateBy rows Domain (Some Amount))
     <> sumNumbers (map Amount rows)
  /\ JsNumber.strictEq (sumValues (aggregateBy rows Domain (Some Amount)))
                       (sumNumbers (map Amount rows)) = false.
Proof.
  cbv zeta. split; [vm_compute; reflexivity|].
  split; [vm_compute; reflexivity|].
  split; [vm_compute; discriminate|vm_compute; reflexivity].
Qed.

(** C3, amended. For record lists none of whose keys is a name
    inherited from [Object.prototype]: the value under each key is the
    accumulation [(x || 0) + v(r)], in input order and in binary64
    arithmetic, of the contributions of the records filed under that
    key; when the contributions are non-negative integers whose total
    is below [2^53], the sum of all values equals the sum of the
    contributions over all records; and when no value function is
    supplied, the sum of all values equals the number of records. *)
Theorem aggregateBy_additive :
  forall (rows : list Project) (keyFn : Project -> string),
    (forall r, In r rows -> JsObject.isInherited (groupKey keyFn r) = false) ->
    (forall valueFn key,
        key <> "__proto__" ->
        JsObject.get (aggregateBy rows keyFn valueFn) key
        = fold_left (accumulate valueFn) (groupOf keyFn key rows)
                    (JsObject.get JsObject.empty key))
    /\ (forall valueFn (w : Project -> Z),
          (forall r, In r rows ->
                     (0 <= w r)%Z /\ contribution valueFn r = JsNumber.ofZ (w r)) ->
          (sumZ (map w rows) < 2 ^ 53)%Z ->
          sumValues (aggregateBy rows keyFn valueFn)
          = sumNumbers (map (contribution valueFn) rows))
    /\ ((Z.of_nat (List.length rows) < 2 ^ 53)%Z ->
        sumValues (aggregateBy rows keyFn None) = lengthNumber rows).
Proof.
  intros rows keyFn Hkeys. split; [|split].
  - intros valueFn key Hkey. unfold aggregateBy.
    apply aggregate_from_get, Hkey.
  - intros valueFn w Hw Hlt.
    rewrite (sumValues_aggregateBy_integers keyFn valueFn w rows); auto.
    symmetry. apply sumNumbers_contributions; assumption.
  - intros Hlen.
    rewrite (sumValues_aggregateBy_integers keyFn None (fun _ => 1%Z) rows).
    + rewrite sumZ_ones. reflexivity.
    + exact Hkeys.
    + intros r _. split; [lia|reflexivity].
    + rewrite sumZ_ones. exact Hlen.
Qed.

(** The statement at the domains Bio, AI, Bio: three records counted. *)
Lemma aggregateBy_additive_witness :
  sumValues
    (aggregateBy [sampleProject "Bio" "" JsNumber.one;
                  sampleProject "AI" "" JsNumber.one;
                  sampleProject "Bio" "" JsNumber.one] Domain None)
  = JsNumber.ofZ 3.
Proof.
  apply (aggregateBy_additive
           [sampleProject "Bio" "" JsNumber.one;
            sampleProject "AI" "" JsNumber.one;
            sampleProject "Bio" "" JsNumber.one] Domain).
  - intros r Hr. simpl in Hr.
    destruct Hr as [<-|[<-|[<-|[]]]]; reflexivity.
  - simpl. lia.
Defined.

(* ================================================================== *)
(** * Filter options: [fillSelect] and [populateFilterOptions] *)
(* ================================================================== *)

Lemma findValue_In (v : string) (l : list Dom.OptionElement) :
  In v (map Dom.optValue l) ->
  exists i o, Dom.findValue v l = Some i /\ nth_error l i = Some o
              /\ Dom.optValue o = v.
Proof.
  induction l as [|o l IH]; simpl; intros H; [contradiction|].
  destruct (String.eqb_spec (Dom.optValue o) v) as [E|Hne].
  - exists O, o. auto.
  - destruct H as [H|H]; [contradiction|].
    destruct (IH H) as [i [o' [Hf [Hn Hv]]]].
    exists (S i), o'. rewrite Hf. auto.
Qed.

Lemma value_setValue (s : Dom.SelectElement) (v : string) :
  In v (Dom.optionValues s) -> Dom.value (Dom.setValue s v) = v.
Proof.
  intros H. destruct (findValue_In v (Dom.options s) H) as [i [o [Hf [Hn Hv]]]].
  unfold Dom.value, Dom.setValue. simpl. rewrite Hf, Hn. exact Hv.
Qed.

Lemma appendChild_all (l : list string) (el : Dom.SelectElement) (i : nat) :
  Dom.selectedIndex el = Some i ->
  fold_left (fun el value => Dom.appendChild el (optionFor value)) l el
  = {| Dom.options := Dom.options el ++ map optionFor l;
       Dom.selectedIndex := Some i |}.
Proof.
  revert el. induction l as [|v l IH]; intros el Hi; simpl.
  - rewrite app_nil_r. destruct el; simpl in *. congruence.
  - rewrite IH.
    + simpl. rewrite <- app_assoc. reflexivity.
    + simpl. rewrite Hi. reflexivity.
Qed.

Section Collation.

Variable localeCompare : string -> string -> Z.

Lemma sortInsert_Permutation (x : string) (l : list string) :
  Permutation (sortInsert localeCompare x l) (x :: l).
Proof.
  induction l as [|y l IH]; simpl; [reflexivity|].
  destruct (0 <? localeCompare x y)%Z; [|reflexivity].
  rewrite IH. apply perm_swap.
Qed.

Lemma sortByLocale_Permutation (l : list string) :
  Permutation (sortByLocale localeCompare l) l.
Proof.
  induction l as [|x l IH]; simpl; [reflexivity|].
  rewrite sortInsert_Permutation. constructor. exact IH.
Qed.

Lemma sortByLocale_In (l : list string) (v : string) :
  In v (sortByLocale localeCompare l) <-> In v l.
Proof.
  split; apply Permutation_in;
    [|symmetry]; apply sortByLocale_Permutation.
Qed.

(** The filled drop-down: ["All"] first, then the sorted values. *)
Lemma fillSelect_unselected (values : list string) :
  fold_left (fun el value => Dom.appendChild el (optionFor value))
            (sortByLocale localeCompare values)
            (Dom.appendChild (Dom.clear initialSelect) allOpt)
  = {| Dom.options := allOpt :: map optionFor (sortByLocale localeCompare values);
       Dom.selectedIndex := Some O |}.
Proof. rewrite (appendChild_all _ _ O); reflexivity. Qed.

Lemma fillSelect_eq (selectEl : Dom.SelectElement) (values : list string) :
  fillSelect localeCompare selectEl values
  = let filled :=
      {| Dom.options := allOpt :: map optionFor (sortByLocale localeCompare values);
         Dom.selectedIndex := Some O |} in
    if truthy (Dom.value selectEl)
       && existsb (String.eqb (Dom.value selectEl)) values
    then Dom.setValue filled (Dom.value selectEl)
    else filled.
Proof.
  unfold fillSelect. cbv zeta.
  change (Dom.clear selectEl) with (Dom.clear initialSelect).
  rewrite fillSelect_unselected. reflexivity.
Qed.

Lemma fillSelect_options (selectEl : Dom.SelectElement) (values : list string) :
  Dom.options (fillSelect localeCompare selectEl values)
  = allOpt :: map optionFor (sortByLocale localeCompare values).
Proof.
  rewrite fillSelect_eq. cbv zeta.
  destruct (truthy (Dom.value selectEl)
            && existsb (String.eqb (Dom.value selectEl)) values); reflexivity.
Qed.

Lemma fillSelect_value (selectEl : Dom.SelectElement) (values : list string) :
  ~ In "" values ->
  Dom.value (fillSelect localeCompare selectEl values)
  = if existsb (String.eqb (Dom.value selectEl)) values
    then Dom.value selectEl else "".
Proof.
  intros Hne. rewrite fillSelect_eq. cbv zeta.
  destruct (existsb (String.eqb (Dom.value selectEl)) values) eqn:E.
  - assert (Hin : In (Dom.value selectEl) values) by (apply existsb_eqb_In, E).
    assert (Ht : truthy (Dom.value selectEl) = true).
    { destruct (Dom.value selectEl); [contradiction|reflexivity]. }
    rewrite Ht. simpl andb. apply value_setValue.
    unfold Dom.optionValues. simpl. right.
    rewrite map_map. simpl. rewrite map_id.
    apply sortByLocale_In, Hin.
  - rewrite andb_false_r. reflexivity.
Qed.

Lemma collect_from (rows : list Project) (d s f : list string) :
  fold_left collectStep rows (d, s, f)
  = (fold_left setAdd (filter truthy (map Domain rows)) d,
     fold_left setAdd (filter truthy (map Status rows)) s,
     fold_left setAdd (filter truthy (map FacultyName rows)) f).
Proof.
  revert d s f. induction rows as [|r rows IH]; intros d s f; simpl.
  - reflexivity.
  - rewrite IH.
    destruct (truthy (Domain r)), (truthy (Status r)), (truthy (FacultyName r));
      reflexivity.
Qed.

Lemma collectOptions_eq (rows : list Project) :
  collectOptions rows
  = (distinctValues Domain rows, distinctValues Status rows,
     distinctValues FacultyName rows).
Proof.
  unfold collectOptions. rewrite collect_from.
  unfold distinctValues. rewrite <- !setOf_firstOccurrences. reflexivity.
Qed.

Lemma populateFilterOptions_selects (rows : list Project) (st : State) :
  domainFilter (populateFilterOptions localeCompare rows st)
  = fillSelect localeCompare (domainFilter st) (distinctValues Domain rows)
  /\ statusFilter (populateFilterOptions localeCompare rows st)
     = fillSelect localeCompare (statusFilter st) (distinctValues Status rows)
  /\ facultyFilter (populateFilterOptions localeCompare rows st)
     = fillSelect localeCompare (facultyFilter st) (distinctValues FacultyName rows).
Proof.
  unfold populateFilterOptions. rewrite collectOptions_eq. simpl. auto.
Qed.

Lemma distinctValues_In (field : Project -> string) (rows : list Project)
    (v : string) :
  In v (distinctValues field rows)
  <-> v <> "" /\ exists r, In r rows /\ field r = v.
Proof.
  unfold distinctValues.
  rewrite firstOccurrences_In, filter_In, in_map_iff.
  split.
  - intros [[r [E Hr]] Ht]. split.
    + intros ->. discriminate.
    + exists r. auto.
  - intros [Hne [r [Hr E]]]. split.
    + exists r. auto.
    + destruct v; [contradiction|reflexivity].
Qed.

Lemma distinctValues_nonempty (field : Project -> string) (rows : list Project) :
  ~ In "" (distinctValues field rows).
Proof. intros H. apply distinctValues_In in H. destruct H as [H _]. auto. Qed.

Lemma fillSelect_refreshed (field : Project -> string) (rows : list Project)
    (old : Dom.SelectElement) :
  SelectionRefreshed field rows old
    (fillSelect localeCompare old (distinctValues field rows)).
Proof.
  pose proof (fillSelect_value old (distinctValues field rows)
                (distinctValues_nonempty field rows)) as Hv.
  unfold SelectionRefreshed. rewrite Hv. split; [reflexivity|].
  unfold Dom.optionValues. rewrite fillSelect_options.
  destruct (existsb (String.eqb (Dom.value old)) (distinctValues field rows)) eqn:E.
  - apply existsb_eqb_In in E. split; [right; exact E|].
    simpl. right. rewrite map_map. simpl. rewrite map_id.
    apply sortByLocale_In, E.
  - split; [left; reflexivity|]. simpl. left. reflexivity.
Qed.

(** C8. After [populateFilterOptions] has recomputed the options from a
    record list, each of the three drop-downs carries either the
    no-constraint value [""] or one of the new distinct values of its
    field: the previous selection is kept exactly when it is still
    among them, and otherwise the selection is reset to [""]; the value
    carried is always the value of one of the new options. *)
Theorem populateFilterOptions_resets_stale_selection :
  forall (rows : list Project) (st : State),
    let st' := populateFilterOptions localeCompare rows st in
    SelectionRefreshed Domain rows (domainFilter st) (domainFilter st')
    /\ SelectionRefreshed Status rows (statusFilter st) (statusFilter st')
    /\ SelectionRefreshed FacultyName rows (facultyFilter st) (facultyFilter st').
Proof.
  intros rows st st'.
  destruct (populateFilterOptions_selects rows st) as [Hd [Hs Hf]].
  unfold st'. rewrite Hd, Hs, Hf.
  repeat split; apply fillSelect_refreshed.
Qed.

End Collation.

Section ConsistentCollation.

Variable localeCompare : string -> string -> Z.

(** The comparator is consistent, as [Array.prototype.sort] requires:
    when [a] sorts after [b], [b] does not sort after [a], and "not after"
    is transitive. *)
Hypothesis localeCompare_antisym :
  forall a b, (0 < localeCompare a b)%Z -> (localeCompare b a <= 0)%Z.
Hypothesis localeCompare_trans :
  forall a b c, (localeCompare a b <= 0)%Z -> (localeCompare b c <= 0)%Z ->
                (localeCompare a c <= 0)%Z.

Lemma sortInsert_sorted (x : string) (l : list string) :
  StronglySorted (notAfter localeCompare) l ->
  StronglySorted (notAfter localeCompare) (sortInsert localeCompare x l).
Proof.
  induction 1 as [|y l Hs IH Hall]; simpl.
  - repeat constructor.
  - destruct (Z.ltb_spec 0 (localeCompare x y)) as [Hgt|Hle].
    + constructor; [exact IH|].
      rewrite Forall_forall in *. intros z Hz.
      apply (Permutation_in _ (sortInsert_Permutation localeCompare x l)) in Hz.
      destruct Hz as [<-|Hz]; [|auto].
      apply localeCompare_antisym, Hgt.
    + constructor; [constructor; assumption|].
      constructor; [exact Hle|].
      rewrite Forall_forall in *. intros z Hz.
      eapply localeCompare_trans; [exact Hle|]. apply Hall, Hz.
Qed.

Lemma sortByLocale_sorted (l : list string) :
  StronglySorted (notAfter localeCompare) (sortByLocale localeCompare l).
Proof.
  induction l as [|x l IH]; simpl; [constructor|apply sortInsert_sorted, IH].
Qed.

Lemma fillSelect_OptionsFor (field : Project -> string) (rows : list Project)
    (old : Dom.SelectElement) :
  OptionsFor localeCompare field rows
    (fillSelect localeCompare old (distinctValues field rows)).
Proof.
  exists (sortByLocale localeCompare (distinctValues field rows)).
  split; [apply fillSelect_options|]. split; [reflexivity|]. split; [|split].
  - eapply Permutation_NoDup.
    + symmetry. apply sortByLocale_Permutation.
    + apply firstOccurrences_NoDup.
  - intros v. rewrite sortByLocale_In. apply distinctValues_In.
  - apply sortByLocale_sorted.
Qed.

(** C6, amended. For each of the three filterable fields, the options
    [populateFilterOptions] computes are the ["All"] choice with the
    empty value followed by one option per distinct non-empty value of
    the field, each value once, sorted by the host's locale-sensitive
    [localeCompare] (for any consistent comparator), not by code-unit
    order. *)
Theorem populateFilterOptions_options :
  forall (rows : list Project) (st : State),
    let st' := populateFilterOptions localeCompare rows st in
    OptionsFor localeCompare Domain rows (domainFilter st')
    /\ OptionsFor localeCompare Status rows (statusFilter st')
    /\ OptionsFor localeCompare FacultyName rows (facultyFilter st').
Proof.
  intros rows st st'.
  destruct (populateFilterOptions_selects localeCompare rows st) as [Hd [Hs Hf]].
  unfold st'. rewrite Hd, Hs, Hf.
  repeat split; apply fillSelect_OptionsFor.
Qed.

End ConsistentCollation.

(** ** The sample collation is a consistent comparator *)

Lemma sampleLocaleCompare_le (a b : string) :
  (sampleLocaleCompare a b <= 0)%Z <-> sampleBefore a b.
Proof.
  unfold sampleLocaleCompare, sampleBefore.
  destruct (String_as_OT.compare_spec (lowerCase a) (lowerCase b)) as [E|Hlt|Hgt].
  - destruct (String_as_OT.compare_spec b a) as [E'|Hlt'|Hgt'].
    + split; [intros _; right; auto | lia].
    + split; [intros _; right; auto | lia].
    + split; [lia|]. intros [H|[_ [H| ->]]].
      * rewrite E in H. exfalso. eapply StrictOrder_Irreflexive, H.
      * exfalso. eapply StrictOrder_Irreflexive.
        eapply StrictOrder_Transitive; eassumption.
      * exfalso. eapply StrictOrder_Irreflexive, Hgt'.
  - split; [intros _; left; exact Hlt | lia].
  - split; [lia|]. intros [H|[E _]].
    + exfalso. eapply StrictOrder_Irreflexive.
      eapply StrictOrder_Transitive; eassumption.
    + rewrite E in Hgt. exfalso. eapply StrictOrder_Irreflexive, Hgt.
Qed.

Lemma sampleBefore_total (a b : string) : sampleBefore a b \/ sampleBefore b a.
Proof.
  unfold sampleBefore.
  destruct (String_as_OT.compare_spec (lowerCase a) (lowerCase b)) as [E|Hlt|Hgt];
    [|left; left; exact Hlt|right; left; exact Hgt].
  destruct (String_as_OT.compare_spec a b) as [E'|Hlt'|Hgt'].
  - left. right. auto.
  - right. right. auto.
  - left. right. auto.
Qed.

Lemma sampleBefore_trans (a b c : string) :
  sampleBefore a b -> sampleBefore b c -> sampleBefore a c.
Proof.
  unfold sampleBefore.
  intros [H1|[E1 H1]] [H2|[E2 H2]].
  - left. eapply StrictOrder_Transitive; eassumption.
  - left. rewrite <- E2. exact H1.
  - left. rewrite E1. exact H2.
  - right. split; [congruence|].
    destruct H1 as [H1| ->]; destruct H2 as [H2| ->]; auto.
    left. eapply StrictOrder_Transitive; eassumption.
Qed.

Lemma sampleLocaleCompare_antisym (a b : string) :
  (0 < sampleLocaleCompare a b)%Z -> (sampleLocaleCompare b a <= 0)%Z.
Proof.
  intros H. apply sampleLocaleCompare_le.
  destruct (sampleBefore_total a b) as [Hab|Hba]; [|exact Hba].
  apply sampleLocaleCompare_le in Hab. lia.
Qed.

Lemma sampleLocaleCompare_trans (a b c : string) :
  (sampleLocaleCompare a b <= 0)%Z -> (sampleLocaleCompare b c <= 0)%Z ->
  (sampleLocaleCompare a c <= 0)%Z.
Proof.
  rewrite !sampleLocaleCompare_le. apply sampleBefore_trans.
Qed.

(** The statement at the sample collation and the domains a, B. *)
Lemma populateFilterOptions_options_witness :
  OptionsFor sampleLocaleCompare Domain
    [sampleProject "a" "" JsNumber.one; sampleProject "B" "" JsNumber.one]
    (domainFilter
       (populateFilterOptions sampleLocaleCompare
          [sampleProject "a" "" JsNumber.one; sampleProject "B" "" JsNumber.one]
          initialState)).
Proof.
  apply (populateFilterOptions_options sampleLocaleCompare
           sampleLocaleCompare_antisym sampleLocaleCompare_trans
           [sampleProject "a" "" JsNumber.one; sampleProject "B" "" JsNumber.one]
           initialState).
Defined.

(** C6, as stated, fails: for the domains ["a"] and ["B"], a host whose
    collation puts [a] before [B] (as locale-sensitive collations do)
    yields the options All, a, B, while code-unit order puts ["B"]
    before ["a"]. *)
Lemma populateFilterOptions_ordinal_counterexample :
  let rows := [sampleProject "a" "" JsNumber.one;
               sampleProject "B" "" JsNumber.one] in
  let st' := populateFilterOptions sampleLocaleCompare rows initialState in
  Dom.optionValues (domainFilter st') = [""; "a"; "B"]
  /\ ~ StronglySorted ordinalLe (tl (Dom.optionValues (domainFilter st')))
  /\ StronglySorted ordinalLe ["B"; "a"].
Proof.
  cbv zeta. split; [reflexivity|]. split.
  - change (tl (Dom.optionValues
                  (domainFilter
                     (populateFilterOptions sampleLocaleCompare
                        [sampleProject "a" "" JsNumber.one;
                         sampleProject "B" "" JsNumber.one] initialState))))
      with ["a"; "B"].
    intros H. inversion H as [|? ? _ Hall]; subst.
    inversion Hall as [|? ? Hle _]; subst.
    unfold ordinalLe in Hle. vm_compute in Hle. discriminate.
  - repeat constructor.
Qed.

(* ================================================================== *)
(** * File load: [handleFileUpload] *)
(* ================================================================== *)

Section FileLoad.

Variable localeCompare : string -> string -> Z.
Variable Worksheet : Type.
Variable XLSX_read : list Byte.byte -> completion (Workbook Worksheet).
Variable sheet_to_json : option Worksheet -> list RawRow.

Let upload := loadFile localeCompare XLSX_read sheet_to_json.
Let loaded := onload localeCompare XLSX_read sheet_to_json.

(** A change of the file input and the reader event after it, case by
    case. *)
Lemma loadFile_eq (files : list File) (st : State) :
  upload files st
  = match files with
    | [] => (st, Normal tt)
    | Readable data :: _ => loaded data st
    | Unreadable :: _ => (st, Normal tt)
    end.
Proof. destruct files as [|[data|] others]; reflexivity. Qed.

(** A successful load replaces the record set by the normalized rows of
    the first sheet. *)
Lemma handleFileUpload_success (data : list Byte.byte) (others : list File)
    (st : State) (workbook : Workbook Worksheet) :
  XLSX_read data = Normal workbook ->
  allRows (fst (upload (Readable data :: others) st))
  = map normalizeRow (sheet_to_json (firstSheet workbook))
  /\ snd (upload (Readable data :: others) st) = Normal tt.
Proof.
  intros H. rewrite loadFile_eq. unfold loaded, onload. rewrite H.
  split; [|reflexivity]. simpl fst.
  set (rows := map normalizeRow (sheet_to_json (firstSheet workbook))).
  destruct rows eqn:E; unfold populateFilterOptions;
    destruct (collectOptions _) as [[d s] f]; reflexivity.
Qed.

(** C9, amended. [handleFileUpload] gives its caller the same outcome
    for every choice of files: it returns [undefined] at once with the
    state untouched, having asked the reader for the first file if
    there is one; whether that file can be parsed plays no part in it.
    When parsing fails, that is, when [XLSX.read] throws, the reader's
    load callback leaves the page state as it was, record set, filters,
    summary, table and charts alike, and completes with the thrown
    error, which nothing in the program catches; the callback throws in
    no other case. *)
Theorem handleFileUpload_parse_failure :
  forall (files : list File) (st : State),
    handleFileUpload files st = (st, Normal tt, hd_error files)
    /\ (forall data error,
          XLSX_read data = Throw error -> loaded data st = (st, Throw error))
    /\ (forall data error,
          snd (loaded data st) = Throw error <-> XLSX_read data = Throw error)
    /\ (forall data others error,
          files = Readable data :: others ->
          XLSX_read data = Throw error ->
          upload files st = (st, Throw error)
          /\ handleEvent localeCompare XLSX_read sheet_to_json st
                         (FileChange files) = st).
Proof.
  intros files st.
  assert (Hthrow : forall data error,
             XLSX_read data = Throw error -> loaded data st = (st, Throw error)).
  { intros data error H. unfold loaded, onload. rewrite H. reflexivity. }
  split; [destruct files; reflexivity|].
  split; [exact Hthrow|]. split.
  - intros data error. split.
    + unfold loaded, onload.
      destruct (XLSX_read data) as [workbook|e]; simpl; congruence.
    + intros H. rewrite (Hthrow data error H). reflexivity.
  - intros data others error -> H.
    assert (E : upload (Readable data :: others) st = (st, Throw error)).
    { rewrite loadFile_eq. apply Hthrow, H. }
    split; [exact E|].
    unfold handleEvent. fold upload. rewrite E. reflexivity.
Qed.

End FileLoad.

(** The statement at the sample library and a file that starts like a
    PNG image: the call returns, the load callback throws, and the page
    is as before. *)
Lemma handleFileUpload_parse_failure_witness :
  handleFileUpload [Readable pngSignature] initialState
  = (initialState, Normal tt, Some (Readable pngSignature))
  /\ onload sampleLocaleCompare sampleRead sampleSheetToJson
            pngSignature initialState
     = (initialState, Throw "PNG Image File is not a spreadsheet").
Proof.
  destruct (handleFileUpload_parse_failure sampleLocaleCompare (list RawRow)
              sampleRead sampleSheetToJson
              [Readable pngSignature] initialState) as [Hcall [Hthrow _]].
  split; [exact Hcall|]. apply Hthrow. reflexivity.
Defined.

(** C9, as stated, fails: no failure is signalled to the caller. For a
    file on which parsing fails and for one that parses,
    [handleFileUpload] completes in the same way, by returning
    [undefined], and leaves the same state, the one it found. *)
Lemma handleFileUpload_failure_signal_counterexample :
  let bad := [Readable pngSignature] in
  let good := [Readable [Byte.x50; Byte.x4b]] in
  sampleRead pngSignature = Throw "PNG Image File is not a spreadsheet"
  /\ (exists workbook, sampleRead [Byte.x50; Byte.x4b] = Normal workbook)
  /\ fst (handleFileUpload bad initialState) = (initialState, Normal tt)
  /\ fst (handleFileUpload good initialState)
     = fst (handleFileUpload bad initialState).
Proof.
  cbv zeta. split; [reflexivity|]. split; [eexists; reflexivity|].
  split; reflexivity.
Qed.

(* ================================================================== *)
(** * Row normalizer: [normalizeRow] *)
(* ================================================================== *)

Lemma dropWhile_head {A} (p : A -> bool) (l : list A) :
  dropWhile p l = [] \/ exists x t, dropWhile p l = x :: t /\ p x = false.
Proof.
  induction l as [|x l IH]; simpl; [left; reflexivity|].
  destruct (p x) eqn:E; [exact IH|]. right. exists x, l. auto.
Qed.

Lemma dropWhile_snoc {A} (p : A -> bool) (a : list A) (y : A) :
  p y = false -> dropWhile p (a ++ [y]) = dropWhile p a ++ [y].
Proof.
  intros Hy. induction a as [|x a IH]; simpl.
  - rewrite Hy. reflexivity.
  - destruct (p x); [exact IH|reflexivity].
Qed.

Lemma trim_chars (l : list ascii) :
  trimEnd (trimStart l) = []
  \/ exists c t, trimEnd (trimStart l) = c :: t
                 /\ isWhiteSpace c = false
                 /\ isWhiteSpace (last (c :: t) c) = false.
Proof.
  unfold trimStart, trimEnd.
  destruct (dropWhile_head isWhiteSpace l) as [->|[y [t0 [-> Hy]]]];
    [left; reflexivity|right].
  simpl rev. rewrite dropWhile_snoc by exact Hy.
  rewrite rev_app_distr. simpl app.
  exists y, (rev (dropWhile isWhiteSpace (rev t0))).
  split; [reflexivity|]. split; [exact Hy|].
  destruct (dropWhile_head isWhiteSpace (rev t0)) as [->|[x [t [-> Hx]]]].
  - exact Hy.
  - simpl rev. rewrite app_comm_cons, last_last. exact Hx.
Qed.

Lemma trim_Trimmed (s : string) : Trimmed (trim s).
Proof.
  unfold Trimmed, trim, chars, of_chars.
  rewrite list_ascii_of_string_of_list_ascii.
  destruct (trim_chars (list_ascii_of_string s)) as [->|[c [t [-> [H1 H2]]]]].
  - exact I.
  - split; assumption.
Qed.

Lemma textField_eq (row : RawRow) (col : string) :
  textField row col
  = if truthyPrimitive (cell row col)
    then trim (primitiveToString (cell row col)) else "".
Proof.
  unfold textField, orElsePrimitive.
  destruct (truthyPrimitive (cell row col)); reflexivity.
Qed.

Lemma textField_normalized (row : RawRow) (col : string) :
  TextNormalized row col (textField row col).
Proof.
  unfold TextNormalized. rewrite <- textField_eq.
  split; [reflexivity|]. split; [apply trim_Trimmed|]. split.
  - intros E. rewrite textField_eq, E. reflexivity.
  - intros H. rewrite textField_eq.
    destruct (cell row col) as [| |b|x|s]; simpl.
    + reflexivity.
    + destruct H as [H|[H|[s H]]]; discriminate.
    + destruct b; [reflexivity|].
      destruct H as [H|[H|[s H]]]; discriminate.
    + destruct (JsNumber.truthy x) eqn:E; [reflexivity|].
      destruct H as [H|[H|[s H]]]; try discriminate.
      simpl in H. congruence.
    + destruct s; reflexivity.
Qed.

(** C7, as stated, fails: a title cell holding the number [0] is
    present, yet it is normalized to the empty string, not to its
    string form ["0"]. *)
Lemma normalizeRow_text_counterexample :
  let row := [("Title", PNumber (JsNumber.ofZ 0))] in
  cell row "Title" <> PUndefined
  /\ Title (normalizeRow row) = ""
  /\ textSpec (cell row "Title") = "0"
  /\ Title (normalizeRow row) <> textSpec (cell row "Title").
Proof.
  cbv zeta. split; [discriminate|]. split; [reflexivity|].
  split; [reflexivity|]. vm_compute. discriminate.
Qed.

(** C7, amended. For every raw row and each of the six text columns,
    normalization reads the cell and, whenever its value is truthy,
    coerces it to its string form and strips the white space at both
    ends, while an absent or otherwise falsy cell (null, false, the
    number 0, NaN, the empty string) yields the empty string; the amount
    is the parsed amount cell, with ["0"] standing in for a falsy one and
    [0] for an unparseable one. Every field of the record is thereby
    defined with its declared type. *)
Theorem normalizeRow_fields :
  forall (row : RawRow),
    TextNormalized row "Domain" (Domain (normalizeRow row))
    /\ TextNormalized row "Project Type" (ProjectType (normalizeRow row))
    /\ TextNormalized row "Title" (Title (normalizeRow row))
    /\ TextNormalized row "Funding Agency" (FundingAgency (normalizeRow row))
    /\ TextNormalized row "Status" (Status (normalizeRow row))
    /\ TextNormalized row "Faculty Name" (FacultyName (normalizeRow row))
    /\ Amount (normalizeRow row)
       = JsNumber.orElse
           (JsNumber.parseFloat
              (removeCommas
                 (primitiveToString
                    (orElsePrimitive (cell row "Amount(in lakhs)") (PString "0")))))
           JsNumber.zero
    /\ (cell row "Amount(in lakhs)" = PUndefined ->
        Amount (normalizeRow row) = JsNumber.zero)
    /\ normalizeRow [] = sampleProject "" "" JsNumber.zero.
Proof.
  intros row.
  repeat (split; [apply textField_normalized|]).
  split; [reflexivity|]. split; [|reflexivity].
  intros E. simpl. unfold amountField. rewrite E. reflexivity.
Qed.

Lemma strictEq_refl_finite (s : bool) (m : positive) (e : Z) :
  JsNumber.strictEq (S754_finite s m e) (S754_finite s m e) = true.
Proof.
  unfold JsNumber.strictEq, SFeqb, SFcompare.
  change (IntDef.Z.compare e e) with (Z.compare e e).
  rewrite Z.compare_refl, Pos.compare_cont_refl.
  destruct s; reflexivity.
Qed.

(** A falsy amount cell is read as ["0"]; its own string form would
    parse to [0] or to [NaN], that is, to the same amount. *)
Lemma amountField_eq (row : RawRow) (col : string) :
  amountField row col
  = JsNumber.orElse
      (JsNumber.parseFloat (removeCommas (primitiveToString (cell row col))))
      JsNumber.zero.
Proof.
  unfold amountField, orElsePrimitive.
  destruct (cell row col) as [| |[|]|x|s]; try reflexivity.
  - destruct x as [[|]|[|]| |sx m e]; reflexivity.
  - destruct s; reflexivity.
Qed.

Lemma orElse_zero_not_NaN (p : JsNumber.number) :
  JsNumber.isNaN (JsNumber.orElse p JsNumber.zero) = false.
Proof. destruct p; reflexivity. Qed.

Lemma orElse_zero_vs_spec (p : JsNumber.number) :
  JsNumber.strictEq (JsNumber.orElse p JsNumber.zero)
                    (if JsNumber.isFinite p then p else JsNumber.zero)
  = negb (isInfinite p).
Proof.
  destruct p as [s|s| |s m e]; try reflexivity.
  - destruct s; reflexivity.
  - apply strictEq_refl_finite.
Qed.

(** C2, as stated, fails: an amount cell holding the text ["Infinity"],
    or a numeral too large for a binary64 such as ["1e999"], is
    normalized to the number Infinity, which is not finite, where the
    specification words [0]. *)
Lemma normalizeRow_amount_counterexample :
  let row := [("Amount(in lakhs)", PString "Infinity")] in
  let row' := [("Amount(in lakhs)", PString "1e999")] in
  Amount (normalizeRow row) = JsNumber.Infinity
  /\ JsNumber.isFinite (Amount (normalizeRow row)) = false
  /\ amountSpec (cell row "Amount(in lakhs)") = JsNumber.zero
  /\ Amount (normalizeRow row) <> amountSpec (cell row "Amount(in lakhs)")
  /\ JsNumber.isFinite (Amount (normalizeRow row')) = false.
Proof.
  cbv zeta. split; [reflexivity|]. split; [reflexivity|].
  split; [reflexivity|]. split; [vm_compute; discriminate|].
  vm_compute. reflexivity.
Qed.

(** C2, amended. For every raw row, the normalized amount is obtained by
    coercing the raw ['Amount(in lakhs)'] cell to its string form,
    removing every comma and parsing a floating-point number, the result
    being replaced by [0] whenever the parse yields [NaN] (or a zero).
    The amount of every normalized record is therefore never [NaN]: it
    is a finite number or an infinity, and it is the amount the
    specification words exactly when the parse is not an infinity;
    ["1,234.5"] normalizes to [1234.5] and ["abc"] to [0].
    Normalization is a total function: it yields a record for every
    row. *)
Theorem normalizeRow_amount :
  forall (row : RawRow),
    let c := cell row "Amount(in lakhs)" in
    let p := JsNumber.parseFloat (removeCommas (primitiveToString c)) in
    Amount (normalizeRow row) = JsNumber.orElse p JsNumber.zero
    /\ JsNumber.isNaN (Amount (normalizeRow row)) = false
    /\ JsNumber.strictEq (Amount (normalizeRow row)) (amountSpec c)
       = negb (isInfinite p)
    /\ Amount (normalizeRow [("Amount(in lakhs)", PString "1,234.5")])
       = JsNumber.ofDecimal false 12345 (-1)
    /\ JsNumber.toString
         (Amount (normalizeRow [("Amount(in lakhs)", PString "1,234.5")]))
       = "1234.5"
    /\ Amount (normalizeRow [("Amount(in lakhs)", PString "abc")])
       = JsNumber.zero.
Proof.
  intros row c p.
  assert (E : Amount (normalizeRow row) = JsNumber.orElse p JsNumber.zero).
  { apply amountField_eq. }
  split; [exact E|]. rewrite E.
  split; [apply orElse_zero_not_NaN|].
  split; [apply orElse_zero_vs_spec|].
  split; [vm_compute; reflexivity|].
  split; vm_compute; reflexivity.
Qed.

(* ================================================================== *)
(** * Scenarios *)
(* ================================================================== *)

(** With every filter on ["All"], [applyFilters] returns the records
    unchanged. *)
Lemma applyFilters_unconstrained (st : State) (rows : list Project) :
  selection st = ("", "", "") -> applyFilters st rows = rows.
Proof.
  unfold selection. intros E. injection E as Hd Hs Hf.
  unfold applyFilters. rewrite Hd, Hs, Hf. apply filter_all.
  intros r _. reflexivity.
Qed.

(** Two AI projects of 10 and 5 lakhs, one ongoing and one completed. *)
Example scenario_summary :
  let rows :=
    map normalizeRow
        [ [("Domain", PString "AI"); ("Amount(in lakhs)", PString "10");
           ("Status", PString "Ongoing")];
          [("Domain", PString "AI"); ("Amount(in lakhs)", PString "5");
           ("Status", PString "Completed")] ] in
  let st := render rows initialState in
  totalProjectsEl st = "2"
  /\ totalFundingEl st = "15.00"
  /\ uniqueDomainsEl st = "1"
  /\ statusBreakdownEl st = "Ongoing: 1 | Completed: 1"
  /\ tableBody st = [ ["AI"; ""; ""; ""; "10.00"; "Ongoing"; ""];
                      ["AI"; ""; ""; ""; "5.00"; "Completed"; ""] ].
Proof. vm_compute. repeat split. Qed.

(** Domains Bio, AI, Bio: Bio counts 2, AI counts 1, Bio first. *)
Example scenario_first_occurrence :
  map (fun e => (fst e, valueToString (snd e)))
      (JsObject.entries
         (aggregateBy [sampleProject "Bio" "" JsNumber.zero;
                       sampleProject "AI" "" JsNumber.zero;
                       sampleProject "Bio" "" JsNumber.zero] Domain None))
  = [("Bio", "2"); ("AI", "1")].
Proof. vm_compute. reflexivity. Qed.

(** No records: placeholders, an empty table and no chart. *)
Example scenario_empty :
  render [] initialState = initialState.
Proof. reflexivity. Qed.

(** A load with the sample host: the record set is replaced, the
    options are recomputed and the view is rendered. *)
Example scenario_load :
  let result :=
    loadFile sampleLocaleCompare sampleRead sampleSheetToJson
             [Readable [Byte.x50; Byte.x4b]] initialState in
  snd result = Normal tt
  /\ allRows (fst result) = [sampleProject "AI" "" JsNumber.zero]
  /\ Dom.optionValues (domainFilter (fst result)) = [""; "AI"]
  /\ Dom.value (domainFilter (fst result)) = ""
  /\ totalProjectsEl (fst result) = "1"
  /\ statusBreakdownEl (fst result) = "Unknown: 1".
Proof. vm_compute. repeat split. Qed.

(** A file of plain text is no failure for the sample library: it is
    read as a sheet, and the load replaces the record set. *)
Example scenario_text_file :
  let st :=
    fst (loadFile sampleLocaleCompare sampleRead sampleSheetToJson
                  [Readable [Byte.x50; Byte.x4b]] initialState) in
  let result :=
    loadFile sampleLocaleCompare sampleRead sampleSheetToJson
             [Readable [Byte.x61; Byte.x62; Byte.x63]] st in
  allRows st = [sampleProject "AI" "" JsNumber.zero]
  /\ snd result = Normal tt
  /\ allRows (fst result) = []
  /\ totalProjectsEl (fst result) = "-".
Proof. vm_compute. repeat split. Qed.

(** Keys that name members of [Object.prototype] fall outside the
    statements above: [__proto__] never becomes a key, and the first
    write under [constructor] concatenates to the inherited function. *)
Example inherited_names :
  let acc := aggregateBy [sampleProject "__proto__" "" JsNumber.zero;
                          sampleProject "constructor" "" JsNumber.zero]
                         Domain None in
  JsObject.keys acc = ["constructor"]
  /\ JsObject.get acc "constructor"
     = VScalar (SString "function Object() { [native code] }1").
Proof. vm_compute. split; reflexivity. Qed.

(* ================================================================== *)
(** * The rendering pipeline: [render] and what it writes *)
(* ================================================================== *)

Lemma filter_idempotent {A} (f : A -> bool) (l : list A) :
  filter f (filter f l) = filter f l.
Proof.
  induction l as [|x l IH]; simpl; [reflexivity|].
  destruct (f x) eqn:E; simpl; rewrite ?E, IH; reflexivity.
Qed.

Lemma filter_length_le {A} (f : A -> bool) (l : list A) :
  (List.length (filter f l) <= List.length l)%nat.
Proof.
  induction l as [|x l IH]; simpl; [lia|]. destruct (f x); simpl; lia.
Qed.

(** X1. Filtering twice is filtering once, filtering a concatenation is
    concatenating the filtered parts, and filtering never adds
    records. *)
Theorem applyFilters_composes :
  forall (st : State) (rows rows' : list Project),
    applyFilters st (applyFilters st rows) = applyFilters st rows
    /\ applyFilters st (rows ++ rows')
       = applyFilters st rows ++ applyFilters st rows'
    /\ (List.length (applyFilters st rows) <= List.length rows)%nat.
Proof.
  intros st rows rows'. unfold applyFilters.
  split; [apply filter_idempotent|].
  split; [apply filter_app|apply filter_length_le].
Qed.

Lemma render_keeps (rows : list Project) (st : State) :
  allRows (render rows st) = allRows st
  /\ domainFilter (render rows st) = domainFilter st
  /\ statusFilter (render rows st) = statusFilter st
  /\ facultyFilter (render rows st) = facultyFilter st.
Proof. destruct rows; repeat split; reflexivity. Qed.

Lemma applyFilters_same_filters (st st' : State) (rows : list Project) :
  domainFilter st' = domainFilter st ->
  statusFilter st' = statusFilter st ->
  facultyFilter st' = facultyFilter st ->
  applyFilters st' rows = applyFilters st rows.
Proof. intros Hd Hs Hf. unfold applyFilters. rewrite Hd, Hs, Hf. reflexivity. Qed.

(** What [render] shows is a function of the records and the three
    filters alone. *)
Lemma render_eq (rows : list Project) (st : State) :
  render rows st
  = let filtered := applyFilters st rows in
    {| allRows := allRows st;
       charts :=
         match rows with
         | [] => {| projectsByDomain := None; fundingByDomain := None;
                    projectsByStatus := None |}
         | _ => charts (renderCharts filtered st)
         end;
       domainFilter := domainFilter st;
       statusFilter := statusFilter st;
       facultyFilter := facultyFilter st;
       totalProjectsEl :=
         match rows with [] => "-" | _ => JsNumber.toString (lengthNumber filtered) end;
       totalFundingEl :=
         match rows with [] => "-" | _ => JsNumber.toFixed2 (totalFunding filtered) end;
       uniqueDomainsEl :=
         match rows with
         | [] => "-"
         | _ => JsNumber.toString
                  (lengthNumber (setOf (filter truthy (map Domain filtered))))
         end;
       statusBreakdownEl :=
         match rows with [] => "-" | _ => statusBreakdown filtered end;
       tableBody :=
         match rows with [] => [] | _ => map tableCells filtered end |}.
Proof. destruct rows; reflexivity. Qed.

Lemma render_render (rows other : list Project) (st : State) :
  render rows (render other st) = render rows st.
Proof.
  destruct (render_keeps other st) as [Ha' [Hd' [Hs' Hf']]].
  rewrite (render_eq rows (render other st)), (render_eq rows st).
  cbv zeta.
  rewrite (applyFilters_same_filters st (render other st) rows Hd' Hs' Hf').
  rewrite Ha', Hd', Hs', Hf'.
  destruct rows; reflexivity.
Qed.

Lemma render_table (rows : list Project) (st : State) :
  tableBody (render rows st)
  = map tableCells (applyFilters (render rows st) rows).
Proof.
  destruct (render_keeps rows st) as [_ [Hd [Hs Hf]]].
  rewrite (applyFilters_same_filters st (render rows st) rows Hd Hs Hf).
  rewrite render_eq. cbv zeta. destruct rows; reflexivity.
Qed.

(** X2. [render] never touches the record set or the filters, and
    rendering again changes nothing: whatever was rendered before, the
    last [render] alone decides what is shown. *)
Theorem render_last_wins :
  forall (rows rows' : list Project) (st : State),
    allRows (render rows st) = allRows st
    /\ selection (render rows st) = selection st
    /\ render rows (render rows st) = render rows st
    /\ render rows (render rows' st) = render rows st.
Proof.
  intros rows rows' st.
  destruct (render_keeps rows st) as [Ha [Hd [Hs Hf]]].
  split; [exact Ha|].
  split; [unfold selection; rewrite Hd, Hs, Hf; reflexivity|].
  split; apply render_render.
Qed.

(** X3. When records are loaded, the table shows one row of seven cells per
    record that passes the filters, in their order, whatever the table
    held before, and the project total written to the summary is the
    number of table rows. *)
Theorem render_table_rows :
  forall (rows : list Project) (st : State),
    rows <> [] ->
    tableBody (render rows st) = map tableCells (applyFilters st rows)
    /\ List.length (tableBody (render rows st))
       = List.length (applyFilters st rows)
    /\ Forall (fun cells => List.length cells = 7%nat) (tableBody (render rows st))
    /\ totalProjectsEl (render rows st)
       = JsNumber.toString (lengthNumber (tableBody (render rows st))).
Proof.
  intros rows st Hne. rewrite render_eq. cbv zeta.
  destruct rows as [|r rows]; [contradiction|]. simpl tableBody.
  split; [reflexivity|]. split; [apply length_map|]. split.
  - apply Forall_forall. intros cells Hc. apply in_map_iff in Hc.
    destruct Hc as [x [<- _]]. reflexivity.
  - simpl totalProjectsEl. unfold lengthNumber. rewrite length_map. reflexivity.
Qed.

(** The statement at one record and the fresh page. *)
Lemma render_table_rows_witness :
  List.length (tableBody (render [sampleProject "AI" "" JsNumber.one] initialState))
  = List.length (applyFilters initialState [sampleProject "AI" "" JsNumber.one]).
Proof.
  apply (render_table_rows [sampleProject "AI" "" JsNumber.one] initialState).
  discriminate.
Defined.

(** X4. When records are loaded but none passes the filters, the summary
    shows zeros and an empty breakdown rather than the ["-"]
    placeholders, the table is empty, and the three charts are drawn
    with no labels. *)
Theorem render_nothing_visible :
  forall (rows : list Project) (st : State),
    rows <> [] ->
    applyFilters st rows = [] ->
    totalProjectsEl (render rows st) = "0"
    /\ totalFundingEl (render rows st) = "0.00"
    /\ uniqueDomainsEl (render rows st) = "0"
    /\ statusBreakdownEl (render rows st) = ""
    /\ tableBody (render rows st) = []
    /\ charts (render rows st)
       = {| projectsByDomain :=
              Some {| chartType := "bar"; labels := [];
                      datasetLabel := Some "Projects"; data := [];
                      backgroundColor := [] |};
            fundingByDomain :=
              Some {| chartType := "bar"; labels := [];
                      datasetLabel := Some "Funding (Lakhs)"; data := [];
                      backgroundColor := [] |};
            projectsByStatus :=
              Some {| chartType := "pie"; labels := [];
                      datasetLabel := None; data := [];
                      backgroundColor := [] |} |}.
Proof.
  intros rows st Hne Hnone. rewrite render_eq. cbv zeta. rewrite Hnone.
  destruct rows as [|r rows]; [contradiction|].
  repeat split; reflexivity.
Qed.

(** The statement at an AI record while a stale domain is selected. *)
Lemma render_nothing_visible_witness :
  totalProjectsEl
    (render [sampleProject "AI" "" JsNumber.one]
            (chooseFilter DomainFilter 1
               {| allRows := []; charts := charts initialState;
                  domainFilter :=
                    {| Dom.options := [allOpt; optionFor "Bio"];
                       Dom.selectedIndex := Some O |};
                  statusFilter := initialSelect; facultyFilter := initialSelect;
                  totalProjectsEl := "-"; totalFundingEl := "-";
                  uniqueDomainsEl := "-"; statusBreakdownEl := "-";
                  tableBody := [] |}))
  = "0".
Proof.
  apply render_nothing_visible.
  - discriminate.
  - reflexivity.
Defined.

(* ================================================================== *)
(** * Charts: labels, data and colours *)
(* ================================================================== *)

Lemma ownKeys_NoDup (o : JsObject.object) :
  NoDup (map fst o) -> NoDup (JsObject.ownKeys o).
Proof.
  intros H. eapply Permutation_NoDup; [|exact H].
  symmetry. apply ownKeys_Permutation.
Qed.

Lemma aggregateBy_keys_NoDup (rows : list Project) (keyFn : Project -> string)
    (valueFn : option (Project -> JsNumber.number)) :
  NoDup (JsObject.keys (aggregateBy rows keyFn valueFn)).
Proof.
  apply ownKeys_NoDup. rewrite aggregateBy_own_names.
  apply firstOccurrences_NoDup.
Qed.

(** The keys of an aggregation do not depend on the value function. *)
Lemma aggregateBy_keys_any_value (rows : list Project) (keyFn : Project -> string)
    (valueFn valueFn' : option (Project -> JsNumber.number)) :
  JsObject.keys (aggregateBy rows keyFn valueFn)
  = JsObject.keys (aggregateBy rows keyFn valueFn').
Proof.
  unfold JsObject.keys, JsObject.ownKeys.
  rewrite !aggregateBy_own_names. reflexivity.
Qed.

Lemma getOwn_In (o : JsObject.object) (k : string) :
  In k (map fst o) -> exists v, JsObject.getOwn o k = Some v.
Proof.
  induction o as [|[k' v'] o IH]; simpl; intros H; [contradiction|].
  destruct (String.eqb_spec k' k) as [->|Hne]; [eauto|].
  apply IH. destruct H; [contradiction|assumption].
Qed.

Lemma get_own_key (o : JsObject.object) (k : string) :
  In k (JsObject.keys o) -> exists v, JsObject.get o k = VScalar v.
Proof.
  intros H. apply keys_In, getOwn_In in H. destruct H as [v Hv].
  exists v. unfold JsObject.get. rewrite Hv. reflexivity.
Qed.

(** X5. The labels of an aggregation are distinct, none is empty or
    [__proto__], each is the key of some record, and each has a value of
    its own in the result. *)
Theorem aggregateBy_labels :
  forall (rows : list Project) (keyFn : Project -> string)
         (valueFn : option (Project -> JsNumber.number)),
    let acc := aggregateBy rows keyFn valueFn in
    NoDup (JsObject.keys acc)
    /\ Forall (fun k => k <> "" /\ k <> "__proto__"
                        /\ (exists r, In r rows /\ groupKey keyFn r = k)
                        /\ (exists v, JsObject.get acc k = VScalar v))
              (JsObject.keys acc)
    /\ (rows = [] -> JsObject.keys acc = []).
Proof.
  intros rows keyFn valueFn acc.
  split; [apply aggregateBy_keys_NoDup|]. split.
  - apply Forall_forall. intros k Hk.
    pose proof (proj1 (aggregateBy_key_In rows keyFn valueFn k) Hk) as [Hp [r [Hr E]]].
    split; [|split; [exact Hp|split]].
    + rewrite <- E. apply groupKey_nonempty.
    + exists r. auto.
    + apply get_own_key, Hk.
  - intros ->. reflexivity.
Qed.

Lemma colours_length (shift : nat) (l : list string) :
  List.length (colours shift l) = List.length l.
Proof. unfold colours. rewrite length_map, length_seq. reflexivity. Qed.

Lemma colours_palette (shift : nat) (l : list string) :
  Forall (fun c => In c palette) (colours shift l).
Proof.
  apply Forall_forall. intros c Hc. unfold colours in Hc.
  apply in_map_iff in Hc. destruct Hc as [i [<- _]].
  apply nth_In. apply Nat.mod_upper_bound. discriminate.
Qed.

Lemma groupKey_domainKey (r : Project) : groupKey domainKey r = domainKey r.
Proof. unfold groupKey, domainKey. apply orElse_idempotent. Qed.

Lemma groupKey_statusKey (r : Project) : groupKey statusKey r = statusKey r.
Proof. unfold groupKey, statusKey. apply orElse_idempotent. Qed.

(** X6. The three charts [renderCharts] builds: the two domain charts share
    their labels; every chart has one datum and one colour per label;
    every colour is one of the eight of the palette; and every funding
    datum is a value of the funding aggregation itself, so that the
    [?? 0] fallback is never taken. *)
Theorem renderCharts_shape :
  forall (rows : list Project) (st : State),
    exists byDomain funding byStatus,
      projectsByDomain (charts (renderCharts rows st)) = Some byDomain
      /\ fundingByDomain (charts (renderCharts rows st)) = Some funding
      /\ projectsByStatus (charts (renderCharts rows st)) = Some byStatus
      /\ labels funding = labels byDomain
      /\ Forall (fun c => List.length (data c) = List.length (labels c)
                          /\ List.length (backgroundColor c) = List.length (labels c)
                          /\ Forall (fun colour => In colour palette)
                                    (backgroundColor c))
                [byDomain; funding; byStatus]
      /\ data funding
         = map (JsObject.get (aggregateBy rows domainKey (Some amountValue)))
               (labels funding)
      /\ Forall (fun v => exists x, v = VScalar x) (data funding).
Proof.
  intros rows st. unfold renderCharts. cbv zeta. simpl charts.
  do 3 eexists. split; [reflexivity|]. split; [reflexivity|].
  split; [reflexivity|]. simpl labels. simpl data. simpl backgroundColor.
  split; [reflexivity|]. split.
  - repeat constructor; try apply length_map; try apply colours_length;
      apply colours_palette.
  - assert (Hown : forall d,
               In d (JsObject.keys (aggregateBy rows domainKey None)) ->
               exists x, JsObject.get (aggregateBy rows domainKey (Some amountValue)) d
                         = VScalar x).
    { intros d Hd. apply get_own_key.
      rewrite (aggregateBy_keys_any_value rows domainKey _ None). exact Hd. }
    split.
    + apply map_ext_in. intros d Hd. destruct (Hown d Hd) as [x ->]. reflexivity.
    + apply Forall_forall. intros v Hv. apply in_map_iff in Hv.
      destruct Hv as [d [<- Hd]]. destruct (Hown d Hd) as [x ->].
      exists x. reflexivity.
Qed.

(** X7. The status breakdown of the summary and the status chart agree: the
    chart's labels and data are the keys and the counts the breakdown
    spells out, in the same order. *)
Theorem statusBreakdown_matches_chart :
  forall (rows : list Project) (st : State),
    exists chart,
      projectsByStatus (charts (renderCharts rows st)) = Some chart
      /\ List.length (data chart) = List.length (labels chart)
      /\ combine (labels chart) (data chart)
         = JsObject.entries (statusCounts rows)
      /\ statusBreakdown rows
         = join " | "
             (map (fun e => (fst e ++ ": " ++ valueToString (snd e))%string)
                  (combine (labels chart) (data chart))).
Proof.
  intros rows st. unfold renderCharts. cbv zeta. simpl charts.
  eexists. split; [reflexivity|]. simpl labels. simpl data.
  assert (E : aggregateBy rows statusKey None = statusCounts rows).
  { rewrite statusCounts_aggregateBy. apply aggregateBy_ext.
    induction rows as [|r rows IH]; constructor; [|exact IH].
    split; [|reflexivity]. rewrite groupKey_statusKey. reflexivity. }
  rewrite E. split; [apply length_map|].
  assert (C : forall (o : JsObject.object) (l : list string),
             combine l (map (fun s => JsObject.get o s) l)
             = map (fun k => (k, JsObject.get o k)) l).
  { intros o l. induction l as [|k l IH]; simpl; [reflexivity|].
    rewrite IH. reflexivity. }
  split.
  - unfold JsObject.entries, JsObject.keys. apply C.
  - unfold statusBreakdown, JsObject.entries, JsObject.keys. rewrite C.
    reflexivity.
Qed.

Lemma get_empty_not_inherited (k : string) :
  JsObject.isInherited k = false -> JsObject.get JsObject.empty k = VUndefined.
Proof.
  unfold JsObject.isInherited, JsObject.get. simpl. intros H.
  apply orb_false_iff in H. destruct H as [-> Hm]. rewrite Hm.
  destruct (String.eqb_spec k "constructor") as [->|_]; [discriminate|reflexivity].
Qed.

Lemma accumulate_count (group : list Project) (c : Z) :
  (0 <= c)%Z -> (c + Z.of_nat (List.length group) < 2 ^ 53)%Z ->
  fold_left (accumulate None) group (VScalar (SNumber (JsNumber.ofZ c)))
  = VScalar (SNumber (JsNumber.ofZ (c + Z.of_nat (List.length group)))).
Proof.
  revert c. induction group as [|r group IH]; intros c Hc Hlt.
  - simpl. do 3 f_equal. lia.
  - simpl fold_left. unfold accumulate at 2. simpl contribution.
    assert (Ho : orZero (VScalar (SNumber (JsNumber.ofZ c)))
                 = VScalar (SNumber (JsNumber.ofZ c))).
    { unfold orZero. simpl truthyValue.
      pose proof (ofZ_truthy c) as Ht. unfold JsNumber.orElse in Ht.
      simpl List.length in Hlt.
      destruct (JsNumber.truthy (JsNumber.ofZ c)); [reflexivity|].
      rewrite Ht by lia. reflexivity. }
    rewrite Ho. simpl plusNumber. unfold JsNumber.one.
    simpl List.length in Hlt.
    rewrite add_ofZ by lia. rewrite IH by lia.
    do 3 f_equal. simpl List.length. lia.
Qed.

(** X8. Counting: under a key that is not a name inherited from
    [Object.prototype], the aggregation holds the number of records
    filed under that key, and nothing when there is none. *)
Theorem aggregateBy_counts :
  forall (rows : list Project) (keyFn : Project -> string) (key : string),
    JsObject.isInherited key = false ->
    (Z.of_nat (List.length rows) < 2 ^ 53)%Z ->
    JsObject.get (aggregateBy rows keyFn None) key
    = match groupOf keyFn key rows with
      | [] => VUndefined
      | _ => VScalar (SNumber (groupCount keyFn key rows))
      end.
Proof.
  intros rows keyFn key Hkey Hlen.
  assert (Hp : key <> "__proto__").
  { intros ->. discriminate. }
  unfold aggregateBy. rewrite aggregate_from_get by exact Hp.
  rewrite get_empty_not_inherited by exact Hkey.
  unfold groupCount.
  assert (Hle : (List.length (groupOf keyFn key rows) <= List.length rows)%nat).
  { apply filter_length_le. }
  destruct (groupOf keyFn key rows) as [|r group]; [reflexivity|].
  simpl fold_left. unfold accumulate at 2. simpl contribution.
  change (plusNumber (orZero VUndefined) JsNumber.one)
    with (SNumber (JsNumber.add (JsNumber.ofZ 0) (JsNumber.ofZ 1))).
  simpl List.length in *.
  rewrite add_ofZ by lia. rewrite accumulate_count by lia.
  do 3 f_equal. lia.
Qed.

(** The statement at the domains Bio, AI, Bio and the key Bio. *)
Lemma aggregateBy_counts_witness :
  JsObject.get
    (aggregateBy [sampleProject "Bio" "" JsNumber.one;
                  sampleProject "AI" "" JsNumber.one;
                  sampleProject "Bio" "" JsNumber.one] Domain None) "Bio"
  = VScalar (SNumber (JsNumber.ofZ 2)).
Proof.
  apply (aggregateBy_counts
           [sampleProject "Bio" "" JsNumber.one;
            sampleProject "AI" "" JsNumber.one;
            sampleProject "Bio" "" JsNumber.one] Domain "Bio").
  - reflexivity.
  - simpl. lia.
Defined.

(* ================================================================== *)
(** * Row normalizer: columns, white space and integer amounts *)
(* ================================================================== *)

Lemma orElse_zero_idempotent (p : JsNumber.number) :
  JsNumber.orElse (JsNumber.orElse p JsNumber.zero) JsNumber.zero
  = JsNumber.orElse p JsNumber.zero.
Proof. destruct p; reflexivity. Qed.

Lemma normalizeRow_Normalized (row : RawRow) : Normalized (normalizeRow row).
Proof.
  unfold Normalized, normalizeRow, textField. simpl.
  repeat (split; [apply trim_Trimmed|]).
  unfold amountValue, amountField. simpl. split.
  - apply orElse_zero_not_NaN.
  - apply orElse_zero_idempotent.
Qed.

(** X9. On the records [normalizeRow] builds, the [r.Amount || 0] guards of
    the summary and of the funding chart change nothing: the total
    funding is the plain sum of the amounts, and the funding chart
    aggregates the amounts themselves. *)
Theorem normalized_amount_guard_redundant :
  forall (json : list RawRow) (keyFn : Project -> string),
    let rows := map normalizeRow json in
    Forall (fun r => amountValue r = Amount r) rows
    /\ totalFunding rows = sumNumbers (map Amount rows)
    /\ aggregateBy rows keyFn (Some amountValue)
       = aggregateBy rows keyFn (Some Amount).
Proof.
  intros json keyFn rows.
  assert (H : Forall (fun r => amountValue r = Amount r) rows).
  { apply Forall_forall. intros r Hr. apply in_map_iff in Hr.
    destruct Hr as [row [<- _]]. apply normalizeRow_Normalized. }
  split; [exact H|]. split.
  - unfold totalFunding, sumNumbers.
    assert (G : forall z,
               fold_left (fun sum r => JsNumber.add sum (amountValue r)) rows z
               = fold_left JsNumber.add (map Amount rows) z).
    { induction H as [|r l Hr _ IH]; intros z; [reflexivity|].
      cbn [fold_left map]. rewrite Hr. apply IH. }
    apply G.
  - apply aggregateBy_ext. induction H as [|r l Hr _ IH]; constructor; auto.
Qed.

Lemma cell_skip (row1 row2 : RawRow) (k col : string) (v : primitive) :
  k <> col -> cell (row1 ++ (k, v) :: row2) col = cell (row1 ++ row2) col.
Proof.
  intros Hne. induction row1 as [|[k' v'] row1 IH]; simpl.
  - apply String.eqb_neq in Hne. rewrite Hne. reflexivity.
  - destruct (String.eqb k' col); [reflexivity|exact IH].
Qed.

Lemma cell_In (row : RawRow) (col : string) (v : primitive) :
  NoDup (map fst row) -> In (col, v) row -> cell row col = v.
Proof.
  induction row as [|[k' v'] row IH]; simpl; intros Hnd Hin; [contradiction|].
  inversion Hnd as [|? ? Hk Hrest]; subst.
  destruct Hin as [E|Hin].
  - injection E as -> ->. rewrite String.eqb_refl. reflexivity.
  - destruct (String.eqb_spec k' col) as [->|_]; [|auto].
    exfalso. apply Hk. apply in_map_iff. exists (col, v). auto.
Qed.

Lemma cell_absent (row : RawRow) (col : string) :
  ~ In col (map fst row) -> cell row col = PUndefined.
Proof.
  induction row as [|[k' v'] row IH]; simpl; intros H; [reflexivity|].
  destruct (String.eqb_spec k' col) as [->|_]; [tauto|].
  apply IH. tauto.
Qed.

Lemma cell_Permutation (row row' : RawRow) (col : string) :
  NoDup (map fst row) -> Permutation row row' -> cell row col = cell row' col.
Proof.
  intros Hnd Hp.
  assert (Hnd' : NoDup (map fst row')).
  { eapply Permutation_NoDup; [apply Permutation_map, Hp|exact Hnd]. }
  destruct (in_dec string_dec col (map fst row)) as [Hin|Hout].
  - apply in_map_iff in Hin. destruct Hin as [[k v] [E Hin]]. simpl in E. subst k.
    rewrite (cell_In row col v Hnd Hin).
    symmetry. apply cell_In; [exact Hnd'|].
    eapply Permutation_in; eassumption.
  - rewrite (cell_absent row col Hout). symmetry. apply cell_absent.
    intros Hin. apply Hout.
    eapply Permutation_in; [symmetry; apply Permutation_map, Hp|exact Hin].
Qed.

Lemma normalizeRow_cells (row row' : RawRow) :
  (forall col, In col expectedColumns -> cell row col = cell row' col) ->
  normalizeRow row = normalizeRow row'.
Proof.
  intros H. unfold normalizeRow, textField, amountField.
  rewrite !(H _) by (simpl; tauto). reflexivity.
Qed.

(** X10. [normalizeRow] reads the seven expected columns by name: a column
    with any other header is ignored, and for rows whose headers are
    distinct the order of the columns does not matter. *)
Theorem normalizeRow_by_header :
  forall (row1 row2 : RawRow) (k : string) (v : primitive),
    ~ In k expectedColumns ->
    normalizeRow (row1 ++ (k, v) :: row2) = normalizeRow (row1 ++ row2)
    /\ (forall row', NoDup (map fst (row1 ++ row2)) ->
                     Permutation (row1 ++ row2) row' ->
                     normalizeRow (row1 ++ row2) = normalizeRow row').
Proof.
  intros row1 row2 k v Hk. split.
  - apply normalizeRow_cells. intros col Hcol. apply cell_skip.
    intros ->. contradiction.
  - intros row' Hnd Hp. apply normalizeRow_cells. intros col _.
    apply cell_Permutation; assumption.
Qed.

(** The statement at a row with a Notes column next to its domain. *)
Lemma normalizeRow_by_header_witness :
  normalizeRow ([("Domain", PString "AI")] ++ ("Notes", PString "x") :: [])
  = normalizeRow ([("Domain", PString "AI")] ++ []).
Proof.
  refine (proj1 (normalizeRow_by_header [("Domain", PString "AI")] []
                                        "Notes" (PString "x") _)).
  simpl. intros H. repeat (destruct H as [H|H]; [discriminate|]). exact H.
Defined.

Lemma dropWhile_id {A} (p : A -> bool) (x : A) (l : list A) :
  p x = false -> dropWhile p (x :: l) = x :: l.
Proof. intros H. simpl. rewrite H. reflexivity. Qed.

Lemma trim_chars_idempotent (l : list ascii) :
  trimEnd (trimStart (trimEnd (trimStart l))) = trimEnd (trimStart l).
Proof.
  destruct (trim_chars l) as [->|[c [t [E [Hc Hlast]]]]]; [reflexivity|].
  rewrite E. unfold trimStart. rewrite dropWhile_id by exact Hc.
  unfold trimEnd.
  destruct (rev (c :: t)) as [|z rest] eqn:Er.
  - apply (f_equal (@List.length ascii)) in Er.
    rewrite length_rev in Er. discriminate.
  - assert (Hz : z = last (c :: t) c).
    { rewrite <- (rev_involutive (c :: t)), Er. simpl rev.
      rewrite last_last. reflexivity. }
    rewrite dropWhile_id by (rewrite Hz; exact Hlast).
    rewrite <- Er. apply rev_involutive.
Qed.

(** X11. Trimming is idempotent, so a text cell that already holds a
    normalized field is normalized to itself. *)
Theorem textField_stable :
  forall (row : RawRow) (col col' : string) (rest : RawRow),
    trim (textField row col) = textField row col
    /\ textField ((col', PString (textField row col)) :: rest) col'
       = textField row col.
Proof.
  intros row col col' rest.
  assert (Ht : forall s, trim (trim s) = trim s).
  { intros s. unfold trim at 1 2. unfold chars, of_chars.
    rewrite list_ascii_of_string_of_list_ascii.
    fold (chars s). rewrite trim_chars_idempotent. reflexivity. }
  assert (H1 : trim (textField row col) = textField row col).
  { unfold textField. apply Ht. }
  split; [exact H1|].
  rewrite textField_eq. simpl cell. rewrite String.eqb_refl.
  simpl truthyPrimitive. simpl primitiveToString.
  destruct (truthy (textField row col)) eqn:E; [exact H1|].
  apply truthy_false_iff in E. congruence.
Qed.

Lemma digitChar_spec (d : Z) :
  (0 <= d <= 9)%Z ->
  digitValue (digitChar d) = d /\ isDigit (digitChar d) = true.
Proof.
  intros H.
  assert (E : (d = 0 \/ d = 1 \/ d = 2 \/ d = 3 \/ d = 4 \/ d = 5 \/ d = 6
               \/ d = 7 \/ d = 8 \/ d = 9)%Z) by lia.
  repeat (destruct E as [->|E]; [split; reflexivity|]).
  subst d. split; reflexivity.
Qed.

Lemma digitsFuel_acc (fuel : nat) (n : Z) (acc : list ascii) :
  digitsFuel fuel n acc = digitsFuel fuel n [] ++ acc.
Proof.
  revert n acc. induction fuel as [|fuel IH]; intros n acc; simpl; [reflexivity|].
  destruct (n <=? 0)%Z; [reflexivity|].
  rewrite (IH _ (_ :: acc)), (IH _ [_]), <- app_assoc. reflexivity.
Qed.

Lemma digitsValue_snoc (ds : list ascii) (c : ascii) :
  digitsValue (ds ++ [c]) = (10 * digitsValue ds + digitValue c)%Z.
Proof. unfold digitsValue. rewrite fold_left_app. reflexivity. Qed.

Lemma digitsFuel_spec (fuel : nat) (n : Z) :
  (0 <= n < 2 ^ Z.of_nat fuel)%Z ->
  digitsValue (digitsFuel fuel n []) = n
  /\ Forall (fun c => isDigit c = true) (digitsFuel fuel n []).
Proof.
  revert n. induction fuel as [|fuel IH]; intros n Hn.
  - assert (n = 0)%Z by (simpl in Hn; lia). subst n.
    split; [reflexivity|constructor].
  - simpl digitsFuel. destruct (Z.leb_spec n 0) as [Hle|Hgt].
    + split; [|constructor]. replace n with 0%Z by lia. reflexivity.
    + rewrite digitsFuel_acc.
      assert (Hdiv : (0 <= n / 10 < 2 ^ Z.of_nat fuel)%Z).
      { rewrite Nat2Z.inj_succ, Z.pow_succ_r in Hn by lia.
        split; [apply Z.div_pos; lia|].
        apply Z.div_lt_upper_bound; lia. }
      destruct (IH _ Hdiv) as [Hv Hd].
      assert (Hmod : (0 <= n mod 10 <= 9)%Z).
      { pose proof (Z.mod_pos_bound n 10). lia. }
      destruct (digitChar_spec _ Hmod) as [Hdv Hdd].
      split.
      * rewrite digitsValue_snoc, Hv, Hdv.
        pose proof (Z.div_mod n 10). lia.
      * apply Forall_app. split; [exact Hd|]. constructor; [exact Hdd|constructor].
Qed.

(** The decimal digits of a non-negative integer read back as it. *)
Lemma ofInteger_spec (n : Z) :
  (0 <= n)%Z ->
  digitsValue (ofInteger n) = n
  /\ Forall (fun c => isDigit c = true) (ofInteger n)
  /\ ofInteger n <> [].
Proof.
  intros Hn. unfold ofInteger, decimalDigits.
  assert (Hf : (0 <= n < 2 ^ Z.of_nat (S (Z.to_nat (Z.log2 n))))%Z).
  { split; [exact Hn|].
    rewrite Nat2Z.inj_succ, Z2Nat.id by apply Z.log2_nonneg.
    destruct (Z.eq_dec n 0) as [->|Hne]; [reflexivity|].
    apply Z.log2_spec. lia. }
  destruct (digitsFuel_spec _ _ Hf) as [Hv Hd].
  destruct (digitsFuel (S (Z.to_nat (Z.log2 n))) n []) as [|c ds] eqn:E.
  - split; [|split; [repeat constructor|discriminate]].
    simpl in Hv. rewrite <- Hv. reflexivity.
  - split; [exact Hv|]. split; [exact Hd|discriminate].
Qed.

Lemma span_all {A} (p : A -> bool) (l : list A) :
  Forall (fun x => p x = true) l -> span p l = (l, []).
Proof.
  induction 1 as [|x l Hx _ IH]; simpl; [reflexivity|].
  rewrite Hx, IH. reflexivity.
Qed.

Lemma isDigit_plain (c : ascii) :
  isDigit c = true ->
  isWhiteSpace c = false /\ Ascii.eqb c "-" = false /\ Ascii.eqb c "+" = false
  /\ Ascii.eqb "I" c = false.
Proof.
  intros H. repeat split.
  - unfold isDigit in H. unfold isWhiteSpace.
    apply andb_true_iff in H. destruct H as [H1 H2].
    apply N.leb_le in H1. apply N.leb_le in H2.
    destruct (N.leb_spec 9 (N_of_ascii c)); destruct (N.leb_spec (N_of_ascii c) 13);
      destruct (N.eqb_spec (N_of_ascii c) 32); destruct (N.eqb_spec (N_of_ascii c) 160);
      simpl; try reflexivity; lia.
  - destruct (Ascii.eqb_spec c "-") as [->|_]; [discriminate|reflexivity].
  - destruct (Ascii.eqb_spec c "+") as [->|_]; [discriminate|reflexivity].
  - destruct (Ascii.eqb_spec "I" c) as [<-|_]; [discriminate|reflexivity].
Qed.

(** [parseFloat] on a run of decimal digits is the number of their
    value. *)
Lemma parseFloat_digits (ds : list ascii) :
  ds <> [] -> Forall (fun c => isDigit c = true) ds ->
  JsNumber.parseFloatChars ds = JsNumber.ofDecimal false (digitsValue ds) 0.
Proof.
  intros Hne Hd. destruct ds as [|c ds]; [contradiction|].
  inversion Hd as [|? ? Hc Hrest]; subst.
  destruct (isDigit_plain c Hc) as [Hw [Hm [Hp Hi]]].
  unfold JsNumber.parseFloatChars, trimStart. rewrite dropWhile_id by exact Hw.
  rewrite Hm, Hp. unfold JsNumber.scanUnsigned.
  change (isPrefix (chars "Infinity") (c :: ds))
    with (Ascii.eqb "I" c && isPrefix (chars "nfinity") ds).
  rewrite Hi. simpl andb. rewrite (span_all isDigit (c :: ds) Hd).
  simpl. rewrite app_nil_r. reflexivity.
Qed.

Lemma ofDecimal_integer (n : Z) :
  (0 <= n)%Z -> JsNumber.ofDecimal false n 0 = JsNumber.ofZ n.
Proof.
  intros Hn. destruct n as [|p|p]; [reflexivity| |lia].
  unfold JsNumber.ofDecimal, JsNumber.ofZ. simpl.
  rewrite Pos.mul_1_r. reflexivity.
Qed.

(** X12. An amount cell holding the decimal digits of an integer below
    [2^53], with commas anywhere among them, is normalized to exactly
    that integer. *)
Theorem normalizeRow_integer_amount :
  forall (n : Z) (s : string) (rest : RawRow),
    (0 <= n < 2 ^ 53)%Z ->
    chars (removeCommas s) = ofInteger n ->
    Amount (normalizeRow (("Amount(in lakhs)", PString s) :: rest))
    = JsNumber.ofZ n.
Proof.
  intros n s rest Hn Hs.
  destruct (ofInteger_spec n (proj1 Hn)) as [Hv [Hd Hne]].
  assert (Ht : truthy s = true).
  { destruct s; [|reflexivity]. exfalso. apply Hne. rewrite <- Hs. reflexivity. }
  unfold normalizeRow, amountField. simpl Amount. simpl cell.
  unfold orElsePrimitive. simpl truthyPrimitive. rewrite Ht.
  simpl primitiveToString. unfold JsNumber.parseFloat. rewrite Hs.
  rewrite parseFloat_digits, Hv, ofDecimal_integer by (assumption || lia).
  apply ofZ_truthy, Hn.
Qed.

(** The statement at the cell ["1,234"]. *)
Lemma normalizeRow_integer_amount_witness :
  Amount (normalizeRow (("Amount(in lakhs)", PString "1,234") :: []))
  = JsNumber.ofZ 1234.
Proof.
  apply (normalizeRow_integer_amount 1234 "1,234" []).
  - lia.
  - reflexivity.
Defined.

(* ================================================================== *)
(** * The page as a whole: options, loads and reachable states *)
(* ================================================================== *)

Section Page.

Variable localeCompare : string -> string -> Z.
Variable Worksheet : Type.
Variable XLSX_read : list Byte.byte -> completion (Workbook Worksheet).
Variable sheet_to_json : option Worksheet -> list RawRow.

Let populate := populateFilterOptions localeCompare.
Let upload := loadFile localeCompare XLSX_read sheet_to_json.
Let handle := handleEvent localeCompare XLSX_read sheet_to_json.
Let run := runEvents localeCompare XLSX_read sheet_to_json.

Lemma distinctValues_no_empty (field : Project -> string) (rows : list Project) :
  existsb (String.eqb "") (distinctValues field rows) = false.
Proof.
  apply not_true_iff_false. rewrite existsb_eqb_In.
  apply distinctValues_nonempty.
Qed.

Lemma populateFilterOptions_eq (rows : list Project) (st : State) :
  populate rows st
  = {| allRows := allRows st; charts := charts st;
       domainFilter :=
         fillSelect localeCompare (domainFilter st) (distinctValues Domain rows);
       statusFilter :=
         fillSelect localeCompare (statusFilter st) (distinctValues Status rows);
       facultyFilter :=
         fillSelect localeCompare (facultyFilter st)
                    (distinctValues FacultyName rows);
       totalProjectsEl := totalProjectsEl st;
       totalFundingEl := totalFundingEl st;
       uniqueDomainsEl := uniqueDomainsEl st;
       statusBreakdownEl := statusBreakdownEl st;
       tableBody := tableBody st |}.
Proof.
  unfold populate, populateFilterOptions. rewrite collectOptions_eq. reflexivity.
Qed.

Lemma fillSelect_idempotent (el : Dom.SelectElement) (values : list string) :
  ~ In "" values ->
  fillSelect localeCompare (fillSelect localeCompare el values) values
  = fillSelect localeCompare el values.
Proof.
  intros Hne.
  rewrite (fillSelect_eq localeCompare (fillSelect localeCompare el values)).
  rewrite (fillSelect_value localeCompare el values Hne).
  rewrite (fillSelect_eq localeCompare el values). cbv zeta.
  destruct (existsb (String.eqb (Dom.value el)) values) eqn:E.
  - rewrite E. reflexivity.
  - simpl. rewrite andb_false_r. reflexivity.
Qed.

Lemma fillSelect_same_value (el el' : Dom.SelectElement) (values : list string) :
  Dom.value el = Dom.value el' ->
  fillSelect localeCompare el values = fillSelect localeCompare el' values.
Proof. intros E. rewrite !fillSelect_eq, E. reflexivity. Qed.

(** X13. Recomputing the options touches nothing but the three drop-downs,
    looks at each drop-down's current value only, and recomputing them
    again from the same records changes nothing. *)
Theorem populateFilterOptions_idempotent :
  forall (rows : list Project) (st st' : State),
    populate rows (populate rows st) = populate rows st
    /\ allRows (populate rows st) = allRows st
    /\ charts (populate rows st) = charts st
    /\ tableBody (populate rows st) = tableBody st
    /\ totalProjectsEl (populate rows st) = totalProjectsEl st
    /\ totalFundingEl (populate rows st) = totalFundingEl st
    /\ uniqueDomainsEl (populate rows st) = uniqueDomainsEl st
    /\ statusBreakdownEl (populate rows st) = statusBreakdownEl st
    /\ (selection st = selection st' ->
        domainFilter (populate rows st) = domainFilter (populate rows st')
        /\ statusFilter (populate rows st) = statusFilter (populate rows st')
        /\ facultyFilter (populate rows st) = facultyFilter (populate rows st')).
Proof.
  intros rows st st'. rewrite !populateFilterOptions_eq. simpl.
  split.
  - rewrite !fillSelect_idempotent by apply distinctValues_nonempty. reflexivity.
  - repeat split; try reflexivity;
      unfold selection in H; injection H as Hd Hs Hf;
      apply fillSelect_same_value; assumption.
Qed.

Lemma fillSelect_selected (el : Dom.SelectElement) (values : list string) :
  exists i o,
    Dom.selectedIndex (fillSelect localeCompare el values) = Some i
    /\ nth_error (Dom.options (fillSelect localeCompare el values)) i = Some o.
Proof.
  rewrite fillSelect_eq. cbv zeta.
  destruct (truthy (Dom.value el) && existsb (String.eqb (Dom.value el)) values)
    eqn:E.
  - apply andb_true_iff in E. destruct E as [_ E]. apply existsb_eqb_In in E.
    destruct (findValue_In (Dom.value el)
                (allOpt :: map optionFor (sortByLocale localeCompare values)))
      as [i [o [Hf [Hn _]]]].
    + simpl. right. rewrite map_map. simpl. rewrite map_id.
      apply sortByLocale_In, E.
    + exists i, o. split; [exact Hf|exact Hn].
  - exists O, allOpt. split; reflexivity.
Qed.

Lemma fillSelect_FilterInSync (field : Project -> string) (rows : list Project)
    (el : Dom.SelectElement) :
  FilterInSync localeCompare field rows
    (fillSelect localeCompare el (distinctValues field rows)).
Proof. split; [apply fillSelect_options|apply fillSelect_selected]. Qed.

Lemma chooseOption_FilterInSync (field : Project -> string) (rows : list Project)
    (el : Dom.SelectElement) (i : nat) :
  FilterInSync localeCompare field rows el ->
  FilterInSync localeCompare field rows (chooseOption el i).
Proof.
  intros [Ho Hs]. unfold chooseOption.
  destruct (Nat.ltb_spec i (List.length (Dom.options el))) as [Hlt|_];
    [|split; assumption].
  split; [exact Ho|]. simpl.
  destruct (nth_error (Dom.options el) i) as [o|] eqn:E.
  - exists i, o. auto.
  - apply nth_error_None in E. lia.
Qed.

Lemma render_Consistent (st : State) :
  Forall Normalized (allRows st) ->
  FilterInSync localeCompare Domain (allRows st) (domainFilter st) ->
  FilterInSync localeCompare Status (allRows st) (statusFilter st) ->
  FilterInSync localeCompare FacultyName (allRows st) (facultyFilter st) ->
  Consistent localeCompare (render (allRows st) st).
Proof.
  intros Hn Hd Hs Hf.
  destruct (render_keeps (allRows st) st) as [Ea [Ed [Es Ef]]].
  unfold Consistent. rewrite Ea, Ed, Es, Ef.
  split; [symmetry; apply render_render|]. auto.
Qed.

(** The state [reader.onload] leaves after a successful parse. *)
Lemma onload_Consistent (json : list RawRow) (st : State) :
  let rows := map normalizeRow json in
  Consistent localeCompare
    (render (allRows (populate rows (withRows rows st)))
            (populate rows (withRows rows st))).
Proof.
  intros rows. apply render_Consistent; rewrite populateFilterOptions_eq; simpl.
  - apply Forall_forall. intros r Hr. apply in_map_iff in Hr.
    destruct Hr as [row [<- _]]. apply normalizeRow_Normalized.
  - apply fillSelect_FilterInSync.
  - apply fillSelect_FilterInSync.
  - apply fillSelect_FilterInSync.
Qed.

Lemma upload_cases (files : list File) (st : State) :
  upload files st = (st, Normal tt)
  \/ (exists data others error,
        files = Readable data :: others /\ XLSX_read data = Throw error
        /\ upload files st = (st, Throw error))
  \/ (exists data others workbook,
        files = Readable data :: others /\ XLSX_read data = Normal workbook
        /\ upload files st
           = (let rows := map normalizeRow (sheet_to_json (firstSheet workbook)) in
              render (allRows (populate rows (withRows rows st)))
                     (populate rows (withRows rows st)),
              Normal tt)).
Proof.
  unfold upload. rewrite loadFile_eq.
  destruct files as [|[data|] others]; [left; reflexivity| |left; reflexivity].
  unfold onload. destruct (XLSX_read data) as [workbook|error] eqn:E.
  - right. right. exists data, others, workbook. auto.
  - right. left. exists data, others, error. auto.
Qed.

Lemma handle_Consistent (st : State) (ev : Event) :
  Consistent localeCompare st -> Consistent localeCompare (handle st ev).
Proof.
  intros Hc. destruct ev as [files|which i]; unfold handle, handleEvent.
  - fold upload.
    destruct (upload_cases files st)
      as [E|[[data [others [error [_ [_ E]]]]]|[data [others [wb [_ [_ E]]]]]]];
      rewrite E; simpl fst; [exact Hc|exact Hc|apply onload_Consistent].
  - destruct Hc as [_ [Hn [Hd [Hs Hf]]]].
    unfold onFilterChange. apply render_Consistent; simpl.
    + exact Hn.
    + destruct which; [apply chooseOption_FilterInSync| |]; exact Hd.
    + destruct which; [|apply chooseOption_FilterInSync|]; exact Hs.
    + destruct which; [| |apply chooseOption_FilterInSync]; exact Hf.
Qed.

Lemma initialState_Consistent : Consistent localeCompare initialState.
Proof.
  unfold Consistent. split; [reflexivity|]. split; [constructor|].
  repeat split; try reflexivity; exists O, allOpt; split; reflexivity.
Qed.

(** X14. Whatever files are chosen and whatever filters are changed, in any
    order, the page stays consistent: the summary, the table and the
    charts are those [render] computes from the current record set and
    filters; every record is normalized; and each drop-down lists
    ["All"] and the sorted distinct values of its field in the current
    record set, with one of its options selected. *)
Theorem reachable_states_consistent :
  forall (events : list Event), Consistent localeCompare (run events).
Proof.
  intros events. unfold run, runEvents.
  assert (H : forall st, Consistent localeCompare st ->
                         Consistent localeCompare
                           (fold_left (handleEvent localeCompare XLSX_read sheet_to_json)
                                      events st)).
  { induction events as [|ev events IH]; intros st Hc; simpl; [exact Hc|].
    apply IH. apply handle_Consistent, Hc. }
  apply H, initialState_Consistent.
Qed.

(** X15. A file change alters the page only when the first chosen file can
    be read and parsed; files after the first are never looked at. In
    particular no file, or an unreadable one, leaves the page as it is
    and raises nothing. *)
Theorem handleFileUpload_changes_only_on_success :
  forall (files : list File) (st : State),
    (fst (upload files st) <> st ->
     exists data others workbook,
       files = Readable data :: others /\ XLSX_read data = Normal workbook)
    /\ upload files st = upload (firstn 1 files) st
    /\ upload [] st = (st, Normal tt)
    /\ (forall others, upload (Unreadable :: others) st = (st, Normal tt)).
Proof.
  intros files st. split; [|split; [|split]].
  - intros Hne.
    destruct (upload_cases files st)
      as [E|[[data [others [error [_ [_ E]]]]]|[data [others [wb [Hf [Hr _]]]]]]].
    + rewrite E in Hne. contradiction.
    + rewrite E in Hne. contradiction.
    + exists data, others, wb. auto.
  - destruct files as [|[data|] others]; reflexivity.
  - reflexivity.
  - reflexivity.
Qed.

(** X16. A successful load replaces the record set by one normalized record
    per row of the first sheet, in row order; and when no filter was
    constraining before the load, none is afterwards, so that the table
    shows every loaded record. *)
Theorem handleFileUpload_shows_all :
  forall (data : list Byte.byte) (others : list File) (st : State)
         (workbook : Workbook Worksheet),
    XLSX_read data = Normal workbook ->
    let json := sheet_to_json (firstSheet workbook) in
    let st' := fst (upload (Readable data :: others) st) in
    allRows st' = map normalizeRow json
    /\ List.length (allRows st') = List.length json
    /\ (selection st = ("", "", "") ->
        selection st' = ("", "", "")
        /\ applyFilters st' (allRows st') = allRows st'
        /\ tableBody st' = map tableCells (allRows st')).
Proof.
  intros data others st workbook Hr json st'.
  assert (E : st' = render (map normalizeRow json)
                           (populate (map normalizeRow json)
                                     (withRows (map normalizeRow json) st))).
  { unfold st', upload. rewrite loadFile_eq. unfold onload. rewrite Hr.
    cbv zeta. simpl fst. fold json.
    change (allRows (withRows (map normalizeRow json) st))
      with (map normalizeRow json).
    fold populate. f_equal. rewrite populateFilterOptions_eq. reflexivity. }
  assert (Ha : allRows st' = map normalizeRow json).
  { rewrite E. destruct (render_keeps (map normalizeRow json)
                           (populate (map normalizeRow json)
                                     (withRows (map normalizeRow json) st)))
      as [-> _].
    rewrite populateFilterOptions_eq. reflexivity. }
  split; [exact Ha|]. split; [rewrite Ha; apply length_map|].
  intros Hsel. unfold selection in Hsel. injection Hsel as Hd Hs Hf.
  assert (Hsel' : selection st' = ("", "", "")).
  { rewrite E.
    destruct (render_keeps (map normalizeRow json)
                (populate (map normalizeRow json)
                          (withRows (map normalizeRow json) st)))
      as [_ [Ed [Es Ef]]].
    unfold selection. rewrite Ed, Es, Ef, populateFilterOptions_eq. simpl.
    rewrite !fillSelect_value by apply distinctValues_nonempty.
    rewrite Hd, Hs, Hf.
    rewrite !distinctValues_no_empty. reflexivity. }
  split; [exact Hsel'|].
  assert (Hall : applyFilters st' (allRows st') = allRows st').
  { unfold selection in Hsel'. injection Hsel' as Hd' Hs' Hf'.
    unfold applyFilters. rewrite Hd', Hs', Hf'. apply filter_all.
    intros r _. reflexivity. }
  split; [exact Hall|].
  rewrite <- Hall, Ha, E. apply render_table.
Qed.

End Page.

(** The statement at the sample library and a file starting with PK. *)
Lemma handleFileUpload_shows_all_witness :
  allRows (fst (loadFile sampleLocaleCompare sampleRead sampleSheetToJson
                         [Readable [Byte.x50; Byte.x4b]] initialState))
  = map normalizeRow [[("Domain", PString "AI")]].
Proof.
  refine (proj1 (handleFileUpload_shows_all sampleLocaleCompare (list RawRow)
                   sampleRead sampleSheetToJson [Byte.x50; Byte.x4b] []
                   initialState
                   {| SheetNames := ["Sheet1"];
                      Sheets := [("Sheet1", [[("Domain", PString "AI")]])] |}
                   _)).
  reflexivity.
Defined.

(* ================================================================== *)
(** * Amounts on display: [toFixed(2)] on integers *)
(* ================================================================== *)

Lemma digitsFuel_more (fuel : nat) (n : Z) :
  (0 <= n < 2 ^ Z.of_nat fuel)%Z ->
  digitsFuel (S fuel) n [] = digitsFuel fuel n [].
Proof.
  revert n. induction fuel as [|fuel IH]; intros n Hn.
  - assert (n = 0)%Z by (simpl in Hn; lia). subst n. reflexivity.
  - change (digitsFuel (S (S fuel)) n [])
      with (if (n <=? 0)%Z then []
            else digitsFuel (S fuel) (n / 10) [digitChar (n mod 10)]).
    change (digitsFuel (S fuel) n [])
      with (if (n <=? 0)%Z then []
            else digitsFuel fuel (n / 10) [digitChar (n mod 10)]).
    destruct (Z.leb_spec n 0) as [Hle|Hgt]; [reflexivity|].
    rewrite (digitsFuel_acc (S fuel)), (digitsFuel_acc fuel). f_equal.
    apply IH. rewrite Nat2Z.inj_succ, Z.pow_succ_r in Hn by lia.
    split; [apply Z.div_pos; lia|apply Z.div_lt_upper_bound; lia].
Qed.

Lemma digitsFuel_enough (fuel fuel' : nat) (n : Z) :
  (0 <= n < 2 ^ Z.of_nat fuel)%Z -> (fuel <= fuel')%nat ->
  digitsFuel fuel' n [] = digitsFuel fuel n [].
Proof.
  intros Hn Hle. induction Hle as [|fuel' Hle IH]; [reflexivity|].
  rewrite digitsFuel_more; [exact IH|].
  split; [lia|]. eapply Z.lt_le_trans; [apply Hn|].
  apply Z.pow_le_mono_r; lia.
Qed.

Lemma log2_fuel (n : Z) :
  (0 <= n)%Z -> (0 <= n < 2 ^ Z.of_nat (S (Z.to_nat (Z.log2 n))))%Z.
Proof.
  intros Hn. split; [exact Hn|].
  rewrite Nat2Z.inj_succ, Z2Nat.id by apply Z.log2_nonneg.
  destruct (Z.eq_dec n 0) as [->|Hne]; [reflexivity|].
  apply Z.log2_spec. lia.
Qed.

(** The digits of ten times a positive integer are its digits and a
    zero. *)
Lemma decimalDigits_times_ten (n : Z) :
  (0 < n)%Z -> decimalDigits (10 * n) = decimalDigits n ++ ["0"%char].
Proof.
  intros Hn. unfold decimalDigits.
  set (f := S (Z.to_nat (Z.log2 n))).
  set (g := S (Z.to_nat (Z.log2 (10 * n)))).
  assert (Hf : (0 <= n < 2 ^ Z.of_nat f)%Z) by (apply log2_fuel; lia).
  assert (Hg : (0 <= 10 * n < 2 ^ Z.of_nat g)%Z) by (apply log2_fuel; lia).
  assert (Hfg : (f <= g)%nat).
  { unfold f, g. apply le_n_S, Z2Nat.inj_le; try apply Z.log2_nonneg.
    apply Z.log2_le_mono. lia. }
  rewrite <- (digitsFuel_enough g (S g) (10 * n) Hg) by lia.
  change (digitsFuel (S g) (10 * n) [])
    with (if (10 * n <=? 0)%Z then []
          else digitsFuel g (10 * n / 10) [digitChar ((10 * n) mod 10)]).
  destruct (Z.leb_spec (10 * n) 0) as [Hle|_]; [lia|].
  rewrite digitsFuel_acc.
  replace (10 * n / 10)%Z with n by (rewrite Z.mul_comm, Z.div_mul; lia).
  replace ((10 * n) mod 10)%Z with 0%Z by (rewrite Z.mul_comm, Z.mod_mul; lia).
  rewrite (digitsFuel_enough f g n Hf Hfg). reflexivity.
Qed.

Lemma decimalDigits_positive (n : Z) : (0 < n)%Z -> decimalDigits n <> [].
Proof.
  intros Hn E.
  destruct (digitsFuel_spec _ n (log2_fuel n (Z.lt_le_incl _ _ Hn))) as [Hv _].
  unfold decimalDigits in E. rewrite E in Hv.
  change (digitsValue []) with 0%Z in Hv. lia.
Qed.

Lemma fixed2Digits_hundreds (n : Z) :
  (0 <= n)%Z ->
  JsNumber.fixed2Digits (100 * n) = ofInteger n ++ chars ".00".
Proof.
  intros Hn. destruct (Z.eq_dec n 0) as [->|Hne]; [reflexivity|].
  assert (Hd : decimalDigits (100 * n) = decimalDigits n ++ chars "00").
  { replace (100 * n)%Z with (10 * (10 * n))%Z by lia.
    rewrite !decimalDigits_times_ten by lia. rewrite <- app_assoc. reflexivity. }
  pose proof (decimalDigits_positive n) as Hp.
  unfold JsNumber.fixed2Digits, ofInteger. rewrite Hd.
  destruct (decimalDigits n) as [|c ds] eqn:E; [exfalso; apply Hp; [lia|reflexivity]|].
  cbn [app chars list_ascii_of_string].
  assert (Hlen : List.length (c :: ds ++ ["0"%char; "0"%char])
                 = (List.length (c :: ds) + 2)%nat).
  { simpl. rewrite length_app. simpl. lia. }
  assert (Hz : zeros (3 - Z.of_nat (List.length (c :: ds ++ ["0"%char; "0"%char])))
               = []).
  { unfold zeros.
    replace (Z.to_nat (3 - Z.of_nat (List.length (c :: ds ++ ["0"%char; "0"%char]))))
      with O; [reflexivity|]. rewrite Hlen. simpl List.length. lia. }
  rewrite Hz. cbn [app]. rewrite Hlen.
  replace (List.length (c :: ds) + 2 - 2)%nat with (List.length (c :: ds)) by lia.
  change (c :: ds ++ ["0"%char; "0"%char]) with ((c :: ds) ++ ["0"%char; "0"%char]).
  rewrite firstn_app, firstn_all, Nat.sub_diag, skipn_app, skipn_all, Nat.sub_diag.
  cbn [firstn skipn app]. rewrite app_nil_r. reflexivity.
Qed.

Section FixedInteger.
Local Open Scope Z_scope.

Lemma nearestHundredth_integer (p : positive) :
  Zpos p < 2 ^ 53 ->
  JsNumber.floorRatio (JsNumber.ratioOf (shl p (53 - digits p)) (digits p - 53))
  = Zpos p
  /\ JsNumber.nearestHundredth (shl p (53 - digits p)) (digits p - 53)
     = 100 * Zpos p.
Proof.
  intros Hp. pose proof (digits_le_prec p Hp) as Hd.
  assert (Hr : exists den, 0 < den
             /\ JsNumber.ratioOf (shl p (53 - digits p)) (digits p - 53)
                = {| JsNumber.num := Zpos p * den; JsNumber.den := den |}).
  { unfold JsNumber.ratioOf.
    destruct (Z.leb_spec 0 (digits p - 53)) as [H0|H0].
    - exists 1. split; [lia|].
      replace (digits p - 53) with 0 by lia.
      replace (53 - digits p) with 0 by lia. simpl. f_equal; lia.
    - exists (2 ^ (53 - digits p)). split; [apply Z.pow_pos_nonneg; lia|].
      rewrite shl_spec by lia.
      replace (- (digits p - 53)) with (53 - digits p) by lia. reflexivity. }
  destruct Hr as [den [Hden Hr]]. split.
  - unfold JsNumber.floorRatio. rewrite Hr. cbn [JsNumber.num JsNumber.den].
    apply Z.div_mul. lia.
  - unfold JsNumber.nearestHundredth, JsNumber.scale10. rewrite Hr.
    change (0 <=? 2) with true. cbn [JsNumber.num JsNumber.den].
    change (10 ^ 2) with 100.
    replace (2 * (Zpos p * den * 100) + den) with ((200 * Zpos p + 1) * den) by lia.
    rewrite Z.div_mul_cancel_r by lia.
    replace (200 * Zpos p + 1) with (1 + (100 * Zpos p) * 2) by lia.
    rewrite Z.div_add by lia. reflexivity.
Qed.

(** [toFixed(2)] of an integer below [2^53] is its decimal digits
    followed by [.00]. *)
Lemma toFixed2_integer (n : Z) :
  0 <= n < 2 ^ 53 ->
  JsNumber.toFixed2 (JsNumber.ofZ n) = of_chars (ofInteger n ++ chars ".00").
Proof.
  intros [H0 Hlt]. destruct n as [|p|p]; [reflexivity| |lia].
  rewrite ofZ_pos by exact Hlt. unfold JsNumber.toFixed2.
  destruct (nearestHundredth_integer p Hlt) as [Hf Hn]. rewrite Hf, Hn.
  destruct (Z.leb_spec (10 ^ 21) (Zpos p)) as [Hbig|_].
  - exfalso. assert (2 ^ 53 < 10 ^ 21) by reflexivity. lia.
  - rewrite fixed2Digits_hundreds by lia. reflexivity.
Qed.

End FixedInteger.

(** X17. Whole amounts on display: a record whose amount is an integer below
    [2^53] shows it in its table row as the integer's decimal digits
    followed by [.00]; and when all visible amounts are such integers
    with a total below [2^53], the summary shows their exact total in
    the same form. *)
Theorem integer_amounts_displayed :
  forall (rows : list Project) (w : Project -> Z),
    (forall r, In r rows -> (0 <= w r)%Z /\ Amount r = JsNumber.ofZ (w r)) ->
    (sumZ (map w rows) < 2 ^ 53)%Z ->
    Forall (fun r => nth 4 (tableCells r) ""
                     = of_chars (ofInteger (w r) ++ chars ".00")) rows
    /\ totalFunding rows = JsNumber.ofZ (sumZ (map w rows))
    /\ JsNumber.toFixed2 (totalFunding rows)
       = of_chars (ofInteger (sumZ (map w rows)) ++ chars ".00").
Proof.
  intros rows w Hw Hlt.
  assert (Hnn : Forall (fun z => 0 <= z)%Z (map w rows)).
  { apply Forall_forall. intros z Hz. apply in_map_iff in Hz.
    destruct Hz as [r [<- Hr]]. apply (Hw r Hr). }
  assert (Hle : forall r, In r rows -> (w r <= sumZ (map w rows))%Z).
  { clear Hlt Hw. induction rows as [|x rows IH]; intros r Hr; [contradiction|].
    inversion Hnn as [|? ? Hx Hrest]; subst.
    pose proof (sumZ_nonneg _ Hrest) as Hs. simpl.
    destruct Hr as [->|Hr]; [lia|]. specialize (IH Hrest r Hr). lia. }
  assert (Hb : forall r, In r rows ->
                         amountValue r = JsNumber.ofZ (w r)).
  { intros r Hr. unfold amountValue. rewrite (proj2 (Hw r Hr)).
    apply ofZ_truthy. split; [apply (Hw r Hr)|]. specialize (Hle r Hr). lia. }
  assert (Ht : totalFunding rows = JsNumber.ofZ (sumZ (map w rows))).
  { assert (G : forall z,
               fold_left (fun sum r => JsNumber.add sum (amountValue r)) rows z
               = fold_left JsNumber.add (map (fun r => JsNumber.ofZ (w r)) rows) z).
    { clear -Hb. induction rows as [|r rows IH]; intros z; [reflexivity|].
      cbn [fold_left map]. rewrite (Hb r (or_introl eq_refl)).
      apply IH. intros r' Hr'. apply Hb. right. exact Hr'. }
    change (fold_left (fun sum r => JsNumber.add sum (amountValue r)) rows JsNumber.zero
            = JsNumber.ofZ (sumZ (map w rows))).
    rewrite G, <- (map_map w JsNumber.ofZ).
    change JsNumber.zero with (JsNumber.ofZ 0).
    rewrite sumNumbers_ofZ_from by (auto; lia). reflexivity. }
  split; [|split; [exact Ht|]].
  - apply Forall_forall. intros r Hr. simpl nth.
    rewrite (proj2 (Hw r Hr)). apply toFixed2_integer.
    split; [apply (Hw r Hr)|]. specialize (Hle r Hr). lia.
  - rewrite Ht. apply toFixed2_integer. split; [apply sumZ_nonneg, Hnn|exact Hlt].
Qed.

(** The statement at the amounts 10 and 5. *)
Lemma integer_amounts_displayed_witness :
  JsNumber.toFixed2
    (totalFunding [sampleProject "AI" "" (JsNumber.ofZ 10);
                   sampleProject "AI" "" (JsNumber.ofZ 5)])
  = "15.00".
Proof.
  refine (proj2 (proj2 (integer_amounts_displayed
                          [sampleProject "AI" "" (JsNumber.ofZ 10);
                           sampleProject "AI" "" (JsNumber.ofZ 5)]
                          (fun r => if JsNumber.strictEq (Amount r) (JsNumber.ofZ 10)
                                    then 10%Z else 5%Z) _ _))).
  - intros r Hr. simpl in Hr. destruct Hr as [<-|[<-|[]]]; split; (reflexivity || simpl; lia).
  - simpl. lia.
Defined.

(* ================================================================== *)
(** * A selected domain or status *)
(* ================================================================== *)

Lemma firstOccurrences_constant (d : string) (l : list string) :
  l <> [] -> (forall x, In x l -> x = d) -> firstOccurrences l = [d].
Proof.
  intros Hne Hall. destruct l as [|x l]; [contradiction|].
  simpl. rewrite (Hall x (or_introl eq_refl)). f_equal.
  apply filter_none. intros y Hy. apply (proj1 (firstOccurrences_In y l)) in Hy.
  rewrite (Hall y (or_intror Hy)), String.eqb_refl. reflexivity.
Qed.

Lemma ownKeys_single (k : string) (v : scalar) :
  JsObject.keys [(k, v)] = [k].
Proof.
  unfold JsObject.keys, JsObject.ownKeys. simpl.
  destruct (JsObject.isArrayIndex k); reflexivity.
Qed.

Lemma keys_of_names (o : JsObject.object) (k : string) :
  map fst o = [k] -> JsObject.keys o = [k].
Proof.
  destruct o as [|[k' v] [|e o]]; simpl; intros E; try discriminate.
  injection E as ->. apply ownKeys_single.
Qed.

Lemma aggregateBy_single_key (rows : list Project) (keyFn : Project -> string)
    (valueFn : option (Project -> JsNumber.number)) (d : string) :
  rows <> [] -> d <> "__proto__" ->
  (forall r, In r rows -> groupKey keyFn r = d) ->
  JsObject.keys (aggregateBy rows keyFn valueFn) = [d].
Proof.
  intros Hne Hd Hall. apply keys_of_names.
  rewrite aggregateBy_own_names, filter_all.
  - apply firstOccurrences_constant.
    + destruct rows; [contradiction|discriminate].
    + intros x Hx. apply in_map_iff in Hx. destruct Hx as [r [<- Hr]]. auto.
  - intros x Hx. apply in_map_iff in Hx. destruct Hx as [r [<- Hr]].
    rewrite (Hall r Hr). unfold notProto.
    apply negb_true_iff, String.eqb_neq, Hd.
Qed.

Lemma render_nonempty (rows : list Project) (st : State) :
  rows <> [] ->
  uniqueDomainsEl (render rows st)
  = JsNumber.toString
      (lengthNumber (setOf (filter truthy (map Domain (applyFilters st rows)))))
  /\ charts (render rows st) = charts (renderCharts (applyFilters st rows) st).
Proof. destruct rows; [contradiction|]. split; reflexivity. Qed.

(** X18. While a domain is selected in the domain filter, every record shown
    has that domain; hence, if any record is shown, both domain charts
    carry that single label and the summary counts one domain. The same
    holds for a selected status and the status chart. *)
Theorem selected_value_single_label :
  forall (rows : list Project) (st : State) (d : string),
    d <> "" -> d <> "__proto__" ->
    applyFilters st rows <> [] ->
    (Dom.value (domainFilter st) = d ->
     Forall (fun r => Domain r = d) (applyFilters st rows)
     /\ uniqueDomainsEl (render rows st) = "1"
     /\ exists byDomain funding,
          projectsByDomain (charts (render rows st)) = Some byDomain
          /\ fundingByDomain (charts (render rows st)) = Some funding
          /\ labels byDomain = [d] /\ labels funding = [d])
    /\ (Dom.value (statusFilter st) = d ->
        Forall (fun r => Status r = d) (applyFilters st rows)
        /\ exists byStatus,
             projectsByStatus (charts (render rows st)) = Some byStatus
             /\ labels byStatus = [d]).
Proof.
  intros rows st d Hd Hp Hne.
  assert (Ht : truthy d = true) by (destruct d; [contradiction|reflexivity]).
  assert (Hrows : rows <> []).
  { intros ->. apply Hne. reflexivity. }
  assert (Hk : orElse d "Unknown" = d) by (unfold orElse; rewrite Ht; reflexivity).
  destruct (render_nonempty rows st Hrows) as [-> ->]. split.
  - intros Hsel.
    assert (Hall : forall r, In r (applyFilters st rows) -> Domain r = d).
    { intros r Hr. unfold applyFilters in Hr. apply filter_In in Hr.
      destruct Hr as [_ Hr]. rewrite !andb_true_iff in Hr.
      destruct Hr as [[Hr _] _]. rewrite Hsel in Hr.
      unfold fieldOk in Hr. rewrite Ht in Hr. simpl in Hr.
      apply String.eqb_eq, Hr. }
    split; [apply Forall_forall, Hall|]. split.
    + rewrite setOf_firstOccurrences,
        (firstOccurrences_constant d (filter truthy (map Domain (applyFilters st rows)))).
      * reflexivity.
      * destruct (applyFilters st rows) as [|r l] eqn:E; [contradiction|].
        simpl. rewrite (Hall r (or_introl eq_refl)), Ht. discriminate.
      * intros x Hx. apply filter_In in Hx. destruct Hx as [Hx _].
        apply in_map_iff in Hx. destruct Hx as [r [<- Hr]]. auto.
    + unfold renderCharts. cbv zeta. cbn [charts withCharts projectsByDomain
                                             fundingByDomain].
      do 2 eexists. split; [reflexivity|]. split; [reflexivity|].
      cbn [labels].
      assert (E : JsObject.keys (aggregateBy (applyFilters st rows) domainKey None)
                  = [d]).
      { apply aggregateBy_single_key; [exact Hne|exact Hp|].
        intros r Hr. rewrite groupKey_domainKey. unfold domainKey.
        rewrite (Hall r Hr). exact Hk. }
      rewrite E. split; reflexivity.
  - intros Hsel.
    assert (Hall : forall r, In r (applyFilters st rows) -> Status r = d).
    { intros r Hr. unfold applyFilters in Hr. apply filter_In in Hr.
      destruct Hr as [_ Hr]. rewrite !andb_true_iff in Hr.
      destruct Hr as [[_ Hr] _]. rewrite Hsel in Hr.
      unfold fieldOk in Hr. rewrite Ht in Hr. simpl in Hr.
      apply String.eqb_eq, Hr. }
    split; [apply Forall_forall, Hall|].
    unfold renderCharts. cbv zeta. cbn [charts withCharts projectsByStatus].
    eexists. split; [reflexivity|]. cbn [labels].
    apply aggregateBy_single_key; [exact Hne|exact Hp|].
    intros r Hr. rewrite groupKey_statusKey. unfold statusKey.
    rewrite (Hall r Hr). exact Hk.
Qed.

(** The statement at an AI and a Bio record with AI selected. *)
Lemma selected_value_single_label_witness :
  Forall (fun r => Domain r = "AI")
         (applyFilters
            (chooseFilter DomainFilter 1
               (populateFilterOptions sampleLocaleCompare
                  [sampleProject "AI" "" JsNumber.one;
                   sampleProject "Bio" "" JsNumber.one] initialState))
            [sampleProject "AI" "" JsNumber.one;
             sampleProject "Bio" "" JsNumber.one]).
Proof.
  refine (proj1 (proj1 (selected_value_single_label
                          [sampleProject "AI" "" JsNumber.one;
                           sampleProject "Bio" "" JsNumber.one]
                          (chooseFilter DomainFilter 1
                             (populateFilterOptions sampleLocaleCompare
                                [sampleProject "AI" "" JsNumber.one;
                                 sampleProject "Bio" "" JsNumber.one] initialState))
                          "AI" _ _ _) _)).
  - discriminate.
  - discriminate.
  - vm_compute. discriminate.
  - reflexivity.
Defined.
